(** * Bangalore-Property scraper: price parsing, junk filter, verifier, deduplication

    A shallow embedding of the pure core of [scraper/scraper.py]:
    [parse_price_range], [_is_junk_project_name], [_format_price_display],
    [_normalize_str], [verify_and_clean_property] and the tail of
    [run_scraper] (deduplicate by url, drop junk names, verify); then
    [parse_possession], [_year_from_possession], the end of
    [scrape_99acres_list] and of [scrape_nobroker_list] (deduplicate, add
    the raw-HTML records), [ensure_sample_data] with the data [main]
    writes, [_nobroker_slug] and [extract_builder_from_title].

    Python values are modelled as follows.
    - [str] is a list of characters ([text]), and the model is that of
      ASCII text ([isascii]): on it the character predicates of Python
      ([str.isspace], the classes [\s] and [\d], [str.lower], the case
      folding of [re.I]), [len] and the slices are those of this file.  A
      character beyond ASCII stands as the bytes of its UTF-8 encoding (the
      rupee sign is three of them): comparing, searching and copying text
      go the same way on them, counting and classifying characters do
      not.  The statements that depend on a count or on a class of
      characters are made for ASCII text.
    - [float] is an IEEE-754 binary64 number ([spec_float] with precision 53
      and maximal exponent 1024), with the correctly rounded operations of
      the Standard Library; [int] is [Z].
    - a [dict] used as a record is a Rocq record whose fields hold the values
      the pipeline stores under each key ([None] for a missing key, as
      [dict.get] returns). *)

From Stdlib Require Import ZArith List Ascii String Bool Lia.
From Stdlib Require Import SpecFloat DecimalString DecimalN.
From stdpp Require Import base gmap sets list strings.
Import ListNotations.

Local Open Scope Z_scope.

(** ** Text *)

Definition text := list ascii.

Definition txt (s : string) : text := list_ascii_of_string s.
Arguments txt s%_string.

Definition code (c : ascii) : N := N_of_ascii c.

(** [str.isspace] on ASCII: TAB..CR, FS..US and the space itself; the
    regular-expression class [\s] is the same set.  (Python knows more
    whitespace beyond ASCII, the no-break space for one.) *)
Definition is_space (c : ascii) : bool :=
  ((9 <=? code c) && (code c <=? 13) || (28 <=? code c) && (code c <=? 32))%N.

(** The class [\d] on ASCII.  (Beyond ASCII Python also takes the decimal
    digits of other scripts.) *)
Definition is_digit (c : ascii) : bool :=
  ((48 <=? code c) && (code c <=? 57))%N.

Definition is_upper (c : ascii) : bool :=
  ((65 <=? code c) && (code c <=? 90))%N.

Definition is_alnum (c : ascii) : bool :=
  is_digit c || is_upper c || ((97 <=? code c) && (code c <=? 122))%N.

Definition lower_char (c : ascii) : ascii :=
  if is_upper c then ascii_of_N (code c + 32) else c.

(** [s.lower()] on ASCII text *)
Definition lower (s : text) : text := map lower_char s.

Definition ceqb (a b : ascii) : bool := Ascii.eqb a b.

Fixpoint text_eqb (a b : text) : bool :=
  match a, b with
  | [], [] => true
  | x :: a', y :: b' => ceqb x y && text_eqb a' b'
  | _, _ => false
  end.

Fixpoint drop_while (p : ascii -> bool) (s : text) : text :=
  match s with
  | [] => []
  | c :: s' => if p c then drop_while p s' else s
  end.

Definition lstrip (s : text) : text := drop_while is_space s.
Definition rstrip (s : text) : text := rev (drop_while is_space (rev s)).

(** [s.strip()] *)
Definition strip (s : text) : text := rstrip (lstrip s).

(** Prefix test up to a character comparison. *)
Fixpoint prefix_by (eq : ascii -> ascii -> bool) (p s : text) : bool :=
  match p, s with
  | [], _ => true
  | x :: p', y :: s' => eq x y && prefix_by eq p' s'
  | _ :: _, [] => false
  end.

(** [s.startswith(p)] *)
Definition startswith (p s : text) : bool := prefix_by ceqb p s.

(** [p in s] *)
Fixpoint contains (p s : text) : bool :=
  startswith p s ||
  match s with
  | [] => false
  | _ :: s' => contains p s'
  end.

(** [s.replace(old, new)] for a non-empty [old]: leftmost occurrences,
    not overlapping.  [skip] counts the characters of an occurrence that
    are still to be dropped. *)
Fixpoint replace_from (eq : ascii -> ascii -> bool) (old new : text)
    (skip : nat) (s : text) : text :=
  match s with
  | [] => []
  | c :: s' =>
      match skip with
      | S n => replace_from eq old new n s'
      | O =>
          if prefix_by eq old s
          then new ++ replace_from eq old new (Nat.pred (length old)) s'
          else c :: replace_from eq old new O s'
      end
  end.

Definition replace (old new s : text) : text := replace_from ceqb old new O s.

(** [re.sub(re.escape(old), new, s, flags=re.I)] for a non-empty literal. *)
Definition ceqb_ci (a b : ascii) : bool := ceqb (lower_char a) (lower_char b).
Definition sub_ci (old new s : text) : text := replace_from ceqb_ci old new O s.

(** [re.sub(r"\s+", " ", s)]: every maximal run of whitespace becomes one
    space.  [in_ws] tells that the previous character was whitespace. *)
Fixpoint collapse_from (in_ws : bool) (s : text) : text :=
  match s with
  | [] => []
  | c :: s' =>
      if is_space c
      then (if in_ws then collapse_from true s' else " "%char :: collapse_from true s')
      else c :: collapse_from false s'
  end.

Definition collapse_ws (s : text) : text := collapse_from false s.

(** [s[-n:]] for [n > 0] *)
Definition last_n (n : nat) (s : text) : text := drop (length s - n)%nat s.

Definition is_empty (s : text) : bool :=
  match s with [] => true | _ => false end.

(** [s.isascii()]: every character lies in the ASCII range.  On such text
    the character classes, [str.lower], the lengths and the slices of this
    model are those of Python; statements that depend on them beyond that
    range carry this test as a hypothesis. *)
Definition is_ascii (c : ascii) : bool := (code c <? 128)%N.
Definition isascii (s : text) : bool := forallb is_ascii s.

(** The same for a value that is a [str] or [None]. *)
Definition isascii_field (v : option text) : bool :=
  match v with
  | Some s => isascii s
  | None => true
  end.

(** ** Numbers *)

(** Python's [float]: binary64. *)
Definition float := spec_float.

Definition fmul : float -> float -> float := SFmul 53 1024.
Definition fdiv : float -> float -> float := SFdiv 53 1024.

(** [float(z)] for an [int]: the nearest binary64, ties to even. *)
Definition float_of_Z (z : Z) : float := binary_normalize 53 1024 z 0 false.

(** A numeric value held in a record: [int] or [float]. *)
Inductive num :=
| NInt (z : Z)
| NFloat (f : float).

(** The exact value of a number that is not a NaN: an infinity or
    [m * 2^e]. *)
Inductive xval :=
| XNegInf
| XFin (m e : Z)
| XPosInf.

Definition xval_of_float (f : float) : option xval :=
  match f with
  | S754_zero _ => Some (XFin 0 0)
  | S754_infinity s => Some (if s then XNegInf else XPosInf)
  | S754_nan => None
  | S754_finite s m e => Some (XFin (if s then Z.neg m else Z.pos m) e)
  end.

Definition xval_of_num (n : num) : option xval :=
  match n with
  | NInt z => Some (XFin z 0)
  | NFloat f => xval_of_float f
  end.

Definition xcompare (a b : xval) : comparison :=
  match a, b with
  | XNegInf, XNegInf => Eq
  | XNegInf, _ => Lt
  | _, XNegInf => Gt
  | XPosInf, XPosInf => Eq
  | XPosInf, _ => Gt
  | _, XPosInf => Lt
  | XFin m1 e1, XFin m2 e2 =>
      let e := Z.min e1 e2 in
      (m1 * 2 ^ (e1 - e) ?= m2 * 2 ^ (e2 - e))
  end.

(** Python compares [int] and [float] by exact value; any comparison with
    a NaN is false ([None] here). *)
Definition py_compare (a b : num) : option comparison :=
  match xval_of_num a, xval_of_num b with
  | Some x, Some y => Some (xcompare x y)
  | _, _ => None
  end.

Definition py_lt (a b : num) : bool :=
  match py_compare a b with Some Lt => true | _ => false end.
Definition py_gt (a b : num) : bool :=
  match py_compare a b with Some Gt => true | _ => false end.
Definition py_le (a b : num) : bool :=
  match py_compare a b with Some Lt | Some Eq => true | _ => false end.
Definition py_ge (a b : num) : bool :=
  match py_compare a b with Some Gt | Some Eq => true | _ => false end.

Definition is_nan (n : num) : bool :=
  match n with NFloat S754_nan => true | _ => false end.

(** Decimal digits of a natural number. *)
Definition dec_of_N (n : N) : text :=
  txt (NilZero.string_of_uint (N.to_uint n)).

Definition digit_char (d : Z) : ascii := ascii_of_N (48 + Z.to_N d).

(** The integer nearest to [m * 100 * 2^e], ties to even. *)
Definition round_hundredths (m : positive) (e : Z) : Z :=
  if 0 <=? e then Z.pos m * 100 * 2 ^ e
  else
    let d := 2 ^ (- e) in
    let n := Z.pos m * 100 in
    let q := n / d in
    match (2 * (n mod d) ?= d) with
    | Lt => q
    | Gt => q + 1
    | Eq => if Z.even q then q else q + 1
    end.

Definition sign_text (s : bool) : text := if s then txt "-" else [].

(** [f"{x:.2f}"] for a float [x]: the exact binary value rounded to two
    decimals, ties to even. *)
Definition format_2f_float (f : float) : text :=
  match f with
  | S754_nan => txt "nan"
  | S754_infinity s => sign_text s ++ txt "inf"
  | S754_zero s => sign_text s ++ txt "0.00"
  | S754_finite s m e =>
      let q := round_hundredths m e in
      sign_text s ++ dec_of_N (Z.to_N (q / 100)) ++ txt "." ++
      [digit_char (q mod 100 / 10); digit_char (q mod 10)]
  end.

(** [f"{x:.2f}"] for a number: an [int] is converted to [float] first.
    (Python raises [OverflowError] for an [int] beyond the binary64 range;
    the conversion here saturates to infinity.) *)
Definition format_2f (x : num) : text :=
  match x with
  | NInt z => format_2f_float (float_of_Z z)
  | NFloat f => format_2f_float f
  end.

Definition hundred : float := float_of_Z 100.

(** [x / 100]: true division; for an [int] the exact quotient is rounded
    once. *)
Definition div100 (x : num) : float :=
  match x with
  | NInt 0 => S754_zero false
  | NInt (Z.pos p) => fdiv (S754_finite false p 0) hundred
  | NInt (Z.neg p) => fdiv (S754_finite true p 0) hundred
  | NFloat f => fdiv f hundred
  end.

(** ** [float(s)] and [int(s)] on text *)

(** After a digit: more digits, each optionally preceded by one
    underscore.  Returns the digits read and the rest. *)
Fixpoint digit_run (s : text) : list ascii * text :=
  match s with
  | [] => ([], [])
  | c :: s' =>
      if is_digit c then
        let '(ds, r) := digit_run s' in (c :: ds, r)
      else if ceqb c "_" then
        match s' with
        | d :: s'' =>
            if is_digit d then
              let '(ds, r) := digit_run s'' in (d :: ds, r)
            else ([], s)
        | [] => ([], s)
        end
      else ([], s)
  end.

(** digitpart ::= digit (["_"] digit)* *)
Definition digitpart (s : text) : option (list ascii * text) :=
  match s with
  | c :: s' =>
      if is_digit c then
        let '(ds, r) := digit_run s' in Some (c :: ds, r)
      else None
  | [] => None
  end.

Definition digit_val (c : ascii) : Z := Z.of_N (code c) - 48.

Definition digits_val (ds : list ascii) : Z :=
  fold_left (fun acc c => acc * 10 + digit_val c) ds 0.

(** An optional sign: [true] for minus. *)
Definition read_sign (s : text) : bool * text :=
  match s with
  | c :: s' =>
      if ceqb c "-" then (true, s')
      else if ceqb c "+" then (false, s')
      else (false, s)
  | [] => (false, [])
  end.

(** The binary64 nearest to [n * 10^e], ties to even; overflow gives an
    infinity and underflow a zero, as in Python. *)
Definition float_of_decimal (sign : bool) (n : Z) (e : Z) : float :=
  match n with
  | Z.pos p =>
      match e with
      | Z.neg k => fdiv (S754_finite sign p 0) (S754_finite false (10 ^ k)%positive 0)
      | _ => binary_normalize 53 1024 (if sign then - (n * 10 ^ e) else n * 10 ^ e) 0 false
      end
  | _ => S754_zero sign
  end.

(** The exponent part: [e], an optional sign, a digitpart; nothing else
    may follow. *)
Definition read_exponent (s : text) : option Z :=
  match s with
  | [] => Some 0
  | c :: s' =>
      if ceqb (lower_char c) "e" then
        let '(neg, s'') := read_sign s' in
        match digitpart s'' with
        | Some (ds, []) => Some (if neg then - digits_val ds else digits_val ds)
        | _ => None
        end
      else None
  end.

(** The unsigned decimal forms [ddd], [ddd.], [ddd.ddd], [.ddd], each with
    an optional exponent. *)
Definition read_decimal (sign : bool) (s : text) : option float :=
  match digitpart s with
  | Some (ip, r) =>
      match r with
      | c :: r' =>
          if ceqb c "." then
            match digitpart r' with
            | Some (fp, r'') =>
                match read_exponent r'' with
                | Some e => Some (float_of_decimal sign (digits_val (ip ++ fp))
                                    (e - Z.of_nat (length fp)))
                | None => None
                end
            | None =>
                match read_exponent r' with
                | Some e => Some (float_of_decimal sign (digits_val ip) e)
                | None => None
                end
            end
          else
            match read_exponent r with
            | Some e => Some (float_of_decimal sign (digits_val ip) e)
            | None => None
            end
      | [] => Some (float_of_decimal sign (digits_val ip) 0)
      end
  | None =>
      match s with
      | c :: r' =>
          if ceqb c "." then
            match digitpart r' with
            | Some (fp, r'') =>
                match read_exponent r'' with
                | Some e => Some (float_of_decimal sign (digits_val fp)
                                    (e - Z.of_nat (length fp)))
                | None => None
                end
            | None => None
            end
          else None
      | [] => None
      end
  end.

(** [float(s)] for a [str]: [None] stands for [ValueError]. *)
Definition py_float (s : text) : option float :=
  let '(sign, body) := read_sign (strip s) in
  let low := lower body in
  if text_eqb low (txt "inf") || text_eqb low (txt "infinity")
  then Some (S754_infinity sign)
  else if text_eqb low (txt "nan") then Some S754_nan
  else read_decimal sign body.

(** [int(s)] for a [str], base 10: [None] stands for [ValueError]. *)
Definition py_int (s : text) : option Z :=
  let '(neg, body) := read_sign (strip s) in
  match digitpart body with
  | Some (ds, []) => Some (if neg then - digits_val ds else digits_val ds)
  | _ => None
  end.

(** ** Regular expressions

    The fragment of Python's [re] the price parser uses, matched the way
    [re] does: by backtracking, the leftmost start first, greedy operators
    trying the longest repetition first, alternatives from left to right.
    All patterns are compiled with [re.I]. *)

Inductive regex :=
| Eps
| Chr (c : ascii)               (* a literal character, case-insensitive *)
| Cls (p : ascii -> bool)        (* one character of a class *)
| Star (p : ascii -> bool)       (* class*, greedy *)
| Plus (p : ascii -> bool)       (* class+, greedy *)
| Seq (r1 r2 : regex)
| Alt (r1 r2 : regex)
| Opt (r : regex)                (* r?, greedy *)
| Grp (i : nat) (r : regex).     (* capturing group number i *)

(** Captured groups, the most recent binding first. *)
Definition captures := list (nat * text).

Fixpoint group (caps : captures) (i : nat) : text :=
  match caps with
  | [] => []
  | (j, v) :: caps' => if Nat.eqb i j then v else group caps' i
  end.

(** What was consumed between the input [s] and its suffix [s']. *)
Definition consumed (s s' : text) : text := take (length s - length s')%nat s.

Section Matcher.
Context {A : Type}.

(** Greedy repetition of a class: the longest run first, then shorter
    ones on backtracking. *)
Fixpoint star_match (p : ascii -> bool) (s : text) (k : text -> option A)
    : option A :=
  match s with
  | [] => k []
  | c :: s' =>
      if p c then
        match star_match p s' k with
        | Some a => Some a
        | None => k s
        end
      else k s
  end.

(** [rmatch r s caps k]: match [r] at the head of [s], then continue
    with [k] on the rest; [None] when every alternative fails. *)
Fixpoint rmatch (r : regex) (s : text) (caps : captures)
    (k : text -> captures -> option A) : option A :=
  match r with
  | Eps => k s caps
  | Chr c =>
      match s with
      | x :: s' => if ceqb_ci c x then k s' caps else None
      | [] => None
      end
  | Cls p =>
      match s with
      | x :: s' => if p x then k s' caps else None
      | [] => None
      end
  | Star p => star_match p s (fun s' => k s' caps)
  | Plus p =>
      match s with
      | x :: s' => if p x then star_match p s' (fun s'' => k s'' caps) else None
      | [] => None
      end
  | Seq r1 r2 => rmatch r1 s caps (fun s' caps' => rmatch r2 s' caps' k)
  | Alt r1 r2 =>
      match rmatch r1 s caps k with
      | Some a => Some a
      | None => rmatch r2 s caps k
      end
  | Opt r1 =>
      match rmatch r1 s caps k with
      | Some a => Some a
      | None => k s caps
      end
  | Grp i r1 =>
      rmatch r1 s caps (fun s' caps' => k s' ((i, consumed s s') :: caps'))
  end.
End Matcher.

(** [re.match]: the captures of a match at the head of [s]. *)
Definition match_here (r : regex) (s : text) : option captures :=
  rmatch r s [] (fun _ caps => Some caps).

(** [re.search]: the first start position that matches. *)
Fixpoint search (r : regex) (s : text) : option captures :=
  match match_here r s with
  | Some caps => Some caps
  | None =>
      match s with
      | [] => None
      | _ :: s' => search r s'
      end
  end.

(** A literal string. *)
Fixpoint lit (s : text) : regex :=
  match s with
  | [] => Eps
  | c :: s' => Seq (Chr c) (lit s')
  end.

Fixpoint seqs (rs : list regex) : regex :=
  match rs with
  | [] => Eps
  | [r] => r
  | r :: rs' => Seq r (seqs rs')
  end.

(** The class "[\d.]" *)
Definition is_numch (c : ascii) : bool := is_digit c || ceqb c ".".

(** "([\d.]+)" as group [i] *)
Definition number (i : nat) : regex := Grp i (Plus is_numch).
(** "\s*" and "\s+" *)
Definition ws : regex := Star is_space.
Definition ws1 : regex := Plus is_space.
(** "(?:L|Lakh|Lac)" *)
Definition lakh_unit : regex :=
  Alt (lit (txt "L")) (Alt (lit (txt "Lakh")) (lit (txt "Lac"))).
(** "Cr" *)
Definition crore_unit : regex := lit (txt "Cr").

(** The six patterns of [parse_price_range], in the order they are tried. *)

(** "([\d.]+)\s*-\s*([\d.]+)\s*Cr" *)
Definition re_cr_range : regex :=
  seqs [number 1; ws; Chr "-"; ws; number 2; ws; crore_unit].

(** "([\d.]+)\s*(?:L|Lakh|Lac)\s*-\s*([\d.]+)\s*(?:L|Lakh|Lac)" *)
Definition re_lakh_range : regex :=
  seqs [number 1; ws; lakh_unit; ws; Chr "-"; ws; number 2; ws; lakh_unit].

(** "([\d.]+)\s*(?:L|Lakh|Lac)\s*-\s*([\d.]+)\s*Cr" *)
Definition re_mixed_range : regex :=
  seqs [number 1; ws; lakh_unit; ws; Chr "-"; ws; number 2; ws; crore_unit].

(** "([\d.]+)\s*(?:lacs?|lakhs?|lac)\s+onwards?" *)
Definition re_lakh_onwards : regex :=
  seqs [number 1; ws;
        Alt (Seq (lit (txt "lac")) (Opt (Chr "s")))
          (Alt (Seq (lit (txt "lakh")) (Opt (Chr "s"))) (lit (txt "lac")));
        ws1; lit (txt "onward"); Opt (Chr "s")].

(** An optional "Starting\s+", an optional rupee sign with "\s*", then
    "([\d.]+)\s*Cr\s*" and an optional "onwards". *)
Definition re_cr_onwards : regex :=
  seqs [Opt (Seq (lit (txt "Starting")) ws1); Opt (Seq (lit (txt "₹")) ws);
        number 1; ws; crore_unit; ws; Opt (lit (txt "onwards"))].

(** "([\d.]+)\s*Cr" *)
Definition re_single_cr : regex := seqs [number 1; ws; crore_unit].

(** "([\d.]+)\s*(?:L|Lakh|Lac)" *)
Definition re_single_l : regex := seqs [number 1; ws; lakh_unit].

(** ** The price-range parser *)

Definition lt_float (a b : float) : bool := py_lt (NFloat a) (NFloat b).
Definition le_float (a b : float) : bool := py_le (NFloat a) (NFloat b).

Definition price_pair : Type := option float * option float.

(** Each branch gives [Some] result when it returns, and [None] when
    control falls through to the next branch (no match, a [ValueError]
    caught by the branch, or a failed sanity test). *)

Definition branch_cr_range (raw : text) : option price_pair :=
  match search re_cr_range raw with
  | Some m =>
      match py_float (group m 1), py_float (group m 2) with
      | Some low, Some high =>
          if le_float low high && lt_float high (float_of_Z 1000)
          then Some (Some (fmul low hundred), Some (fmul high hundred))
          else None
      | _, _ => None
      end
  | None => None
  end.

Definition branch_lakh_range (raw : text) : option price_pair :=
  match search re_lakh_range raw with
  | Some m =>
      match py_float (group m 1), py_float (group m 2) with
      | Some low, Some high =>
          if le_float low high && lt_float high (float_of_Z 10000)
          then Some (Some low, Some high)
          else None
      | _, _ => None
      end
  | None => None
  end.

Definition branch_mixed_range (raw : text) : option price_pair :=
  match search re_mixed_range raw with
  | Some m =>
      match py_float (group m 1), py_float (group m 2) with
      | Some low, Some y =>
          let high := fmul y hundred in
          if le_float low high then Some (Some low, Some high) else None
      | _, _ => None
      end
  | None => None
  end.

Definition branch_lakh_onwards (raw : text) : option price_pair :=
  match search re_lakh_onwards raw with
  | Some m =>
      match py_float (group m 1) with
      | Some n => if lt_float n (float_of_Z 10000) then Some (Some n, None) else None
      | None => None
      end
  | None => None
  end.

Definition branch_cr_onwards (raw : text) : option price_pair :=
  match search re_cr_onwards raw with
  | Some m =>
      match py_float (group m 1) with
      | Some x =>
          let n := fmul x hundred in
          if lt_float n (float_of_Z 10000) then Some (Some n, None) else None
      | None => None
      end
  | None => None
  end.

(** The last branch is one [try] block: a [ValueError] anywhere in it ends
    the function with [(None, None)]. *)
Definition branch_single (raw : text) : price_pair :=
  match search re_single_cr raw with
  | Some m =>
      match py_float (group m 1) with
      | Some x => let n := fmul x hundred in (Some n, Some n)
      | None => (None, None)
      end
  | None =>
      match search re_single_l raw with
      | Some m =>
          match py_float (group m 1) with
          | Some n =>
              if lt_float n (float_of_Z 10000) then (Some n, Some n) else (None, None)
          | None => (None, None)
          end
      | None => (None, None)
      end
  end.

Definition rupee : text := txt "₹".

Definition parse_price_range (t : text) : price_pair :=
  if is_empty t then (None, None)
  else
    let raw := strip (replace rupee [] (replace (txt ",") [] t)) in
    match branch_cr_range raw with
    | Some r => r
    | None =>
    match branch_lakh_range raw with
    | Some r => r
    | None =>
    match branch_mixed_range raw with
    | Some r => r
    | None =>
    match branch_lakh_onwards raw with
    | Some r => r
    | None =>
    match branch_cr_onwards raw with
    | Some r => r
    | None => branch_single raw
    end end end end end.

(** ** The junk filter *)

(** Names that are page titles or navigation links, not project names. *)
Definition JUNK_PROJECT_NAMES_list : list text :=
  [ txt "new launch projects in bangalore";
    txt "under construction projects in bangalore";
    txt "ready to move projects in bangalore";
    txt "new projects in bangalore";
    txt "projects in bangalore";
    txt "upcoming projects in bangalore";
    txt "new projects by reputed bangalore builders in bangalore";
    txt "ready to move & pre launch";
    txt "list"; txt "map"; txt "filter your search"; txt "reset"; txt "sort by";
    txt "find other projects matching your search nearby";
    txt "quick links";
    txt "bangalore" ].

Definition JUNK_PROJECT_NAMES : gset text := list_to_set JUNK_PROJECT_NAMES_list.

(** [_is_junk_project_name]; the length and the slice count characters,
    which on ASCII text are the elements of the list. *)
Definition _is_junk_project_name (name : text) : bool :=
  if is_empty name || (length name <? 4)%nat then true
  else
    let key := take 120 (lower (strip name)) in
    if bool_decide (key ∈ JUNK_PROJECT_NAMES) then true
    else if (contains (txt "projects in bangalore") key
             || contains (txt "projects in ") key && contains (txt "bangalore") key)
            && (startswith (txt "new ") key || startswith (txt "under ") key
                || startswith (txt "ready ") key || startswith (txt "upcoming ") key)
    then true
    else if contains (txt "by reputed") key && contains (txt "builders") key
            && contains (txt "bangalore") key
    then true
    else false.

(** ** The price display *)

(** The two renderings: crore notation when [max_p >= 100], lakh notation
    otherwise. *)
Definition price_text (min_p max_p : num) : text :=
  if py_ge max_p (NInt 100)
  then txt "₹ " ++ format_2f_float (div100 min_p) ++ txt " - "
       ++ format_2f_float (div100 max_p) ++ txt " Cr"
  else txt "₹ " ++ format_2f min_p ++ txt " - " ++ format_2f max_p ++ txt " L".

Definition _format_price_display (min_p max_p : option num) : text :=
  match min_p, max_p with
  | None, None => []
  | None, Some hi => price_text hi hi       (* min_p = max_p *)
  | Some lo, None => price_text lo lo       (* max_p = min_p *)
  | Some lo, Some hi => price_text lo hi
  end.

(** ** The verifier *)

(** Text that indicates navigation or filter controls. *)
Definition PROPERTY_JUNK_SUBSTRINGS : list text :=
  [ txt "filter your search"; txt "sort by"; txt "reset"; txt "list"; txt "map";
    txt "quick links"; txt "find other projects"; txt "next >>"; txt "<< prev";
    txt "bangalore, india"; txt "property list" ].

Definition PRICE_MAX_LAKHS : num := NInt 50000.
(** The literal [0.1]: the binary64 nearest to one tenth. *)
Definition PRICE_MIN_LAKHS : num := NFloat (fdiv (float_of_Z 1) (float_of_Z 10)).
Definition HANDOVER_YEAR_MIN : Z := 2020.
Definition HANDOVER_YEAR_MAX : Z := 2040.

(** One turn of the loop over the junk substrings. *)
Definition strip_junk (t junk : text) : text :=
  if contains junk (lower t)
  then strip (collapse_ws (sub_ci junk (txt " ") t))
  else t.

(** [_normalize_str(s, max_len)] on ASCII text; [None] stands for a
    missing or [None] value. *)
Definition _normalize_str (s : option text) (max_len : nat) : text :=
  match s with
  | None => []
  | Some s =>
      if is_empty s then []
      else
        let t := collapse_ws (strip s) in
        if is_empty t then []
        else take max_len (fold_left strip_junk PROPERTY_JUNK_SUBSTRINGS t)
  end.

(** A value stored under a price key: [None], an [int], a [float] or a
    [str]. *)
Inductive pyval :=
| VNone
| VInt (z : Z)
| VFloat (f : float)
| VStr (s : text).

(** A value stored under [handover_year]: [None], an [int] or a [str]. *)
Inductive yearval :=
| YNone
| YInt (z : Z)
| YStr (s : text).

(** A property record: the value under each key of the [dict].  The text
    keys hold a [str] or [None] ([None] also stands for a missing key, as
    [dict.get] makes no difference). *)
Record property := Property {
  pid : option text;               (* the key "id" *)
  source : option text;
  status : option text;
  name : option text;
  builder : option text;
  locality : option text;
  price_min_lakhs : pyval;
  price_max_lakhs : pyval;
  price_display : option text;
  handover : option text;
  handover_year : yearval;
  bhk : option text;
  url : option text
}.

(** [record.get(k) or ""] *)
Definition or_empty (v : option text) : text := default [] v.

(** The coercion of one price inside the [try] block: the outer [None]
    stands for a [ValueError]. *)
Definition coerce_price (v : pyval) : option (option num) :=
  match v with
  | VNone => Some None
  | VInt z => Some (Some (NInt z))
  | VFloat f => Some (Some (NFloat f))
  | VStr s =>
      if is_empty s then Some None
      else match py_float s with
           | Some f => Some (Some (NFloat f))
           | None => None
           end
  end.

(** The [try] block as a whole: an exception nulls both prices. *)
Definition coerce_prices (vmin vmax : pyval) : option num * option num :=
  match coerce_price vmin, coerce_price vmax with
  | Some a, Some b => (a, b)
  | _, _ => (None, None)
  end.

(** A price outside the sane bounds is nulled. *)
Definition bound_price (p : option num) : option num :=
  match p with
  | Some x => if py_lt x PRICE_MIN_LAKHS || py_gt x PRICE_MAX_LAKHS then None else Some x
  | None => None
  end.

(** An inverted pair is swapped. *)
Definition order_prices (pmin pmax : option num) : option num * option num :=
  match pmin, pmax with
  | Some a, Some b => if py_gt a b then (Some b, Some a) else (pmin, pmax)
  | _, _ => (pmin, pmax)
  end.

Definition clean_prices (vmin vmax : pyval) : option num * option num :=
  let '(pmin, pmax) := coerce_prices vmin vmax in
  order_prices (bound_price pmin) (bound_price pmax).

Definition val_of_num (p : option num) : pyval :=
  match p with
  | None => VNone
  | Some (NInt z) => VInt z
  | Some (NFloat f) => VFloat f
  end.

Definition bound_year (z : Z) : yearval :=
  if (z <? HANDOVER_YEAR_MIN) || (z >? HANDOVER_YEAR_MAX) then YNone else YInt z.

Definition clean_year (hy : yearval) : yearval :=
  match hy with
  | YNone => YNone
  | YInt z => bound_year z
  | YStr s => match py_int s with Some z => bound_year z | None => YNone end
  end.

Definition STATUSES : list text :=
  [txt "new_launch"; txt "under_construction"; txt "ready_to_move"].

Definition clean_status (v : option text) : text :=
  let s := lower (strip (or_empty v)) in
  if existsb (text_eqb s) STATUSES then s else txt "new_launch".

Definition clean_source (v : option text) : text :=
  let s := strip (or_empty v) in
  if is_empty s then txt "99acres" else s.

(** [(record.get("id") or "").strip() or re.sub(r"[^a-zA-Z0-9]", "", url)[-14:]] *)
Definition clean_id (v : option text) (url : text) : text :=
  let i := strip (or_empty v) in
  if is_empty i then last_n 14 (List.filter is_alnum url) else i.

(** The url of a record that passes the first test.  (The function first
    rejects an empty [dict]; an empty [dict] has no url, so this test
    rejects it as well.) *)
Definition checked_url (record : property) : option text :=
  let u := strip (or_empty (url record)) in
  if is_empty u || negb (contains (txt "http") u) then None else Some u.

(** The name of a record that passes the name test. *)
Definition checked_name (record : property) : option text :=
  let n := _normalize_str (name record) 200 in
  if is_empty n || _is_junk_project_name n then None else Some n.

(** [verify_and_clean_property]: the cleaned record, or [None]. *)
Definition verify_and_clean_property (record : property) : option property :=
  match checked_url record with
  | None => None
  | Some url' =>
  match checked_name record with
  | None => None
  | Some name' =>
      let builder' := _normalize_str (builder record) 100 in
      let locality' := _normalize_str (locality record) 150 in
      let handover' := _normalize_str (handover record) 50 in
      let bhk' := _normalize_str (bhk record) 30 in
      let price_display' := _normalize_str (price_display record) 80 in
      let '(pmin, pmax) :=
        clean_prices (price_min_lakhs record) (price_max_lakhs record) in
      let price_display'' :=
        match pmin, pmax with
        | None, None => price_display'
        | _, _ => _format_price_display pmin pmax
        end in
      Some {| pid := Some (clean_id (pid record) url');
              source := Some (clean_source (source record));
              status := Some (clean_status (status record));
              name := Some name';
              builder := Some builder';
              locality := Some locality';
              price_min_lakhs := val_of_num pmin;
              price_max_lakhs := val_of_num pmax;
              price_display := Some price_display'';
              handover := Some handover';
              handover_year := clean_year (handover_year record);
              bhk := Some bhk';
              url := Some url' |}
  end end.

(** ** The tail of [run_scraper] *)

(** One turn of the deduplication loop over [(seen_urls, unique)].  The
    key is the value under "url", which every extractor stores. *)
Definition dedup_step (st : gset (option text) * list property) (p : property)
    : gset (option text) * list property :=
  let '(seen_urls, unique) := st in
  if bool_decide (url p ∈ seen_urls) then st
  else ({[ url p ]} ∪ seen_urls, unique ++ [p]).

Definition dedup (all_properties : list property) : list property :=
  snd (fold_left dedup_step all_properties (∅, [])).

Definition not_junk (p : property) : bool :=
  negb (_is_junk_project_name (strip (or_empty (name p)))).

(** Deduplicate by url, drop junk names, verify and clean. *)
Definition finish (all_properties : list property) : list property :=
  omap verify_and_clean_property (List.filter not_junk (dedup all_properties)).

(** The number held by a price value of a cleaned record. *)
Definition num_of_val (v : pyval) : option num :=
  match v with
  | VInt z => Some (NInt z)
  | VFloat f => Some (NFloat f)
  | _ => None
  end.

(** ** The handover parsers *)

(** "[A-Za-z]" *)
Definition is_alpha (c : ascii) : bool :=
  is_upper c || ((97 <=? code c) && (code c <=? 122))%N.

Definition digit : regex := Cls is_digit.

(** "([A-Za-z]+\s+\d{4})" as group 1 *)
Definition month_year : regex :=
  Grp 1 (seqs [Plus is_alpha; ws1; digit; digit; digit; digit]).

(** An optional "Possession:?\s*", then the month and year. *)
Definition re_possession : regex :=
  seqs [Opt (seqs [lit (txt "Possession"); Opt (Chr ":"); ws]); month_year].

(** [parse_possession] on ASCII text: "Ready to move", a short
    month-and-year token, or [None]. *)
Definition parse_possession (t : text) : option text :=
  if is_empty t || is_empty (strip t) then None
  else
    let t := strip t in
    if contains (txt "ready to move") (lower t)
       || contains (txt "ready to move in") (lower t)
    then Some (txt "Ready to move")
    else
      match search re_possession t with
      | Some m => Some (strip (group m 1))
      | None => None
      end.

(** "\d{4}", the whole match as group 0 *)
Definition re_year : regex := Grp 0 (seqs [digit; digit; digit; digit]).

(** [_year_from_possession]: [None] stands for a missing or [None]
    argument.  The digits of a match are always read by [int], so no
    exception arises. *)
Definition _year_from_possession (possession : option text) : option Z :=
  match possession with
  | None => None
  | Some p =>
      if is_empty p || contains (txt "ready") (lower p) then None
      else
        match search re_year p with
        | Some m => py_int (group m 0)
        | None => None
        end
  end.

(** ** The tail of the listing scrapers *)

(** [scrape_99acres_list] and [scrape_nobroker_list] end alike: the
    records read off the cards are deduplicated by url; when fewer than
    [min_count] remain and the page is longer than [min_html] characters,
    the records of the raw-HTML extractor are added behind them under the
    same [seen] set. *)
Definition list_tail (min_count min_html : nat) (results : list property)
    (html_len : nat) (raw_list : list property) : list property :=
  let st := fold_left dedup_step results (∅, []) in
  if (length (snd st) <? min_count)%nat && (min_html <? html_len)%nat
  then snd (fold_left dedup_step raw_list st)
  else snd st.

Definition scrape_99acres_list_tail : list property -> nat -> list property -> list property :=
  list_tail 3 5000.
Definition scrape_nobroker_list_tail : list property -> nat -> list property -> list property :=
  list_tail 5 3000.

(** ** Sample data and the data [main] writes *)

Definition SAMPLE_DATA : list property :=
  [ {| pid := Some (txt "sample1"); source := Some (txt "99acres");
       status := Some (txt "new_launch");
       name := Some (txt "Folium by Sumadhura Phase 3");
       builder := Some (txt "Sumadhura");
       locality := Some (txt "Whitefield, Bangalore East");
       price_min_lakhs := VInt 230; price_max_lakhs := VInt 372;
       price_display := Some (txt "₹ 2.30 - 3.72 Cr");
       handover := Some (txt "Dec 2026"); handover_year := YInt 2026;
       bhk := Some (txt "3, 4");
       url := Some (txt "https://www.99acres.com/folium-by-sumadhura-phase-3-whitefield-bangalore-east-npxid-r420666") |};
    {| pid := Some (txt "sample2"); source := Some (txt "99acres");
       status := Some (txt "under_construction");
       name := Some (txt "Prestige Suncrest");
       builder := Some (txt "Prestige");
       locality := Some (txt "Electronic City, Bangalore South");
       price_min_lakhs := VInt 71; price_max_lakhs := VInt 211;
       price_display := Some (txt "₹ 71 - 2.11 Cr");
       handover := Some (txt "Sep 2028"); handover_year := YInt 2028;
       bhk := Some (txt "1, 2, 3");
       url := Some (txt "https://www.99acres.com/prestige-suncrest-electronic-city-bangalore-south-npxid-r439895") |};
    {| pid := Some (txt "sample3"); source := Some (txt "99acres");
       status := Some (txt "ready_to_move");
       name := Some (txt "Brigade El Dorado");
       builder := Some (txt "Brigade");
       locality := Some (txt "Bagalur, Bangalore North");
       price_min_lakhs := VInt 49; price_max_lakhs := VInt 177;
       price_display := Some (txt "₹ 49 L - 1.77 Cr");
       handover := Some (txt "Ready to move"); handover_year := YNone;
       bhk := Some (txt "1, 2, 3");
       url := Some (txt "https://www.99acres.com/brigade-el-dorado-bagalur-bangalore-north-npxid-r331133") |};
    {| pid := Some (txt "sample4"); source := Some (txt "99acres");
       status := Some (txt "new_launch");
       name := Some (txt "Sarang by Sumadhura");
       builder := Some (txt "Sumadhura");
       locality := Some (txt "Whitefield, Bangalore East");
       price_min_lakhs := VInt 173; price_max_lakhs := VInt 275;
       price_display := Some (txt "₹ 1.73 - 2.75 Cr");
       handover := Some (txt "Dec 2026"); handover_year := YInt 2026;
       bhk := Some (txt "3, 4");
       url := Some (txt "https://www.99acres.com/sarang-by-sumadhura-whitefield-bangalore-east-npxid-r411425") |};
    {| pid := Some (txt "sample5"); source := Some (txt "99acres");
       status := Some (txt "under_construction");
       name := Some (txt "Lodha Azur");
       builder := Some (txt "Lodha");
       locality := Some (txt "Bannerghatta Road, Bangalore South");
       price_min_lakhs := VInt 230; price_max_lakhs := VInt 360;
       price_display := Some (txt "₹ 2.3 - 3.6 Cr");
       handover := Some (txt "Apr 2028"); handover_year := YInt 2028;
       bhk := Some (txt "3, 4");
       url := Some (txt "https://www.99acres.com/lodha-azur-bannerghatta-road-bangalore-south-npxid-r424462") |} ].

(** [ensure_sample_data]: the samples stand in for an empty list. *)
Definition ensure_sample_data (properties : list property) : list property :=
  match properties with
  | [] => SAMPLE_DATA
  | _ => properties
  end.

(** The data [main] writes at its end, from the list [run_scraper]
    returned: the samples stand in for an empty list, every record is
    verified once more, and when none passes the samples are written as
    they are. *)
Definition main_data (scraped : list property) : list property :=
  let data := ensure_sample_data scraped in
  let data := omap verify_and_clean_property data in
  match data with
  | [] => ensure_sample_data []
  | _ => data
  end.

(** The checkpoint of [run_scraper] after the enrichment of the 99acres
    records (made with [--enrich] only): the verified records are written
    when there is one. *)
Definition checkpoint_write (unique : list property) : list (list property) :=
  match omap verify_and_clean_property unique with
  | [] => []
  | checkpoint => [checkpoint]
  end.

(** The lists that a run of [main] writes to the output file, in order:
    with [--clear] an empty list, before the scrape; the checkpoint, when
    [run_scraper] comes to it ([at_checkpoint] holds its records then); at
    the end the data. *)
Definition main_writes (do_clear : bool) (at_checkpoint : option (list property))
    (scraped : list property) : list (list property) :=
  (if do_clear then [[]] else [])
  ++ match at_checkpoint with
     | Some unique => checkpoint_write unique
     | None => []
     end
  ++ [main_data scraped].

(** ** Slugs and builder names *)

(** The class "[a-z0-9]" *)
Definition is_slug_char (c : ascii) : bool :=
  ((97 <=? code c) && (code c <=? 122))%N || is_digit c.

(** [re.sub(r"[^a-z0-9]+", "-", s)]: every maximal run of other characters
    becomes one hyphen.  [in_run] tells that the previous character was
    part of such a run. *)
Fixpoint hyphenate_from (in_run : bool) (s : text) : text :=
  match s with
  | [] => []
  | c :: s' =>
      if is_slug_char c then c :: hyphenate_from false s'
      else if in_run then hyphenate_from true s'
      else "-"%char :: hyphenate_from true s'
  end.

Definition hyphenate (s : text) : text := hyphenate_from false s.

Definition is_hyphen (c : ascii) : bool := ceqb c "-".

(** [s.strip("-")] *)
Definition strip_hyphens (s : text) : text :=
  rev (drop_while is_hyphen (rev (drop_while is_hyphen s))).

(** The class "." : any character but the newline. *)
Definition not_newline (c : ascii) : bool := negb (ceqb c "010").

(** A comma, "\s*", "Bangalore" and ".*", compiled with [re.I]. *)
Definition re_bangalore_tail : regex :=
  seqs [Chr ","; ws; lit (txt "Bangalore"); Star not_newline].

(** [re.sub(r, repl, s)] for a pattern that matches no empty text: the
    leftmost matches, not overlapping.  [skip] counts the characters of a
    match that are still to be dropped. *)
Fixpoint re_sub_from (r : regex) (repl : text) (skip : nat) (s : text) : text :=
  match s with
  | [] => []
  | c :: s' =>
      match skip with
      | S n => re_sub_from r repl n s'
      | O =>
          match match_here (Grp 0 r) s with
          | Some m => repl ++ re_sub_from r repl (Nat.pred (length (group m 0))) s'
          | None => c :: re_sub_from r repl O s'
          end
      end
  end.

Definition re_sub (r : regex) (repl s : text) : text := re_sub_from r repl O s.

(** [sep.join(parts)] *)
Fixpoint join (sep : text) (parts : list text) : text :=
  match parts with
  | [] => []
  | [p] => p
  | p :: ps => p ++ sep ++ join sep ps
  end.

(** [re.sub(r"[^a-z0-9]+", "-", s.lower()).strip("-")[:n]] *)
Definition slug_of (n : nat) (s : text) : text :=
  take n (strip_hyphens (hyphenate (lower s))).

(** [_nobroker_slug] *)
Definition _nobroker_slug (name locality : text) : text :=
  let parts := if is_empty name then [] else [slug_of 80 name] in
  let parts :=
    if is_empty locality then parts
    else
      let loc_clean := strip (re_sub re_bangalore_tail [] locality) in
      if is_empty loc_clean then parts else parts ++ [slug_of 50 loc_clean] in
  match parts with
  | [] => txt "project-bangalore"
  | _ => join (txt "-") parts ++ txt "-bangalore"
  end.

(** [s.split()]: the maximal runs of characters that are not whitespace.
    [word] holds the run being read. *)
Fixpoint split_from (word : text) (s : text) : list text :=
  match s with
  | [] => if is_empty word then [] else [word]
  | c :: s' =>
      if is_space c
      then (if is_empty word then split_from [] s' else word :: split_from [] s')
      else split_from (word ++ [c]) s'
  end.

Definition split (s : text) : list text := split_from [] s.

(** [extract_builder_from_title] on ASCII text: the first word of the
    title. *)
Definition extract_builder_from_title (title : text) : text :=
  if is_empty title then []
  else match split title with
       | w :: _ => w
       | [] => []
       end.


(** * Properties *)

(** ** The price display *)

Lemma price_text_not_empty lo hi : price_text lo hi <> [].
Proof. unfold price_text. destruct (py_ge hi (NInt 100)); discriminate. Qed.

Lemma num_of_val_of_num p : num_of_val (val_of_num p) = p.
Proof. destruct p as [[z|f]|]; reflexivity. Qed.

(** What the verifier returns, field by field. *)
Lemma verify_inv record r :
  verify_and_clean_property record = Some r ->
  exists url' name',
    checked_url record = Some url' /\ checked_name record = Some name' /\
    let pp := clean_prices (price_min_lakhs record) (price_max_lakhs record) in
    r = {| pid := Some (clean_id (pid record) url');
           source := Some (clean_source (source record));
           status := Some (clean_status (status record));
           name := Some name';
           builder := Some (_normalize_str (builder record) 100);
           locality := Some (_normalize_str (locality record) 150);
           price_min_lakhs := val_of_num (fst pp);
           price_max_lakhs := val_of_num (snd pp);
           price_display :=
             Some match fst pp, snd pp with
                  | None, None => _normalize_str (price_display record) 80
                  | _, _ => _format_price_display (fst pp) (snd pp)
                  end;
           handover := Some (_normalize_str (handover record) 50);
           handover_year := clean_year (handover_year record);
           bhk := Some (_normalize_str (bhk record) 30);
           url := Some url' |}.
Proof.
  unfold verify_and_clean_property.
  destruct (checked_url record) as [u|]; [|discriminate].
  destruct (checked_name record) as [n|]; [|discriminate].
  destruct (clean_prices _ _) as [pmin pmax]. simpl.
  intros [= <-]. exists u, n. auto.
Qed.

Definition sample_prestige : property :=
  {| pid := Some (txt "sample2"); source := Some (txt "99acres");
     status := Some (txt "under_construction");
     name := Some (txt "Prestige Suncrest"); builder := Some (txt "Prestige");
     locality := Some (txt "Electronic City, Bangalore South");
     price_min_lakhs := VInt 71; price_max_lakhs := VInt 211;
     price_display := Some (txt "₹ 71 - 2.11 Cr");
     handover := Some (txt "Sep 2028"); handover_year := YInt 2028;
     bhk := Some (txt "1, 2, 3");
     url := Some (txt "https://www.99acres.com/prestige-suncrest-electronic-city-bangalore-south-npxid-r439895") |}.

Definition sample_prestige_cleaned : property :=
  {| pid := Some (txt "sample2"); source := Some (txt "99acres");
     status := Some (txt "under_construction");
     name := Some (txt "Prestige Suncrest"); builder := Some (txt "Prestige");
     locality := Some (txt "Electronic City, Bangalore South");
     price_min_lakhs := VInt 71; price_max_lakhs := VInt 211;
     price_display := Some (txt "₹ 0.71 - 2.11 Cr");
     handover := Some (txt "Sep 2028"); handover_year := YInt 2028;
     bhk := Some (txt "1, 2, 3");
     url := Some (txt "https://www.99acres.com/prestige-suncrest-electronic-city-bangalore-south-npxid-r439895") |}.

Example verify_sample_prestige :
  verify_and_clean_property sample_prestige = Some sample_prestige_cleaned.
Proof. vm_compute. reflexivity. Qed.

(** C1, as stated, fails: the pair (71, 211) has [max_p >= 100], so the code
    renders it in crore notation; the display is neither the lakh rendering
    of the pair nor does it contain "71 - 211".  The same holds for the
    floats 71.0 and 211.0 the parser produces. *)
Lemma format_71_211_is_not_lakh :
  _format_price_display (Some (NInt 71)) (Some (NInt 211)) = txt "₹ 0.71 - 2.11 Cr"
  /\ _format_price_display (Some (NInt 71)) (Some (NInt 211))
     <> txt "₹ 71.00 - 211.00 L"
  /\ contains (txt "71 - 211")
       (_format_price_display (Some (NInt 71)) (Some (NInt 211))) = false
  /\ _format_price_display (Some (NFloat (float_of_Z 71)))
       (Some (NFloat (float_of_Z 211))) = txt "₹ 0.71 - 2.11 Cr".
Proof.
  assert (E : _format_price_display (Some (NInt 71)) (Some (NInt 211))
              = txt "₹ 0.71 - 2.11 Cr") by (vm_compute; reflexivity).
  rewrite E. repeat split; try (vm_compute; reflexivity).
  vm_compute. discriminate.
Qed.

(** C1 (amended): the display of a cleaned record with a non-null price is
    [_format_price_display] of its numeric pair alone; for a pair of
    non-null prices the unit is keyed on the maximum, crore notation when
    [max_p >= 100] and lakh notation otherwise; so (71, 211) renders as
    "₹ 0.71 - 2.11 Cr" and (230, 372) as "₹ 2.30 - 3.72 Cr", both in crore
    notation. *)
Theorem price_display_regenerable :
  (forall record r,
      verify_and_clean_property record = Some r ->
      price_min_lakhs r <> VNone \/ price_max_lakhs r <> VNone ->
      price_display r
      = Some (_format_price_display (num_of_val (price_min_lakhs r))
                (num_of_val (price_max_lakhs r))))
  /\ (forall lo hi,
         _format_price_display (Some lo) (Some hi)
         = if py_ge hi (NInt 100)
           then txt "₹ " ++ format_2f_float (div100 lo) ++ txt " - "
                ++ format_2f_float (div100 hi) ++ txt " Cr"
           else txt "₹ " ++ format_2f lo ++ txt " - " ++ format_2f hi ++ txt " L")
  /\ _format_price_display (Some (NInt 71)) (Some (NInt 211)) = txt "₹ 0.71 - 2.11 Cr"
  /\ _format_price_display (Some (NInt 230)) (Some (NInt 372)) = txt "₹ 2.30 - 3.72 Cr".
Proof.
  split; [|split; [|split]].
  - intros record r Hv Hnn.
    destruct (verify_inv _ _ Hv) as (u & n & _ & _ & ->).
    cbn [price_min_lakhs price_max_lakhs price_display] in *.
    rewrite !num_of_val_of_num.
    destruct (clean_prices _ _) as [[a|] [b|]]; cbn [fst snd] in *; try reflexivity.
    destruct Hnn as [H|H]; exfalso; apply H; reflexivity.
  - intros lo hi. reflexivity.
  - vm_compute. reflexivity.
  - vm_compute. reflexivity.
Qed.

Lemma price_display_regenerable_witness :
  price_display sample_prestige_cleaned
  = Some (_format_price_display (Some (NInt 71)) (Some (NInt 211))).
Proof.
  apply (proj1 price_display_regenerable sample_prestige sample_prestige_cleaned).
  - vm_compute. reflexivity.
  - left. discriminate.
Defined.

(** *** What the two-decimal rendering denotes *)

(** The value of a decimal numeral, read digit by digit from [acc]. *)
Fixpoint uint_val (d : Decimal.uint) (acc : Z) : Z :=
  match d with
  | Decimal.Nil => acc
  | Decimal.D0 l => uint_val l (acc * 10 + 0)
  | Decimal.D1 l => uint_val l (acc * 10 + 1)
  | Decimal.D2 l => uint_val l (acc * 10 + 2)
  | Decimal.D3 l => uint_val l (acc * 10 + 3)
  | Decimal.D4 l => uint_val l (acc * 10 + 4)
  | Decimal.D5 l => uint_val l (acc * 10 + 5)
  | Decimal.D6 l => uint_val l (acc * 10 + 6)
  | Decimal.D7 l => uint_val l (acc * 10 + 7)
  | Decimal.D8 l => uint_val l (acc * 10 + 8)
  | Decimal.D9 l => uint_val l (acc * 10 + 9)
  end.

Lemma uint_val_acc d : forall acc,
  uint_val d (Z.pos acc) = Z.pos (Pos.of_uint_acc d acc).
Proof.
  induction d; intros acc; cbn [uint_val Pos.of_uint_acc]; [reflexivity|..];
    rewrite <- IHd; f_equal; lia.
Qed.

Lemma uint_val_of_uint d : uint_val d 0 = Z.of_N (Pos.of_uint d).
Proof.
  induction d; cbn [uint_val Pos.of_uint]; [reflexivity|exact IHd|..];
    cbn [Z.of_N]; rewrite <- uint_val_acc; reflexivity.
Qed.

Lemma digits_of_uint d : forall acc,
  fold_left (fun a c => a * 10 + digit_val c) (txt (NilEmpty.string_of_uint d)) acc
  = uint_val d acc.
Proof.
  induction d; intros acc; [reflexivity|..];
    cbn [NilEmpty.string_of_uint txt list_ascii_of_string fold_left uint_val];
    apply IHd.
Qed.

Lemma digits_of_uint_all d :
  forallb is_digit (txt (NilEmpty.string_of_uint d)) = true.
Proof.
  induction d; [reflexivity|..];
    cbn [NilEmpty.string_of_uint txt list_ascii_of_string forallb]; exact IHd.
Qed.

Lemma dec_of_N_digits n :
  dec_of_N n <> [] /\ forallb is_digit (dec_of_N n) = true
  /\ digits_val (dec_of_N n) = Z.of_N n.
Proof.
  unfold dec_of_N, digits_val.
  assert (E : uint_val (N.to_uint n) 0 = Z.of_N n).
  { rewrite uint_val_of_uint. change (Pos.of_uint (N.to_uint n)) with (N.of_uint (N.to_uint n)).
    rewrite DecimalN.Unsigned.of_to. reflexivity. }
  destruct (N.to_uint n) as [|d|d|d|d|d|d|d|d|d|d] eqn:Eu;
    unfold NilZero.string_of_uint;
    try (split; [discriminate|];
         split; [apply digits_of_uint_all|rewrite <- E; apply digits_of_uint]).
  split; [discriminate|]. split; [reflexivity|]. rewrite <- E. reflexivity.
Qed.

Lemma digit_char_digit d :
  0 <= d <= 9 -> is_digit (digit_char d) = true /\ digit_val (digit_char d) = d.
Proof.
  intros H.
  assert (C : d = 0 \/ d = 1 \/ d = 2 \/ d = 3 \/ d = 4 \/ d = 5 \/ d = 6
              \/ d = 7 \/ d = 8 \/ d = 9) by lia.
  repeat destruct C as [->|C]; try subst d; split; reflexivity.
Qed.

(** [q] is the integer nearest to [100 * m * 2^e], the even one of two at
    the same distance. *)
Definition nearest_hundredth (m : positive) (e q : Z) : Prop :=
  if 0 <=? e then q = Z.pos m * 100 * 2 ^ e
  else
    let d := 2 ^ (- e) in
    2 * Z.abs (Z.pos m * 100 - q * d) <= d
    /\ (2 * Z.abs (Z.pos m * 100 - q * d) = d -> Z.even q = true).

(** [R] is a numeral with two decimals that denotes [q] hundredths: digits,
    a point and two digits, which read together spell [q]. *)
Definition two_decimal_numeral (R : text) (q : Z) : Prop :=
  exists ip d1 d2,
    R = ip ++ txt "." ++ [d1; d2]
    /\ ip <> [] /\ forallb is_digit (ip ++ [d1; d2]) = true
    /\ digits_val (ip ++ [d1; d2]) = q.

(** What the format "%.2f" prints for a float: the hundredths nearest to
    its exact value, after the sign. *)
Definition renders_2f (f : float) (R : text) : Prop :=
  match f with
  | S754_nan => R = txt "nan"
  | S754_infinity s => R = sign_text s ++ txt "inf"
  | S754_zero s => R = sign_text s ++ txt "0.00"
  | S754_finite s m e =>
      exists q N,
        nearest_hundredth m e q /\ two_decimal_numeral N q
        /\ R = sign_text s ++ N
  end.

Lemma round_hundredths_nearest m e :
  nearest_hundredth m e (round_hundredths m e) /\ 0 <= round_hundredths m e.
Proof.
  unfold nearest_hundredth, round_hundredths.
  destruct (0 <=? e) eqn:E.
  - split; [reflexivity|]. apply Z.leb_le in E.
    assert (0 < 2 ^ e) by (apply Z.pow_pos_nonneg; lia). nia.
  - apply Z.leb_gt in E. cbv zeta.
    set (d := 2 ^ (- e)). set (n := Z.pos m * 100).
    assert (Hd : 0 < d) by (apply Z.pow_pos_nonneg; lia).
    assert (Hn : 0 <= n) by (unfold n; lia).
    pose proof (Z.div_mod n d ltac:(lia)) as Hdm.
    pose proof (Z.mod_pos_bound n d Hd) as Hr.
    pose proof (Z.div_pos n d Hn Hd) as Hq.
    set (q := n / d) in *. set (r := n mod d) in *.
    destruct (2 * r ?= d) eqn:C.
    + apply Z.compare_eq in C. destruct (Z.even q) eqn:Ev.
      * split; [|lia]. split; [|auto]. nia.
      * split; [|lia]. split; [nia|]. intros _.
        rewrite Z.even_add, Ev. reflexivity.
    + rewrite Z.compare_lt_iff in C. split; [|lia]. split; [nia|]. nia.
    + rewrite Z.compare_gt_iff in C. split; [|lia]. split; [nia|]. nia.
Qed.

Lemma two_decimals_numeral q :
  0 <= q ->
  two_decimal_numeral
    (dec_of_N (Z.to_N (q / 100)) ++ txt "." ++
     [digit_char (q mod 100 / 10); digit_char (q mod 10)]) q.
Proof.
  intros Hq.
  destruct (dec_of_N_digits (Z.to_N (q / 100))) as (Hne & Hdig & Hval).
  assert (H1 : 0 <= q mod 100 / 10 <= 9).
  { pose proof (Z.mod_pos_bound q 100 ltac:(lia)).
    split; [apply Z.div_pos; lia|].
    assert (q mod 100 / 10 < 10) by (apply Z.div_lt_upper_bound; lia). lia. }
  assert (H2 : 0 <= q mod 10 <= 9) by (pose proof (Z.mod_pos_bound q 10 ltac:(lia)); lia).
  destruct (digit_char_digit _ H1) as [D1 V1], (digit_char_digit _ H2) as [D2 V2].
  exists (dec_of_N (Z.to_N (q / 100))), (digit_char (q mod 100 / 10)),
    (digit_char (q mod 10)).
  split; [reflexivity|]. split; [exact Hne|]. split.
  - rewrite forallb_app, Hdig. cbn [forallb]. rewrite D1, D2. reflexivity.
  - unfold digits_val in *. rewrite fold_left_app, Hval. cbn [fold_left].
    rewrite V1, V2, Z2N.id by (apply Z.div_pos; lia).
    pose proof (Z.div_mod q 100 ltac:(lia)).
    pose proof (Z.div_mod (q mod 100) 10 ltac:(lia)).
    assert (q mod 100 mod 10 = q mod 10).
    { apply Z.mod_mod_divide. exists 10. reflexivity. }
    lia.
Qed.

Lemma renders_format f : renders_2f f (format_2f_float f).
Proof.
  destruct f as [s|s| |s m e]; cbn [renders_2f format_2f_float]; try reflexivity.
  destruct (round_hundredths_nearest m e) as [Hn Hq].
  exists (round_hundredths m e). eexists. split; [exact Hn|].
  split; [apply two_decimals_numeral; exact Hq|reflexivity].
Qed.

(** The float that the format is applied to. *)
Definition float_of_num (x : num) : float :=
  match x with
  | NInt z => float_of_Z z
  | NFloat f => f
  end.

(** C10: when exactly one end of the pair is null, the other stands in for
    it, so the display is the degenerate range "R - R" of that value with
    itself: in crore notation, [R] rendering the value divided by 100, when
    the value is at least 100, and in lakh notation, [R] rendering the
    value, otherwise.  [R] is the numeral with two decimals nearest to the
    number it renders.  The display is empty exactly when both ends are
    null. *)
Theorem format_price_display_one_sided :
  (forall x,
      _format_price_display (Some x) None = _format_price_display (Some x) (Some x)
      /\ _format_price_display None (Some x) = _format_price_display (Some x) (Some x)
      /\ exists R,
           renders_2f (if py_ge x (NInt 100) then div100 x else float_of_num x) R
           /\ _format_price_display (Some x) None
              = txt "₹ " ++ R ++ txt " - " ++ R
                ++ (if py_ge x (NInt 100) then txt " Cr" else txt " L")
           /\ _format_price_display None (Some x)
              = txt "₹ " ++ R ++ txt " - " ++ R
                ++ (if py_ge x (NInt 100) then txt " Cr" else txt " L"))
  /\ (forall min_p max_p,
         _format_price_display min_p max_p = [] <-> min_p = None /\ max_p = None).
Proof.
  split.
  - intros x. split; [reflexivity|]. split; [reflexivity|].
    cbn [_format_price_display]. unfold price_text.
    destruct (py_ge x (NInt 100)).
    + exists (format_2f_float (div100 x)). split; [apply renders_format|].
      split; reflexivity.
    + exists (format_2f x). split; [|split; reflexivity].
      destruct x; apply renders_format.
  - intros [a|] [b|]; cbn [_format_price_display]; split;
      try (intros H; exfalso; exact (price_text_not_empty _ _ H));
      try (intros [? ?]; discriminate); auto.
Qed.

Lemma format_price_display_one_sided_witness :
  exists R,
    renders_2f (div100 (NInt 120)) R
    /\ _format_price_display (Some (NInt 120)) None
       = txt "₹ " ++ R ++ txt " - " ++ R ++ txt " Cr"
    /\ _format_price_display None (Some (NInt 120))
       = txt "₹ " ++ R ++ txt " - " ++ R ++ txt " Cr".
Proof.
  exact (proj2 (proj2 (proj1 format_price_display_one_sided (NInt 120)))).
Defined.

Example format_min_only :
  _format_price_display (Some (NFloat (float_of_Z 50))) None = txt "₹ 50.00 - 50.00 L"
  /\ _format_price_display None (Some (NFloat (float_of_Z 120))) = txt "₹ 1.20 - 1.20 Cr".
Proof. split; vm_compute; reflexivity. Qed.

(** ** The price-range parser on a bare crore value *)

(** C2: the claim is violated by the last branch.  On "99999 Cr" the branch
    for "X Cr onwards" matches and skips the value because it is not below
    10000 lakhs; the fallback for a single "X Cr" then returns the same
    value with no bound test, although its sibling for a single "X L" has
    one.  The parser returns (9999900.0, 9999900.0), far above
    [PRICE_MAX_LAKHS]. *)
Theorem parse_bare_crore_out_of_bounds :
  let n := float_of_Z 9999900 in
  parse_price_range (txt "99999 Cr") = (Some n, Some n)
  /\ branch_cr_onwards (txt "99999 Cr") = None
  /\ lt_float n (float_of_Z 10000) = false
  /\ py_gt (NFloat n) PRICE_MAX_LAKHS = true
  /\ parse_price_range (txt "99999 L") = (None, None).
Proof. vm_compute. repeat split; reflexivity. Qed.

(** The mixed-range branch has no ceiling either. *)
Example parse_mixed_no_ceiling :
  parse_price_range (txt "5 L - 99999 Cr")
  = (Some (float_of_Z 5), Some (float_of_Z 9999900)).
Proof. vm_compute. reflexivity. Qed.

(** ** The url test of the verifier *)

Lemma contains_nil_r p : contains p [] = true -> p = [].
Proof. destruct p; [reflexivity | discriminate]. Qed.

Lemma prefix_by_ceqb_app p s :
  prefix_by ceqb p s = true -> exists post, s = p ++ post.
Proof.
  revert s. induction p as [|x p IH]; intros s H; [exists s; reflexivity|].
  destruct s as [|y s]; [discriminate|]. cbn in H.
  apply andb_true_iff in H as [H1 H2]. apply Ascii.eqb_eq in H1. subst y.
  destruct (IH _ H2) as [post ->]. exists post. reflexivity.
Qed.

(** [p in s] gives an occurrence of [p] in [s]. *)
Lemma contains_occurrence p s :
  contains p s = true -> exists pre post, s = pre ++ p ++ post.
Proof.
  induction s as [|c s IH]; cbn [contains]; intros H.
  - apply orb_true_iff in H as [H|H]; [|discriminate].
    apply prefix_by_ceqb_app in H as [post ->]. exists [], post. reflexivity.
  - apply orb_true_iff in H as [H|H].
    + apply prefix_by_ceqb_app in H as [post ->]. exists [], post. reflexivity.
    + destruct (IH H) as (pre & post & ->). exists (c :: pre), post. reflexivity.
Qed.

Lemma prefix_by_app_l eq (p q s : text) :
  prefix_by eq (p ++ q) s = true -> prefix_by eq p s = true.
Proof.
  revert s. induction p as [|x p IH]; intros s H; [reflexivity|].
  destruct s as [|y s]; [discriminate|]. cbn [app prefix_by] in *.
  apply andb_true_iff in H as [H1 H2]. rewrite H1, (IH _ H2). reflexivity.
Qed.

(** A url that starts with a scheme name (a letter, then letters, digits,
    "+", "-" or "."), followed by "://". *)
Definition is_scheme_char (c : ascii) : bool :=
  is_alnum c || ceqb c "+" || ceqb c "-" || ceqb c ".".

Fixpoint scheme_rest (s : text) : bool :=
  match s with
  | [] => false
  | c :: s' => if is_scheme_char c then scheme_rest s' else startswith (txt "://") s
  end.

Definition has_scheme (u : text) : bool :=
  match u with
  | c :: s => is_alpha c && scheme_rest s
  | [] => false
  end.

(** A url that starts with "http://" or "https://", in lowercase. *)
Definition http_scheme (u : text) : bool :=
  startswith (txt "http://") u || startswith (txt "https://") u.

Definition record_of_url (u : text) : property :=
  {| pid := None; source := None; status := None;
     name := Some (txt "Prestige Suncrest"); builder := None; locality := None;
     price_min_lakhs := VNone; price_max_lakhs := VNone; price_display := None;
     handover := None; handover_year := YNone; bhk := None;
     url := Some u |}.

(** C9, as stated, fails in both directions: the test of the verifier is
    not for a scheme but for the lowercase text "http" anywhere in the
    url.  A url without a scheme that holds "http" in its path is
    accepted, and urls with the schemes "HTTPS" (in capitals) and "ftp" are
    rejected. *)
Lemma url_gate_not_a_scheme_test :
  has_scheme (txt "www.99acres.com/http-guide") = false
  /\ verify_and_clean_property (record_of_url (txt "www.99acres.com/http-guide")) <> None
  /\ has_scheme (txt "HTTPS://X.COM/A") = true
  /\ verify_and_clean_property (record_of_url (txt "HTTPS://X.COM/A")) = None
  /\ has_scheme (txt "ftp://x.com/a") = true
  /\ verify_and_clean_property (record_of_url (txt "ftp://x.com/a")) = None.
Proof. vm_compute. repeat split; discriminate. Qed.

(** C9 (amended): a record whose url is empty after trimming, or does not
    hold the lowercase text "http", is rejected; a record whose trimmed
    url holds it passes this test and can then only be rejected by the
    name test.  So every url that starts with "http://" or "https://" in
    lowercase passes, and the url of every accepted record reads
    ... http ... *)
Theorem verify_url_gate (record : property) :
  let u := strip (or_empty (url record)) in
  (u = [] \/ contains (txt "http") u = false ->
   verify_and_clean_property record = None)
  /\ (contains (txt "http") u = true ->
      checked_url record = Some u
      /\ (verify_and_clean_property record = None <-> checked_name record = None))
  /\ (http_scheme u = true ->
      checked_url record = Some u
      /\ (verify_and_clean_property record = None <-> checked_name record = None))
  /\ (verify_and_clean_property record <> None ->
      exists pre post, u = pre ++ txt "http" ++ post).
Proof.
  cbv zeta. unfold verify_and_clean_property, checked_url.
  set (u := strip (or_empty (url record))).
  assert (Hpass : contains (txt "http") u = true ->
            (if is_empty u || negb (contains (txt "http") u) then None else Some u)
            = Some u
            /\ (match (if is_empty u || negb (contains (txt "http") u)
                       then None else Some u) with
                | None => None
                | Some url' =>
                    match checked_name record with
                    | None => None
                    | Some name' =>
                        let '(pmin, pmax) :=
                          clean_prices (price_min_lakhs record) (price_max_lakhs record) in
                        Some {| pid := Some (clean_id (pid record) url');
                                source := Some (clean_source (source record));
                                status := Some (clean_status (status record));
                                name := Some name';
                                builder := Some (_normalize_str (builder record) 100);
                                locality := Some (_normalize_str (locality record) 150);
                                price_min_lakhs := val_of_num pmin;
                                price_max_lakhs := val_of_num pmax;
                                price_display :=
                                  Some match pmin, pmax with
                                       | None, None => _normalize_str (price_display record) 80
                                       | _, _ => _format_price_display pmin pmax
                                       end;
                                handover := Some (_normalize_str (handover record) 50);
                                handover_year := clean_year (handover_year record);
                                bhk := Some (_normalize_str (bhk record) 30);
                                url := Some url' |}
                    end
                end = None <-> checked_name record = None)).
  { intros E. rewrite E.
    assert (En : is_empty u = false).
    { destruct u; [|reflexivity]. vm_compute in E. discriminate. }
    rewrite En. cbn [orb negb]. split; [reflexivity|].
    destruct (checked_name record); [|tauto].
    destruct (clean_prices _ _). split; discriminate. }
  split; [|split; [|split]].
  - intros [E|E]; rewrite E; [reflexivity|].
    rewrite orb_true_r. reflexivity.
  - exact Hpass.
  - intros H. apply Hpass. unfold http_scheme, startswith in H.
    destruct u as [|c u']; [vm_compute in H; discriminate|].
    cbn [contains]. apply orb_true_iff. left. unfold startswith.
    apply orb_true_iff in H as [H|H].
    + apply (prefix_by_app_l ceqb (txt "http") (txt "://")). exact H.
    + apply (prefix_by_app_l ceqb (txt "http") (txt "s://")). exact H.
  - intros H. apply contains_occurrence.
    destruct (contains (txt "http") u); [reflexivity|].
    rewrite orb_true_r in H. contradiction.
Qed.

Definition no_scheme_record : property :=
  {| pid := None; source := None; status := None;
     name := Some (txt "Prestige Suncrest"); builder := None; locality := None;
     price_min_lakhs := VNone; price_max_lakhs := VNone; price_display := None;
     handover := None; handover_year := YNone; bhk := None;
     url := Some (txt "www.99acres.com/prestige-suncrest") |}.

Lemma verify_url_gate_witness :
  verify_and_clean_property no_scheme_record = None
  /\ checked_url sample_prestige = Some (strip (or_empty (url sample_prestige)))
  /\ (exists pre post,
        strip (or_empty (url sample_prestige)) = pre ++ txt "http" ++ post).
Proof.
  split; [|split].
  - apply (proj1 (verify_url_gate no_scheme_record)).
    right. vm_compute. reflexivity.
  - apply (proj1 (proj2 (proj2 (verify_url_gate sample_prestige)))).
    vm_compute. reflexivity.
  - apply (proj2 (proj2 (proj2 (verify_url_gate sample_prestige)))).
    vm_compute. discriminate.
Defined.

(** ** Deduplication *)

Definition has_url (u : option text) (p : property) : bool :=
  bool_decide (url p = u).

Lemma dedup_step_fold ps : forall seen acc u,
  (forall p, p ∈ acc -> url p ∈ seen) ->
  List.filter (has_url u) (snd (fold_left dedup_step ps (seen, acc)))
  = List.filter (has_url u) acc
    ++ (if bool_decide (u ∈ seen) then []
        else option_list (List.find (has_url u) ps)).
Proof.
  induction ps as [|p ps IH]; intros seen acc u Hacc.
  - cbn. destruct (bool_decide _); rewrite app_nil_r; reflexivity.
  - cbn [fold_left dedup_step List.find].
    destruct (bool_decide_reflect (url p ∈ seen)) as [Hin|Hnin].
    + rewrite IH by assumption.
      destruct (bool_decide_reflect (u ∈ seen)) as [|Hu]; [reflexivity|].
      destruct (has_url u p) eqn:E; [|reflexivity].
      apply bool_decide_eq_true in E. subst u. contradiction.
    + rewrite IH.
      2:{ intros q Hq. apply elem_of_app in Hq as [Hq|Hq].
          - apply elem_of_union_r. auto.
          - apply list_elem_of_singleton in Hq. subst q.
            apply elem_of_union_l, elem_of_singleton. reflexivity. }
      rewrite List.filter_app. cbn [List.filter].
      destruct (has_url u p) eqn:E.
      * apply bool_decide_eq_true in E. subst u.
        rewrite bool_decide_true by set_solver.
        rewrite (bool_decide_false _ Hnin). rewrite app_nil_r. reflexivity.
      * apply bool_decide_eq_false in E. rewrite app_nil_r.
        destruct (bool_decide_reflect (u ∈ seen)) as [Hu|Hu].
        -- rewrite bool_decide_true by set_solver. reflexivity.
        -- rewrite bool_decide_false; [reflexivity|].
           intros [H|H]%elem_of_union; [|contradiction].
           apply elem_of_singleton in H. congruence.
Qed.

Lemma dedup_step_nodup ps : forall seen acc,
  NoDup (map url acc) ->
  (forall p, p ∈ acc -> url p ∈ seen) ->
  NoDup (map url (snd (fold_left dedup_step ps (seen, acc)))).
Proof.
  induction ps as [|p ps IH]; intros seen acc Hnd Hacc; [exact Hnd|].
  cbn [fold_left dedup_step].
  destruct (bool_decide_reflect (url p ∈ seen)) as [Hin|Hnin].
  - apply IH; assumption.
  - apply IH.
    + rewrite map_app. cbn. apply NoDup_app. split; [exact Hnd|]. split.
      * intros x Hx Hx'. apply list_elem_of_singleton in Hx'. subst x.
        apply list_elem_of_fmap in Hx as (q & Eq & Hq).
        apply Hnin. rewrite Eq. auto.
      * apply NoDup_singleton.
    + intros q Hq. apply elem_of_app in Hq as [Hq|Hq].
      * apply elem_of_union_r. auto.
      * apply list_elem_of_singleton in Hq. subst q.
        apply elem_of_union_l, elem_of_singleton. reflexivity.
Qed.

(** C5: after deduplication no url occurs twice, and for every url the
    records retained under it are exactly the first record of the input
    with that url, as it was: one record when the url occurs in the input,
    none otherwise. *)
Theorem dedup_keeps_first (all_properties : list property) :
  NoDup (map url (dedup all_properties))
  /\ forall u,
       List.filter (has_url u) (dedup all_properties)
       = option_list (List.find (has_url u) all_properties).
Proof.
  unfold dedup. split.
  - apply dedup_step_nodup; [constructor|]. intros p Hp. inversion Hp.
  - intros u. rewrite dedup_step_fold.
    + rewrite bool_decide_false by set_solver. reflexivity.
    + intros p Hp. inversion Hp.
Qed.

Definition duplicate_of_prestige : property :=
  {| pid := Some (txt "other"); source := Some (txt "nobroker");
     status := Some (txt "new_launch");
     name := Some (txt "Prestige Suncrest Phase 2"); builder := None;
     locality := None;
     price_min_lakhs := VInt 90; price_max_lakhs := VInt 95;
     price_display := None; handover := None; handover_year := YNone;
     bhk := None; url := url sample_prestige |}.

Example dedup_first_wins :
  dedup [sample_prestige; no_scheme_record; duplicate_of_prestige]
  = [sample_prestige; no_scheme_record]
  /\ dedup [duplicate_of_prestige; sample_prestige] = [duplicate_of_prestige].
Proof. split; vm_compute; reflexivity. Qed.

(** ** The junk filter *)

Lemma is_space_lower_char c : is_space (lower_char c) = is_space c.
Proof. destruct c as [[] [] [] [] [] [] [] []]; reflexivity. Qed.

Lemma drop_while_lower s :
  drop_while is_space (lower s) = lower (drop_while is_space s).
Proof.
  induction s as [|c s IH]; [reflexivity|].
  cbn. rewrite is_space_lower_char. destruct (is_space c); [exact IH|reflexivity].
Qed.

Lemma lower_rev s : lower (rev s) = rev (lower s).
Proof. unfold lower. rewrite map_rev. reflexivity. Qed.

Lemma lower_strip s : lower (strip s) = strip (lower s).
Proof.
  unfold strip, rstrip, lstrip.
  rewrite !drop_while_lower, <- lower_rev, drop_while_lower, lower_rev.
  reflexivity.
Qed.

(** The junk names are already trimmed and shorter than the key. *)
Lemma junk_names_are_keys :
  Forall (fun c => strip c = c /\ take 120 c = c) JUNK_PROJECT_NAMES_list.
Proof. repeat (constructor; [split; vm_compute; reflexivity|]). constructor. Qed.

Lemma junk_match_trimmed n :
  lower n ∈ JUNK_PROJECT_NAMES -> lower (strip n) = lower n.
Proof.
  intros H. apply elem_of_list_to_set in H.
  rewrite lower_strip.
  exact (proj1 (proj1 (Forall_forall _ _) junk_names_are_keys _ H)).
Qed.

Lemma junk_key_of_match n :
  lower n ∈ JUNK_PROJECT_NAMES -> take 120 (lower (strip n)) = lower n.
Proof.
  intros H. rewrite (junk_match_trimmed _ H).
  apply elem_of_list_to_set in H.
  exact (proj2 (proj1 (Forall_forall _ _) junk_names_are_keys _ H)).
Qed.

Lemma junk_name_is_junk n :
  lower n ∈ JUNK_PROJECT_NAMES -> _is_junk_project_name n = true.
Proof.
  intros H. unfold _is_junk_project_name.
  destruct (is_empty n || (length n <? 4)%nat); [reflexivity|].
  rewrite (junk_key_of_match _ H).
  rewrite (bool_decide_true _ H). reflexivity.
Qed.

Lemma checked_name_not_junk record n :
  checked_name record = Some n -> _is_junk_project_name n = false.
Proof.
  unfold checked_name.
  destruct (is_empty _); [discriminate|]. cbn [orb].
  destruct (_is_junk_project_name _) eqn:E; [discriminate|].
  intros [= <-]. exact E.
Qed.

(** C6: a name that matches one of the known page-title or navigation
    strings, whatever its case, is classified as junk; a candidate carrying
    it does not survive the junk filter of the pipeline, and no record of
    the final output bears that name. *)
Theorem junk_names_never_output (n : text) :
  lower n ∈ JUNK_PROJECT_NAMES ->
  _is_junk_project_name n = true
  /\ forall all_properties : list property,
       (forall p, p ∈ all_properties -> name p = Some n ->
                  p ∉ List.filter not_junk (dedup all_properties))
       /\ (forall r, r ∈ finish all_properties -> name r <> Some n).
Proof.
  intros H. split; [exact (junk_name_is_junk _ H)|].
  intros all_properties. split.
  - intros p _ Hn Hin.
    apply list_elem_of_In, filter_In in Hin as [_ Hnj].
    unfold not_junk in Hnj. rewrite Hn in Hnj.
    change (or_empty (Some n)) with n in Hnj.
    rewrite junk_name_is_junk in Hnj; [discriminate|].
    rewrite (junk_match_trimmed _ H). exact H.
  - intros r Hr Hn.
    apply list_elem_of_omap in Hr as (p & _ & Hv).
    destruct (verify_inv _ _ Hv) as (u & nm & _ & Hnm & ->).
    cbn [name] in Hn. injection Hn as ->.
    apply checked_name_not_junk in Hnm.
    rewrite (junk_name_is_junk _ H) in Hnm. discriminate.
Qed.

Lemma quick_links_matches : lower (txt "Quick Links") ∈ JUNK_PROJECT_NAMES.
Proof. apply elem_of_list_to_set. vm_compute. repeat constructor. Qed.

Lemma junk_names_never_output_witness :
  _is_junk_project_name (txt "Quick Links") = true.
Proof.
  apply (junk_names_never_output (txt "Quick Links")).
  apply elem_of_list_to_set. vm_compute. repeat constructor.
Defined.

Definition quick_links_record : property :=
  {| pid := None; source := None; status := None;
     name := Some (txt "Quick Links"); builder := None;
     locality := Some (txt "Whitefield");
     price_min_lakhs := VInt 71; price_max_lakhs := VInt 211;
     price_display := None; handover := None; handover_year := YNone;
     bhk := None; url := Some (txt "https://www.99acres.com/quick-links") |}.

Example quick_links_dropped :
  finish [quick_links_record; sample_prestige] = [sample_prestige_cleaned].
Proof. vm_compute. reflexivity. Qed.

(** ** Comparisons *)

Lemma xcompare_antisym a b : xcompare b a = CompOpp (xcompare a b).
Proof.
  destruct a as [|m1 e1|], b as [|m2 e2|]; try reflexivity.
  cbn. rewrite (Z.min_comm e2 e1). apply Z.compare_antisym.
Qed.

Lemma py_compare_antisym a b c :
  py_compare a b = Some c -> py_compare b a = Some (CompOpp c).
Proof.
  unfold py_compare.
  destruct (xval_of_num a) as [x|], (xval_of_num b) as [y|]; try discriminate.
  intros [= <-]. rewrite xcompare_antisym. reflexivity.
Qed.

Lemma py_compare_not_nan a b :
  is_nan a = false -> is_nan b = false -> exists c, py_compare a b = Some c.
Proof.
  unfold py_compare. intros Ha Hb.
  destruct a as [z|[]], b as [z'|[]]; try discriminate; cbn; eauto.
Qed.

Lemma py_lt_false_ge a b :
  is_nan a = false -> is_nan b = false -> py_lt a b = false -> py_le b a = true.
Proof.
  intros Ha Hb. destruct (py_compare_not_nan a b Ha Hb) as [c Hc].
  unfold py_lt, py_le. rewrite Hc, (py_compare_antisym _ _ _ Hc).
  destruct c; cbn; congruence.
Qed.

Lemma py_gt_false_le a b :
  is_nan a = false -> is_nan b = false -> py_gt a b = false -> py_le a b = true.
Proof.
  intros Ha Hb. destruct (py_compare_not_nan a b Ha Hb) as [c Hc].
  unfold py_gt, py_le. rewrite Hc. destruct c; cbn; congruence.
Qed.

Lemma py_gt_le_swap a b : py_gt a b = true -> py_le b a = true.
Proof.
  unfold py_gt, py_le. destruct (py_compare a b) as [c|] eqn:Hc; [|discriminate].
  rewrite (py_compare_antisym _ _ _ Hc). destruct c; cbn; congruence.
Qed.

Lemma py_gt_asym a b : py_gt a b = true -> py_gt b a = false.
Proof.
  unfold py_gt. destruct (py_compare a b) as [c|] eqn:Hc; [|discriminate].
  rewrite (py_compare_antisym _ _ _ Hc). destruct c; cbn; congruence.
Qed.

(** ** The price fields of a cleaned record *)

(** A value lies within the sane bounds [0.1, 50000]. *)
Definition in_bounds (x : num) : bool :=
  py_le PRICE_MIN_LAKHS x && py_le x PRICE_MAX_LAKHS.

Lemma bound_price_some p x :
  bound_price p = Some x ->
  p = Some x /\ py_lt x PRICE_MIN_LAKHS = false /\ py_gt x PRICE_MAX_LAKHS = false.
Proof.
  destruct p as [y|]; [|discriminate]. cbn.
  destruct (py_lt y _) eqn:E1; [discriminate|].
  destruct (py_gt y _) eqn:E2; [discriminate|].
  cbn. intros [= <-]. auto.
Qed.

Lemma bound_price_in_bounds p x :
  bound_price p = Some x -> is_nan x = false -> in_bounds x = true.
Proof.
  intros H Hx. apply bound_price_some in H as (_ & H1 & H2).
  unfold in_bounds.
  rewrite (py_lt_false_ge x PRICE_MIN_LAKHS Hx eq_refl H1),
    (py_gt_false_le x PRICE_MAX_LAKHS Hx eq_refl H2).
  reflexivity.
Qed.

Lemma order_prices_cases a b :
  (order_prices a b = (a, b)
   /\ forall x y, a = Some x -> b = Some y -> py_gt x y = false)
  \/ (exists x y, a = Some x /\ b = Some y /\ py_gt x y = true
                  /\ order_prices a b = (Some y, Some x)).
Proof.
  destruct a as [x|], b as [y|]; cbn; try (left; split; [reflexivity|]; congruence).
  destruct (py_gt x y) eqn:E.
  - right. exists x, y. auto.
  - left. split; [reflexivity|]. congruence.
Qed.

(** X19: the price invariant of the verifier on numbers that are not NaN:
    each price of a cleaned record lies within the bounds, and the pair is
    ordered. *)
Lemma verify_price_invariant record r :
  verify_and_clean_property record = Some r ->
  (forall x, num_of_val (price_min_lakhs r) = Some x -> is_nan x = false ->
             in_bounds x = true)
  /\ (forall x, num_of_val (price_max_lakhs r) = Some x -> is_nan x = false ->
                in_bounds x = true)
  /\ (forall x y, num_of_val (price_min_lakhs r) = Some x ->
                  num_of_val (price_max_lakhs r) = Some y ->
                  is_nan x = false -> is_nan y = false -> py_le x y = true).
Proof.
  intros Hv. destruct (verify_inv _ _ Hv) as (u & n & _ & _ & ->).
  cbn [price_min_lakhs price_max_lakhs]. rewrite !num_of_val_of_num.
  unfold clean_prices. destruct (coerce_prices _ _) as [a b].
  destruct (order_prices_cases (bound_price a) (bound_price b))
    as [[-> Hord]|(x0 & y0 & Ea & Eb & Hgt & ->)]; cbn [fst snd].
  - repeat split.
    + intros x. apply bound_price_in_bounds.
    + intros x. apply bound_price_in_bounds.
    + intros x y Hx Hy Nx Ny. apply py_gt_false_le; auto.
  - repeat split.
    + intros x [= <-]. apply (bound_price_in_bounds _ _ Eb).
    + intros x [= <-]. apply (bound_price_in_bounds _ _ Ea).
    + intros x y [= <-] [= <-] _ _. apply py_gt_le_swap. exact Hgt.
Qed.

Definition nan_price_record : property :=
  {| pid := None; source := None; status := None;
     name := Some (txt "Prestige Suncrest"); builder := None; locality := None;
     price_min_lakhs := VFloat S754_nan; price_max_lakhs := VInt 100;
     price_display := None; handover := None; handover_year := YNone;
     bhk := None; url := Some (txt "https://www.99acres.com/p-npxid-r1") |}.

Definition nan_text_price_record : property :=
  {| pid := None; source := None; status := None;
     name := Some (txt "Prestige Suncrest"); builder := None; locality := None;
     price_min_lakhs := VStr (txt "nan"); price_max_lakhs := VInt 100;
     price_display := None; handover := None; handover_year := YNone;
     bhk := None; url := Some (txt "https://www.99acres.com/p-npxid-r1") |}.

(** A direct call with a NaN, which no caller of the verifier makes: both
    bound tests are comparisons, which are false on a NaN, so a NaN price
    (given as a float, or as the text "nan" that the verifier converts) is
    kept. *)
Theorem verify_keeps_nan_price :
  exists r,
    verify_and_clean_property nan_price_record = Some r
    /\ verify_and_clean_property nan_text_price_record = Some r
    /\ num_of_val (price_min_lakhs r) = Some (NFloat S754_nan)
    /\ num_of_val (price_max_lakhs r) = Some (NInt 100)
    /\ in_bounds (NFloat S754_nan) = false
    /\ py_le (NFloat S754_nan) (NInt 100) = false
    /\ price_display r = Some (txt "₹ nan - 1.00 Cr").
Proof.
  eexists. split; [vm_compute; reflexivity|].
  repeat split; vm_compute; reflexivity.
Qed.

(** A price value as the callers of the verifier store it: [None], an
    [int], a [float] that is not a NaN, or text that [float] does not read
    as a NaN.  (The extractors store [None] or the floats of
    [parse_price_range], the sample data integers.) *)
Definition price_not_nan (v : pyval) : Prop :=
  match v with
  | VFloat f => is_nan (NFloat f) = false
  | VStr s => forall f, py_float s = Some f -> is_nan (NFloat f) = false
  | _ => True
  end.

Lemma coerce_price_not_nan v x :
  price_not_nan v -> coerce_price v = Some (Some x) -> is_nan x = false.
Proof.
  destruct v as [|z|f|s]; cbn [price_not_nan coerce_price]; intros H E.
  - discriminate.
  - injection E as <-. reflexivity.
  - injection E as <-. exact H.
  - destruct (is_empty s); [discriminate|].
    destruct (py_float s) as [f|] eqn:F; [|discriminate].
    injection E as <-. apply H. reflexivity.
Qed.

Lemma coerce_prices_not_nan vmin vmax :
  price_not_nan vmin -> price_not_nan vmax ->
  (forall x, fst (coerce_prices vmin vmax) = Some x -> is_nan x = false)
  /\ (forall x, snd (coerce_prices vmin vmax) = Some x -> is_nan x = false).
Proof.
  intros Hmin Hmax. unfold coerce_prices.
  destruct (coerce_price vmin) as [a|] eqn:Ea, (coerce_price vmax) as [b|] eqn:Eb;
    cbn [fst snd]; split; intros x Hx; try discriminate; subst.
  - exact (coerce_price_not_nan _ _ Hmin Ea).
  - exact (coerce_price_not_nan _ _ Hmax Eb).
Qed.

Lemma bound_price_not_nan a :
  is_nan a = false -> bound_price (Some a) = if in_bounds a then Some a else None.
Proof.
  intros Ha. cbn [bound_price]. unfold in_bounds.
  destruct (py_lt a PRICE_MIN_LAKHS) eqn:E1.
  - replace (py_le PRICE_MIN_LAKHS a) with false; [reflexivity|].
    unfold py_lt in E1. unfold py_le.
    destruct (py_compare a PRICE_MIN_LAKHS) as [c|] eqn:Ec; [|discriminate].
    rewrite (py_compare_antisym _ _ _ Ec). destruct c; try discriminate. reflexivity.
  - rewrite (py_lt_false_ge a PRICE_MIN_LAKHS Ha eq_refl E1). cbn [orb andb].
    destruct (py_gt a PRICE_MAX_LAKHS) eqn:E2.
    + replace (py_le a PRICE_MAX_LAKHS) with false; [reflexivity|].
      unfold py_gt in E2. unfold py_le.
      destruct (py_compare a PRICE_MAX_LAKHS) as [[]|]; try discriminate. reflexivity.
    + rewrite (py_gt_false_le a PRICE_MAX_LAKHS Ha eq_refl E2). reflexivity.
Qed.

Lemma coerce_price_number v a : num_of_val v = Some a -> coerce_price v = Some (Some a).
Proof. destruct v; cbn; intros [= <-]; reflexivity. Qed.

Lemma number_not_nan v a : price_not_nan v -> num_of_val v = Some a -> is_nan a = false.
Proof. destruct v; cbn; intros H [= <-]; [reflexivity|exact H]. Qed.

(** C4: for every record the verifier returns when it is given prices as
    its callers store them (none is a NaN), each non-null price lies within
    [0.1, 50000], and when both are non-null the minimum is at most the
    maximum.  For a pair of numbers: an inverted pair within the bounds
    comes out swapped, and a number outside the bounds is nulled alone,
    the other one being kept. *)
Theorem verify_price_bounds (record r : property) :
  verify_and_clean_property record = Some r ->
  price_not_nan (price_min_lakhs record) ->
  price_not_nan (price_max_lakhs record) ->
  (forall x, num_of_val (price_min_lakhs r) = Some x ->
             py_le PRICE_MIN_LAKHS x = true /\ py_le x PRICE_MAX_LAKHS = true)
  /\ (forall y, num_of_val (price_max_lakhs r) = Some y ->
                py_le PRICE_MIN_LAKHS y = true /\ py_le y PRICE_MAX_LAKHS = true)
  /\ (forall x y, num_of_val (price_min_lakhs r) = Some x ->
                  num_of_val (price_max_lakhs r) = Some y -> py_le x y = true)
  /\ (forall a b,
        num_of_val (price_min_lakhs record) = Some a ->
        num_of_val (price_max_lakhs record) = Some b ->
        (in_bounds a = true -> in_bounds b = true -> py_gt a b = true ->
         num_of_val (price_min_lakhs r) = Some b
         /\ num_of_val (price_max_lakhs r) = Some a)
        /\ (in_bounds a = false -> in_bounds b = true ->
            price_min_lakhs r = VNone /\ num_of_val (price_max_lakhs r) = Some b)
        /\ (in_bounds a = true -> in_bounds b = false ->
            num_of_val (price_min_lakhs r) = Some a /\ price_max_lakhs r = VNone)).
Proof.
  intros Hv Hmin Hmax. destruct (verify_inv _ _ Hv) as (u & n & _ & _ & ->).
  cbn [price_min_lakhs price_max_lakhs]. rewrite !num_of_val_of_num.
  destruct (coerce_prices_not_nan _ _ Hmin Hmax) as [Na Nb].
  assert (Hb : forall p x, (forall z, p = Some z -> is_nan z = false) ->
             bound_price p = Some x ->
             is_nan x = false /\ py_le PRICE_MIN_LAKHS x = true
             /\ py_le x PRICE_MAX_LAKHS = true).
  { intros p x Hp E. destruct (bound_price_some _ _ E) as (-> & _ & _).
    assert (Nx := Hp x eq_refl). split; [exact Nx|].
    apply andb_true_iff. exact (bound_price_in_bounds _ _ E Nx). }
  split; [|split; [|split]].
  - intros x Hx. unfold clean_prices in Hx.
    destruct (coerce_prices _ _) as [a b]. cbn [fst snd] in *.
    destruct (order_prices_cases (bound_price a) (bound_price b))
      as [[E _]|(x0 & y0 & Ea & Eb & _ & E)]; rewrite E in Hx; cbn [fst] in Hx.
    + apply (Hb a x Na Hx).
    + injection Hx as <-. apply (Hb b y0 Nb Eb).
  - intros y Hy. unfold clean_prices in Hy.
    destruct (coerce_prices _ _) as [a b]. cbn [fst snd] in *.
    destruct (order_prices_cases (bound_price a) (bound_price b))
      as [[E _]|(x0 & y0 & Ea & Eb & _ & E)]; rewrite E in Hy; cbn [snd] in Hy.
    + apply (Hb b y Nb Hy).
    + injection Hy as <-. apply (Hb a x0 Na Ea).
  - intros x y Hx Hy. unfold clean_prices in Hx, Hy.
    destruct (coerce_prices _ _) as [a b]. cbn [fst snd] in *.
    destruct (order_prices_cases (bound_price a) (bound_price b))
      as [[E Hord]|(x0 & y0 & Ea & Eb & Hgt & E)]; rewrite E in Hx, Hy;
      cbn [fst snd] in Hx, Hy.
    + apply py_gt_false_le; [apply (Hb a x Na Hx)|apply (Hb b y Nb Hy)|auto].
    + injection Hx as <-. injection Hy as <-. apply py_gt_le_swap. exact Hgt.
  - intros a b Ha Hb'.
    assert (Aa := number_not_nan _ _ Hmin Ha). assert (Ab := number_not_nan _ _ Hmax Hb').
    unfold clean_prices, coerce_prices.
    rewrite (coerce_price_number _ _ Ha), (coerce_price_number _ _ Hb').
    rewrite (bound_price_not_nan a Aa), (bound_price_not_nan b Ab).
    split; [|split].
    + intros -> -> Hgt. cbn [order_prices]. rewrite Hgt. split; reflexivity.
    + intros -> ->. split; reflexivity.
    + intros -> ->. split; reflexivity.
Qed.

(** A record with an inverted pair of prices. *)
Definition inverted_price_record : property :=
  {| pid := None; source := None; status := None;
     name := Some (txt "Prestige Suncrest"); builder := None; locality := None;
     price_min_lakhs := VInt 211; price_max_lakhs := VFloat (float_of_Z 71);
     price_display := None; handover := None; handover_year := YNone;
     bhk := None; url := Some (txt "https://www.99acres.com/p-npxid-r1") |}.

Lemma verify_price_bounds_witness :
  exists r,
    verify_and_clean_property inverted_price_record = Some r
    /\ num_of_val (price_min_lakhs r) = Some (NFloat (float_of_Z 71))
    /\ num_of_val (price_max_lakhs r) = Some (NInt 211).
Proof.
  eexists. split; [vm_compute; reflexivity|].
  refine (proj1 (proj2 (proj2 (proj2
            (verify_price_bounds inverted_price_record _ _ _ _)))
            (NInt 211) (NFloat (float_of_Z 71)) eq_refl eq_refl) _ _ _);
    vm_compute; try reflexivity; exact I.
Defined.

(** ** Matching a number followed by known text *)

(** The repetition of class [p] cannot go on into [rest]. *)
Definition stops (p : ascii -> bool) (rest : text) : bool :=
  match rest with
  | [] => true
  | c :: _ => negb (p c)
  end.

Lemma consumed_app (a rest : text) : consumed (a ++ rest) rest = a.
Proof.
  unfold consumed. rewrite length_app.
  replace (length a + length rest - length rest)%nat with (length a) by lia.
  apply take_app_length.
Qed.

Section StarLemmas.
Context {A : Type}.
Implicit Types k : text -> option A.

Lemma star_match_stop p rest k :
  stops p rest = true -> star_match p rest k = k rest.
Proof.
  destruct rest as [|c r]; [reflexivity|].
  cbn. intros H. apply negb_true_iff in H. rewrite H. reflexivity.
Qed.

(** Greedy: if the continuation accepts the longest repetition, that is
    the match. *)
Lemma star_match_greedy p a rest k x :
  forallb p a = true -> stops p rest = true ->
  k rest = Some x -> star_match p (a ++ rest) k = Some x.
Proof.
  intros Ha Hs Hk. induction a as [|c a IH].
  - cbn [app]. rewrite star_match_stop by assumption. exact Hk.
  - cbn in Ha. apply andb_true_iff in Ha as [Hc Ha].
    cbn. rewrite Hc, (IH Ha). reflexivity.
Qed.

(** Failure: the continuation rejects every way to split the run. *)
Lemma star_match_none p a rest k :
  forallb p a = true -> stops p rest = true ->
  (forall a1 a2, a = a1 ++ a2 -> k (a2 ++ rest) = None) ->
  star_match p (a ++ rest) k = None.
Proof.
  intros Ha Hs. induction a as [|c a IH]; intros Hk.
  - cbn [app]. rewrite star_match_stop by assumption. exact (Hk [] [] eq_refl).
  - cbn in Ha. apply andb_true_iff in Ha as [Hc Ha].
    cbn. rewrite Hc, (IH Ha).
    + exact (Hk [] (c :: a) eq_refl).
    + intros a1 a2 E. apply (Hk (c :: a1) a2). rewrite E. reflexivity.
Qed.
End StarLemmas.

Section NumberLemmas.
Context {A : Type}.
Implicit Types k : text -> captures -> option A.

Lemma number_greedy i a rest caps k x :
  a <> [] -> forallb is_numch a = true -> stops is_numch rest = true ->
  k rest ((i, a) :: caps) = Some x ->
  rmatch (number i) (a ++ rest) caps k = Some x.
Proof.
  intros Hne Ha Hs Hk. destruct a as [|c a]; [contradiction|].
  cbn in Ha. apply andb_true_iff in Ha as [Hc Ha].
  unfold number. cbn [rmatch].
  change ((c :: a) ++ rest) with (c :: (a ++ rest)). cbv beta iota. rewrite Hc.
  apply star_match_greedy; [assumption..|].
  change (c :: a ++ rest) with ((c :: a) ++ rest).
  rewrite consumed_app. exact Hk.
Qed.

Lemma number_none i a rest caps k :
  forallb is_numch a = true -> stops is_numch rest = true ->
  (forall a1 a2, a1 <> [] -> a = a1 ++ a2 ->
                 k (a2 ++ rest) ((i, a1) :: caps) = None) ->
  rmatch (number i) (a ++ rest) caps k = None.
Proof.
  intros Ha Hs Hk. unfold number. cbn [rmatch].
  destruct a as [|c a].
  - cbn [app]. destruct rest as [|c r]; [reflexivity|].
    cbn in Hs. apply negb_true_iff in Hs. rewrite Hs. reflexivity.
  - cbn in Ha. apply andb_true_iff in Ha as [Hc Ha].
    change ((c :: a) ++ rest) with (c :: (a ++ rest)). cbv beta iota. rewrite Hc.
    apply star_match_none; [assumption..|].
    intros a1 a2 E.
    replace (consumed (c :: a ++ rest) (a2 ++ rest)) with (c :: a1).
    + apply Hk; [discriminate|]. rewrite E. reflexivity.
    + rewrite E.
      replace (c :: (a1 ++ a2) ++ rest) with ((c :: a1) ++ (a2 ++ rest))
        by (cbn; rewrite List.app_assoc; reflexivity).
      symmetry. apply consumed_app.
Qed.
End NumberLemmas.

(** A search skips a run of number characters at which no match starts. *)
Lemma search_skip r a rest :
  (forall a1 a2, a2 <> [] -> a = a1 ++ a2 -> match_here r (a2 ++ rest) = None) ->
  search r (a ++ rest) = search r rest.
Proof.
  induction a as [|c a IH]; intros H; [reflexivity|].
  pose proof (H [] (c :: a) ltac:(discriminate) eq_refl) as H0.
  cbn [app] in *. cbn [search]. rewrite H0.
  apply IH. intros a1 a2 Hne E. apply (H (c :: a1) a2 Hne). rewrite E. reflexivity.
Qed.

(** What a number character is not. *)
Lemma numch_facts c :
  is_numch c = true ->
  is_space c = false /\ ceqb "," c = false /\ ceqb "226" c = false
  /\ ceqb_ci "-" c = false /\ ceqb_ci "L" c = false /\ ceqb_ci "C" c = false.
Proof.
  destruct c as [[] [] [] [] [] [] [] []]; cbn; intros H;
    try discriminate H; repeat split.
Qed.

Lemma forallb_app_split (p : ascii -> bool) (a1 a2 : text) :
  forallb p (a1 ++ a2) = true -> forallb p a1 = true /\ forallb p a2 = true.
Proof. rewrite forallb_app. apply andb_true_iff. Qed.

(** ** Text the parser leaves as it is *)

Lemma replace_absent eq o old new s :
  forallb (fun c => negb (eq o c)) s = true ->
  replace_from eq (o :: old) new O s = s.
Proof.
  induction s as [|c s IH]; [reflexivity|].
  cbn. intros H. apply andb_true_iff in H as [Hc Hs].
  apply negb_true_iff in Hc. rewrite Hc. cbn. rewrite (IH Hs). reflexivity.
Qed.

Lemma rstrip_snoc s d : is_space d = false -> rstrip (s ++ [d]) = s ++ [d].
Proof.
  intros H. unfold rstrip. rewrite rev_app_distr. cbn. rewrite H.
  cbn. rewrite rev_involutive. reflexivity.
Qed.

Lemma strip_ends c s d :
  is_space c = false -> is_space d = false ->
  strip (c :: s ++ [d]) = c :: s ++ [d].
Proof.
  intros Hc Hd. unfold strip, lstrip. cbn. rewrite Hc.
  change (c :: s ++ [d]) with ((c :: s) ++ [d]). apply rstrip_snoc. exact Hd.
Qed.

(** No comma and no first byte of the rupee sign. *)
Definition plain_char (c : ascii) : bool :=
  negb (ceqb "," c) && negb (ceqb "226" c).

Lemma numch_plain a : forallb is_numch a = true -> forallb plain_char a = true.
Proof.
  induction a as [|c a IH]; [reflexivity|]. cbn [forallb].
  intros H. apply andb_true_iff in H as [Hc Ha].
  destruct (numch_facts c Hc) as (_ & H1 & H2 & _).
  rewrite (IH Ha). unfold plain_char. rewrite H1, H2. reflexivity.
Qed.

Lemma raw_of_plain c s d :
  forallb plain_char (c :: s ++ [d]) = true ->
  is_space c = false -> is_space d = false ->
  strip (replace rupee [] (replace (txt ",") [] (c :: s ++ [d]))) = c :: s ++ [d].
Proof.
  intros Hp Hc Hd.
  assert (H1 : forallb (fun x => negb (ceqb "," x)) (c :: s ++ [d]) = true).
  { rewrite forallb_forall in *. intros x Hx.
    specialize (Hp x Hx). unfold plain_char in Hp.
    apply andb_true_iff in Hp. tauto. }
  assert (H2 : forallb (fun x => negb (ceqb "226" x)) (c :: s ++ [d]) = true).
  { rewrite forallb_forall in *. intros x Hx.
    specialize (Hp x Hx). unfold plain_char in Hp.
    apply andb_true_iff in Hp. tauto. }
  unfold replace. change (txt ",") with ["," % char].
  rewrite (replace_absent _ _ _ _ _ H1).
  change rupee with ["226" % char; "130" % char; "185" % char].
  rewrite (replace_absent _ _ _ _ _ H2).
  apply strip_ends; assumption.
Qed.

Lemma search_here r s caps : match_here r s = Some caps -> search r s = Some caps.
Proof. intros H. destruct s; cbn [search]; rewrite H; reflexivity. Qed.

Lemma py_float_nonempty s f : py_float s = Some f -> s <> [].
Proof. intros H ->. vm_compute in H. discriminate. Qed.

Lemma numch_head_stops_space (b : text) rest :
  b <> [] -> forallb is_numch b = true -> stops is_space (b ++ rest) = true.
Proof.
  destruct b as [|c b]; [contradiction|]. cbn. intros _ H.
  apply andb_true_iff in H as [Hc _].
  destruct (numch_facts c Hc) as (-> & _). reflexivity.
Qed.

(** ** Ranges in crore *)

Lemma search_cr_range (a b : text) :
  a <> [] -> b <> [] ->
  forallb is_numch a = true -> forallb is_numch b = true ->
  search re_cr_range (a ++ txt " - " ++ b ++ txt " Cr") = Some [(2%nat, b); (1%nat, a)].
Proof.
  intros Ha Hb Na Nb. apply search_here.
  unfold match_here, re_cr_range. cbn [seqs rmatch].
  apply number_greedy; [assumption..|reflexivity|].
  unfold ws. cbn [rmatch].
  change (txt " - " ++ b ++ txt " Cr")
    with (txt " " ++ "-"%char :: txt " " ++ b ++ txt " Cr").
  apply star_match_greedy; [reflexivity..|].
  cbn [rmatch]. change (ceqb_ci "-" "-") with true. cbv iota.
  apply star_match_greedy; [reflexivity|apply numch_head_stops_space; assumption|].
  apply number_greedy; [assumption..|reflexivity|].
  reflexivity.
Qed.

Lemma raw_of_framed (a m b e : text) (d : ascii) :
  a <> [] -> forallb is_numch a = true -> forallb is_numch b = true ->
  forallb plain_char m = true -> forallb plain_char (e ++ [d]) = true ->
  is_space d = false ->
  strip (replace rupee [] (replace (txt ",") [] (a ++ m ++ b ++ e ++ [d])))
  = a ++ m ++ b ++ e ++ [d].
Proof.
  intros Hne Na Nb Pm Pe Hd. destruct a as [|c a]; [contradiction|].
  replace ((c :: a) ++ m ++ b ++ e ++ [d]) with (c :: (a ++ m ++ b ++ e) ++ [d])
    by (cbn [app]; rewrite <- !List.app_assoc; reflexivity).
  pose proof (numch_plain _ Na) as Pa. pose proof (numch_plain _ Nb) as Pb.
  cbn [forallb] in Na, Pa.
  apply andb_true_iff in Na as [Hc _]. apply andb_true_iff in Pa as [Pc Pa].
  destruct (numch_facts c Hc) as (Sc & _).
  apply raw_of_plain; [|assumption..].
  cbn [forallb]. rewrite Pc. cbn [andb].
  rewrite <- !List.app_assoc, !forallb_app, Pa, Pm, Pb.
  rewrite forallb_app in Pe. rewrite Pe. reflexivity.
Qed.

(** C7: for decimal numerals [A] and [B] (digits with an optional point)
    whose values [a] and [b] satisfy [a <= b < 1000], the text "A - B Cr" is
    parsed as (100*a, 100*b) lakhs. *)
Theorem parse_crore_range (A B : text) (a b : float) :
  forallb is_numch A = true -> forallb is_numch B = true ->
  py_float A = Some a -> py_float B = Some b ->
  le_float a b = true -> lt_float b (float_of_Z 1000) = true ->
  parse_price_range (A ++ txt " - " ++ B ++ txt " Cr")
  = (Some (fmul a hundred), Some (fmul b hundred)).
Proof.
  intros NA NB FA FB Hle Hlt.
  pose proof (py_float_nonempty _ _ FA) as HA.
  pose proof (py_float_nonempty _ _ FB) as HB.
  unfold parse_price_range.
  replace (is_empty (A ++ txt " - " ++ B ++ txt " Cr")) with false
    by (destruct A; [contradiction|reflexivity]).
  change (txt " Cr") with (txt " C" ++ ["r"%char]).
  rewrite raw_of_framed by (assumption || reflexivity).
  change (txt " C" ++ ["r"%char]) with (txt " Cr").
  unfold branch_cr_range. rewrite search_cr_range by assumption.
  cbn [group Nat.eqb]. rewrite FA, FB, Hle, Hlt. reflexivity.
Qed.

Lemma parse_crore_range_witness :
  parse_price_range (txt "1.5 - 2.5 Cr")
  = (Some (float_of_Z 150), Some (float_of_Z 250)).
Proof.
  apply (parse_crore_range (txt "1.5") (txt "2.5")
           (S754_finite false 6755399441055744 (-52))
           (S754_finite false 5629499534213120 (-51)));
    vm_compute; reflexivity.
Defined.

(** ** Texts on which a pattern cannot match *)

(** [P] holds of [s] and of every suffix of [s]. *)
Fixpoint on_suffixes (P : text -> Prop) (s : text) : Prop :=
  P s /\ match s with
         | [] => True
         | _ :: s' => on_suffixes P s'
         end.

Lemma on_suffixes_here P s : on_suffixes P s -> P s.
Proof. destruct s; cbn; tauto. Qed.

Lemma on_suffixes_impl (P Q : text -> Prop) s :
  (forall s', P s' -> Q s') -> on_suffixes P s -> on_suffixes Q s.
Proof.
  intros HPQ. induction s as [|c s IH]; cbn; intros [H1 H2]; split; auto.
Qed.

Lemma on_suffixes_nested P s : on_suffixes P s -> on_suffixes (on_suffixes P) s.
Proof.
  induction s as [|c s IH]; cbn; intros [H1 H2].
  - cbn. tauto.
  - split; [split; assumption|]. apply IH. exact H2.
Qed.

(** A run of number characters in front: it is enough that [P] holds of
    every text that starts with a number character. *)
Lemma on_suffixes_number_run (P : text -> Prop) a rest :
  forallb is_numch a = true ->
  (forall c z, is_numch c = true -> P (c :: z)) ->
  on_suffixes P rest -> on_suffixes P (a ++ rest).
Proof.
  intros Ha HP Hr. induction a as [|c a IH]; [exact Hr|].
  cbn in Ha. apply andb_true_iff in Ha as [Hc Ha].
  cbn. split; [apply HP; exact Hc|]. apply IH. exact Ha.
Qed.

(** [r] matches at no position of [s], whatever follows it. *)
Definition dead (r : regex) (s : text) : Prop :=
  on_suffixes (fun s' => forall (caps : captures) (k : text -> captures -> option captures),
                   rmatch r s' caps k = None) s.

Lemma star_match_dead {A} p s (k : text -> option A) :
  on_suffixes (fun s' => k s' = None) s -> star_match p s k = None.
Proof.
  induction s as [|c s IH]; cbn; intros [H1 H2]; [exact H1|].
  destruct (p c); [|exact H1]. rewrite (IH H2). exact H1.
Qed.

(** The matcher calls its continuation on suffixes of the input only: if
    the continuation fails on all of them, so does the match. *)
Lemma rmatch_dead_k {A} r : forall s caps (k : text -> captures -> option A),
  on_suffixes (fun s' => forall caps', k s' caps' = None) s ->
  rmatch r s caps k = None.
Proof.
  induction r as [|c|p|p|p|r1 IH1 r2 IH2|r1 IH1 r2 IH2|r1 IH1|i r1 IH1];
    intros s caps k H; cbn [rmatch].
  - apply (on_suffixes_here _ _ H).
  - destruct s as [|x s]; [reflexivity|]. destruct (ceqb_ci c x); [|reflexivity].
    destruct H as [_ H]. apply (on_suffixes_here _ _ H).
  - destruct s as [|x s]; [reflexivity|]. destruct (p x); [|reflexivity].
    destruct H as [_ H]. apply (on_suffixes_here _ _ H).
  - apply star_match_dead. revert H. apply on_suffixes_impl. auto.
  - destruct s as [|x s]; [reflexivity|]. destruct (p x); [|reflexivity].
    destruct H as [_ H]. apply star_match_dead. revert H.
    apply on_suffixes_impl. auto.
  - apply IH1. apply on_suffixes_nested in H. revert H.
    apply on_suffixes_impl. intros s' H' caps'. apply IH2. exact H'.
  - rewrite (IH1 _ _ _ H). apply IH2. exact H.
  - rewrite (IH1 _ _ _ H). apply (on_suffixes_here _ _ H).
  - apply IH1. revert H. apply on_suffixes_impl. auto.
Qed.

Lemma dead_seq_r r1 r2 s : dead r2 s -> dead (Seq r1 r2) s.
Proof.
  unfold dead. intros H. apply on_suffixes_nested in H. revert H.
  apply on_suffixes_impl. intros s' H caps k. cbn [rmatch].
  apply rmatch_dead_k. revert H. apply on_suffixes_impl. auto.
Qed.

Lemma dead_search r s : dead r s -> search r s = None.
Proof.
  unfold dead. induction s as [|c s IH]; cbn [on_suffixes search];
    intros [H1 H2]; unfold match_here; rewrite H1; auto.
Qed.

(** Every match of [r] contains the character [c], in either case. *)
Fixpoint must_contain (c : ascii) (r : regex) : bool :=
  match r with
  | Chr x => ceqb_ci x c
  | Seq r1 r2 => must_contain c r1 || must_contain c r2
  | Alt r1 r2 => must_contain c r1 && must_contain c r2
  | Grp _ r1 => must_contain c r1
  | _ => false
  end.

Lemma ceqb_ci_trans_false x c y :
  ceqb_ci x c = true -> ceqb_ci c y = false -> ceqb_ci x y = false.
Proof.
  unfold ceqb_ci, ceqb. intros H1 H2.
  apply Ascii.eqb_eq in H1. rewrite H1. exact H2.
Qed.

Lemma must_contain_dead c r : forall s,
  must_contain c r = true ->
  forallb (fun x => negb (ceqb_ci c x)) s = true ->
  dead r s.
Proof.
  unfold dead.
  induction r as [|x|p|p|p|r1 IH1 r2 IH2|r1 IH1 r2 IH2|r1 IH1|i r1 IH1];
    intros s Hm Hs; try discriminate Hm; cbn [must_contain] in Hm.
  - induction s as [|y s IHs]; cbn [on_suffixes].
    + split; [intros; reflexivity|exact I].
    + cbn [forallb] in Hs. apply andb_true_iff in Hs as [Hy Hs].
      apply negb_true_iff in Hy. split; [|exact (IHs Hs)].
      intros caps k. cbn [rmatch].
      rewrite (ceqb_ci_trans_false _ _ _ Hm Hy). reflexivity.
  - apply orb_true_iff in Hm as [Hm|Hm].
    + specialize (IH1 s Hm Hs). revert IH1. apply on_suffixes_impl.
      intros s' H caps k. cbn [rmatch]. apply H.
    + apply (dead_seq_r r1 r2 s). apply IH2; assumption.
  - apply andb_true_iff in Hm as [Hm1 Hm2].
    specialize (IH1 s Hm1 Hs). specialize (IH2 s Hm2 Hs).
    clear Hs. induction s as [|y s IHs]; cbn [on_suffixes] in *.
    + split; [|exact I]. intros caps k. cbn [rmatch].
      rewrite (proj1 IH1), (proj1 IH2). reflexivity.
    + split.
      * intros caps k. cbn [rmatch]. rewrite (proj1 IH1), (proj1 IH2). reflexivity.
      * apply IHs; tauto.
  - specialize (IH1 s Hm Hs). revert IH1. apply on_suffixes_impl.
    intros s' H caps k. cbn [rmatch]. apply H.
Qed.

(** ** Mixed ranges: lakh to crore *)

Lemma ws_chr_head_none {A} x R c z caps (k : text -> captures -> option A) :
  is_space c = false -> ceqb_ci x c = false ->
  rmatch (Seq ws (Seq (Chr x) R)) (c :: z) caps k = None.
Proof.
  intros H1 H2. unfold ws. cbn [rmatch star_match]. rewrite H1, H2. reflexivity.
Qed.

Lemma lakh_unit_head_none {A} R c z caps (k : text -> captures -> option A) :
  ceqb_ci "L" c = false -> rmatch (Seq lakh_unit R) (c :: z) caps k = None.
Proof.
  intros H. unfold lakh_unit.
  cbn [rmatch lit txt list_ascii_of_string]. rewrite H. reflexivity.
Qed.

Lemma ws_lakh_head_none {A} R c z caps (k : text -> captures -> option A) :
  is_space c = false -> ceqb_ci "L" c = false ->
  rmatch (Seq ws (Seq lakh_unit R)) (c :: z) caps k = None.
Proof.
  intros H1 H2. unfold ws. cbn [rmatch star_match]. rewrite H1.
  apply lakh_unit_head_none. exact H2.
Qed.

Lemma search_number_skip_char i R c s :
  is_numch c = false ->
  search (Seq (number i) R) (c :: s) = search (Seq (number i) R) s.
Proof.
  intros H. cbn [search]. unfold match_here, number. cbn [rmatch].
  rewrite H. reflexivity.
Qed.

(** A search for a pattern that begins with a number skips a run of
    number characters when the rest of the pattern fails after every part
    of the run. *)
Lemma search_number_run i R a rest :
  forallb is_numch a = true -> stops is_numch rest = true ->
  (forall a1 a2, forallb is_numch a2 = true ->
                 rmatch R (a2 ++ rest) [(i, a1)] (fun _ caps => Some caps) = None) ->
  search (Seq (number i) R) (a ++ rest) = search (Seq (number i) R) rest.
Proof.
  intros Ha Hs HR. apply search_skip. intros a1 a2 _ E.
  rewrite E in Ha. apply forallb_app_split in Ha as [_ Ha2].
  unfold match_here. cbn [rmatch].
  apply number_none; [assumption..|].
  intros b1 b2 _ E2. rewrite E2 in Ha2. apply forallb_app_split in Ha2 as [_ Hb2].
  apply HR. exact Hb2.
Qed.

Lemma search_cr_range_mixed (x y : text) :
  forallb is_numch x = true -> forallb is_numch y = true ->
  search re_cr_range (x ++ txt " L - " ++ y ++ txt " Cr") = None.
Proof.
  intros Nx Ny. unfold re_cr_range. cbn [seqs].
  rewrite search_number_run; [|assumption|reflexivity|].
  2:{ intros a1 [|c a2] Ha2; [reflexivity|].
      cbn [forallb] in Ha2. apply andb_true_iff in Ha2 as [Hc _].
      destruct (numch_facts c Hc) as (H1 & _ & _ & H2 & _).
      apply ws_chr_head_none; assumption. }
  change (txt " L - " ++ y ++ txt " Cr")
    with (" "%char :: "L"%char :: " "%char :: "-"%char :: " "%char :: y ++ txt " Cr").
  rewrite !search_number_skip_char by reflexivity.
  rewrite search_number_run; [reflexivity|assumption|reflexivity|].
  intros a1 [|c a2] Ha2; [reflexivity|].
  cbn [forallb] in Ha2. apply andb_true_iff in Ha2 as [Hc _].
  destruct (numch_facts c Hc) as (H1 & _ & _ & H2 & _).
  apply ws_chr_head_none; assumption.
Qed.

Lemma numch_no_L a :
  forallb is_numch a = true ->
  forallb (fun x => negb (ceqb_ci "L" x)) a = true.
Proof.
  induction a as [|c a IH]; [reflexivity|]. cbn [forallb].
  intros H. apply andb_true_iff in H as [Hc Ha].
  destruct (numch_facts c Hc) as (_ & _ & _ & _ & H1 & _).
  rewrite H1, (IH Ha). reflexivity.
Qed.

Lemma search_lakh_range_mixed (x y : text) :
  forallb is_numch x = true -> forallb is_numch y = true ->
  search re_lakh_range (x ++ txt " L - " ++ y ++ txt " Cr") = None.
Proof.
  intros Nx Ny. apply dead_search.
  unfold re_lakh_range. cbn [seqs]. do 4 apply dead_seq_r.
  assert (Hnum : forall c z, is_numch c = true ->
            forall (caps : captures) (k : text -> captures -> option captures),
              rmatch (Seq (Chr "-")
                        (Seq ws (Seq (number 2) (Seq ws lakh_unit)))) (c :: z) caps k
              = None).
  { intros c z Hc caps k. cbn [rmatch].
    destruct (numch_facts c Hc) as (_ & _ & _ & -> & _). reflexivity. }
  unfold dead. apply on_suffixes_number_run; [assumption|exact Hnum|].
  change (txt " L - " ++ y ++ txt " Cr")
    with (" "%char :: "L"%char :: " "%char :: "-"%char :: " "%char :: y ++ txt " Cr").
  cbn [on_suffixes].
  split; [intros; reflexivity|]. split; [intros; reflexivity|].
  split; [intros; reflexivity|]. split.
  { intros caps k. cbn [rmatch]. change (ceqb_ci "-" "-") with true. cbv iota.
    refine (on_suffixes_here _ _
              (must_contain_dead "L"
                 (Seq ws (Seq (number 2) (Seq ws lakh_unit)))
                 (" "%char :: y ++ txt " Cr") eq_refl _) caps _).
    cbn [forallb]. rewrite forallb_app, (numch_no_L _ Ny). reflexivity. }
  split; [intros; reflexivity|].
  apply on_suffixes_number_run; [assumption|exact Hnum|].
  cbn. repeat split; intros; reflexivity.
Qed.

Lemma lakh_unit_L {A} z caps (k : text -> captures -> option A) v :
  k z caps = Some v -> rmatch lakh_unit ("L"%char :: z) caps k = Some v.
Proof.
  intros H. unfold lakh_unit. cbn [rmatch lit txt list_ascii_of_string].
  change (ceqb_ci "L" "L") with true. cbv iota. rewrite H. reflexivity.
Qed.

Lemma search_mixed_range (x y : text) :
  x <> [] -> y <> [] ->
  forallb is_numch x = true -> forallb is_numch y = true ->
  search re_mixed_range (x ++ txt " L - " ++ y ++ txt " Cr")
  = Some [(2%nat, y); (1%nat, x)].
Proof.
  intros Hx Hy Nx Ny. apply search_here.
  unfold match_here, re_mixed_range. cbn [seqs rmatch].
  apply number_greedy; [assumption..|reflexivity|].
  unfold ws. cbn [rmatch].
  change (txt " L - " ++ y ++ txt " Cr")
    with (txt " " ++ "L"%char :: txt " " ++ "-"%char :: txt " " ++ y ++ txt " Cr").
  apply star_match_greedy; [reflexivity..|].
  apply lakh_unit_L.
  apply star_match_greedy; [reflexivity..|].
  cbn [rmatch]. change (ceqb_ci "-" "-") with true. cbv iota.
  apply star_match_greedy; [reflexivity|apply numch_head_stops_space; assumption|].
  apply number_greedy; [assumption..|reflexivity|].
  reflexivity.
Qed.

(** C8, as stated, fails: the code compares [float(X)] with the binary64
    product [float(Y) * 100], which is rounded.  On "29 L - 0.29 Cr" the
    numerals satisfy 29 <= 100 * 0.29, but the product is
    28.999999999999996, below 29; the mixed-range branch is skipped and the
    branch for "Y Cr onwards" returns (28.999999999999996, None). *)
Lemma parse_mixed_inexact_product :
  let x := float_of_Z 29 in
  let y := float_of_decimal false 29 (-2) in
  py_float (txt "29") = Some x
  /\ py_float (txt "0.29") = Some y
  /\ 29 * 100 <= 100 * 29
  /\ le_float x (fmul y hundred) = false
  /\ format_2f_float (fmul y hundred) = txt "29.00"
  /\ parse_price_range (txt "29 L - 0.29 Cr") = (Some (fmul y hundred), None)
  /\ parse_price_range (txt "29 L - 0.29 Cr") <> (Some x, Some (fmul y hundred)).
Proof. vm_compute. repeat split; try reflexivity; discriminate. Qed.

(** C8 (amended): for decimal numerals [X] and [Y] whose values [x] and
    [y] satisfy [x <= y * 100], the product being the binary64 one, the
    text "X L - Y Cr" is parsed as (x, y * 100); neither the crore-range
    branch nor the lakh-range branch, which are tried first, matches such
    a text. *)
Theorem parse_mixed_range (X Y : text) (x y : float) :
  forallb is_numch X = true -> forallb is_numch Y = true ->
  py_float X = Some x -> py_float Y = Some y ->
  le_float x (fmul y hundred) = true ->
  let t := X ++ txt " L - " ++ Y ++ txt " Cr" in
  parse_price_range t = (Some x, Some (fmul y hundred))
  /\ branch_cr_range t = None
  /\ branch_lakh_range t = None.
Proof.
  intros NX NY FX FY Hle t. subst t.
  pose proof (py_float_nonempty _ _ FX) as HX.
  pose proof (py_float_nonempty _ _ FY) as HY.
  assert (B1 : branch_cr_range (X ++ txt " L - " ++ Y ++ txt " Cr") = None).
  { unfold branch_cr_range. rewrite search_cr_range_mixed by assumption. reflexivity. }
  assert (B2 : branch_lakh_range (X ++ txt " L - " ++ Y ++ txt " Cr") = None).
  { unfold branch_lakh_range. rewrite search_lakh_range_mixed by assumption. reflexivity. }
  split; [|split; assumption].
  unfold parse_price_range.
  replace (is_empty (X ++ txt " L - " ++ Y ++ txt " Cr")) with false
    by (destruct X; [contradiction|reflexivity]).
  change (txt " Cr") with (txt " C" ++ ["r"%char]).
  rewrite raw_of_framed by (assumption || reflexivity).
  change (txt " C" ++ ["r"%char]) with (txt " Cr").
  rewrite B1, B2.
  unfold branch_mixed_range. rewrite search_mixed_range by assumption.
  cbn [group Nat.eqb]. rewrite FX, FY. cbv zeta. rewrite Hle. reflexivity.
Qed.

Lemma parse_mixed_range_witness :
  parse_price_range (txt "71 L - 2.11 Cr")
  = (Some (float_of_Z 71), Some (float_of_Z 211)).
Proof.
  apply (parse_mixed_range (txt "71") (txt "2.11") (float_of_Z 71)
           (S754_finite false 4751297606875873 (-51)));
    vm_compute; reflexivity.
Defined.

(** ** Trimmed and collapsed text *)

(** Every whitespace character of [s] is a single space that does not
    follow whitespace ([in_ws] tells what precedes [s]). *)
Fixpoint collapsed_from (in_ws : bool) (s : text) : bool :=
  match s with
  | [] => true
  | c :: s' =>
      if is_space c
      then negb in_ws && ceqb c " " && collapsed_from true s'
      else collapsed_from false s'
  end.

Definition head_nonspace (s : text) : bool :=
  match s with
  | [] => true
  | c :: _ => negb (is_space c)
  end.

Definition ends_with_space (s : text) : bool :=
  match rev s with
  | [] => false
  | c :: _ => is_space c
  end.

Lemma collapsed_collapse b s : collapsed_from b (collapse_from b s) = true.
Proof.
  revert b. induction s as [|c s IH]; intros b; [reflexivity|].
  cbn [collapse_from]. destruct (is_space c) eqn:E.
  - destruct b; [apply IH|]. cbn [collapsed_from].
    change (is_space " ") with true. cbv iota. rewrite IH. reflexivity.
  - cbn [collapsed_from]. rewrite E. apply IH.
Qed.

Lemma collapsed_fix b s : collapsed_from b s = true -> collapse_from b s = s.
Proof.
  revert b. induction s as [|c s IH]; intros b; [reflexivity|].
  cbn [collapsed_from collapse_from]. destruct (is_space c).
  - intros H. apply andb_true_iff in H as [H H3].
    apply andb_true_iff in H as [H1 H2].
    apply negb_true_iff in H1. subst b.
    apply Ascii.eqb_eq in H2. subst c. rewrite (IH _ H3). reflexivity.
  - intros H. rewrite (IH _ H). reflexivity.
Qed.

Lemma collapsed_weaken b s :
  collapsed_from b s = true -> collapsed_from false s = true.
Proof.
  destruct s as [|c s]; [reflexivity|]. cbn [collapsed_from].
  destruct (is_space c); [|auto]. destruct b; [discriminate|auto].
Qed.

Lemma collapsed_take b n s :
  collapsed_from b s = true -> collapsed_from b (take n s) = true.
Proof.
  revert b s. induction n as [|n IH]; intros b [|c s]; try reflexivity.
  cbn [take firstn collapsed_from]. destruct (is_space c).
  - intros H. apply andb_true_iff in H as [H H3]. rewrite H, (IH _ _ H3). reflexivity.
  - apply IH.
Qed.

Lemma collapsed_lstrip b s :
  collapsed_from b s = true -> collapsed_from false (lstrip s) = true.
Proof.
  unfold lstrip. revert b. induction s as [|c s IH]; intros b; [reflexivity|].
  cbn [collapsed_from drop_while]. destruct (is_space c) eqn:E.
  - intros H. apply andb_true_iff in H as [_ H]. exact (IH _ H).
  - intros H. cbn [collapsed_from]. rewrite E. exact H.
Qed.

Lemma drop_while_drop p s : exists j, drop_while p s = drop j s.
Proof.
  induction s as [|c s [j IH]]; [exists O; reflexivity|].
  cbn [drop_while]. destruct (p c); [exists (S j); exact IH|exists O; reflexivity].
Qed.

Lemma rstrip_take s : exists n, rstrip s = take n s.
Proof.
  unfold rstrip. destruct (drop_while_drop is_space (rev s)) as [j ->].
  exists (length s - j)%nat. rewrite skipn_rev, rev_involutive. reflexivity.
Qed.

Lemma collapsed_strip b s :
  collapsed_from b s = true -> collapsed_from false (strip s) = true.
Proof.
  intros H. unfold strip. destruct (rstrip_take (lstrip s)) as [n ->].
  apply collapsed_take. exact (collapsed_lstrip _ _ H).
Qed.

Lemma head_nonspace_lstrip s : head_nonspace (lstrip s) = true.
Proof.
  unfold lstrip. induction s as [|c s IH]; [reflexivity|].
  cbn [drop_while]. destruct (is_space c) eqn:E; [exact IH|].
  cbn. rewrite E. reflexivity.
Qed.

Lemma head_nonspace_take n s :
  head_nonspace s = true -> head_nonspace (take n s) = true.
Proof. destruct n, s; auto. Qed.

Lemma head_nonspace_strip s : head_nonspace (strip s) = true.
Proof.
  unfold strip. destruct (rstrip_take (lstrip s)) as [n ->].
  apply head_nonspace_take, head_nonspace_lstrip.
Qed.

Lemma head_nonspace_collapse s :
  head_nonspace s = true -> head_nonspace (collapse_ws s) = true.
Proof.
  destruct s as [|c s]; [reflexivity|]. cbn. intros H.
  apply negb_true_iff in H. rewrite H. cbn. rewrite H. reflexivity.
Qed.

Lemma lstrip_fix s : head_nonspace s = true -> lstrip s = s.
Proof.
  destruct s as [|c s]; [reflexivity|]. cbn. intros H.
  apply negb_true_iff in H. rewrite H. reflexivity.
Qed.

Lemma rstrip_fix s : ends_with_space s = false -> rstrip s = s.
Proof.
  unfold ends_with_space, rstrip. destruct (rev s) as [|c r] eqn:E.
  - intros _. apply (f_equal (@rev ascii)) in E. rewrite rev_involutive in E.
    subst s. reflexivity.
  - intros H. cbn [drop_while]. rewrite H. rewrite <- E. apply rev_involutive.
Qed.

Lemma strip_fix s :
  head_nonspace s = true -> ends_with_space s = false -> strip s = s.
Proof.
  intros H1 H2. unfold strip. rewrite (lstrip_fix _ H1). apply rstrip_fix, H2.
Qed.

Lemma ends_with_space_rstrip s : ends_with_space (rstrip s) = false.
Proof.
  unfold ends_with_space, rstrip. rewrite rev_involutive.
  induction (rev s) as [|c r IH]; [reflexivity|].
  cbn [drop_while]. destruct (is_space c) eqn:E; [exact IH|exact E].
Qed.

Lemma strip_idem s : strip (strip s) = strip s.
Proof.
  apply strip_fix; [apply head_nonspace_strip|].
  unfold strip. apply ends_with_space_rstrip.
Qed.

(** ** The normaliser on its own output *)

(** None of the junk substrings occurs in [t], in any case. *)
Definition junk_free (t : text) : bool :=
  forallb (fun junk => negb (contains junk (lower t))) PROPERTY_JUNK_SUBSTRINGS.

(** A text the normaliser leaves alone: no junk in it, no whitespace at
    its end. *)
Definition settled (t : text) : bool := junk_free t && negb (ends_with_space t).

(** Trimmed on the left, whitespace collapsed. *)
Definition tidy (t : text) : bool := collapsed_from false t && head_nonspace t.

Lemma tidy_strip_junk t junk : tidy t = true -> tidy (strip_junk t junk) = true.
Proof.
  unfold strip_junk. destruct (contains junk (lower t)); [intros _|auto].
  unfold tidy. rewrite head_nonspace_strip.
  rewrite (collapsed_strip false); [reflexivity|]. apply collapsed_collapse.
Qed.

Lemma tidy_fold js : forall t, tidy t = true -> tidy (fold_left strip_junk js t) = true.
Proof.
  induction js as [|j js IH]; intros t H; [exact H|].
  cbn [fold_left]. apply IH, tidy_strip_junk, H.
Qed.

Lemma tidy_normalize v n : tidy (_normalize_str v n) = true.
Proof.
  unfold _normalize_str. destruct v as [s|]; [|reflexivity].
  destruct (is_empty s); [reflexivity|].
  destruct (is_empty (collapse_ws (strip s))); [reflexivity|].
  assert (H : tidy (fold_left strip_junk PROPERTY_JUNK_SUBSTRINGS
                      (collapse_ws (strip s))) = true).
  { apply tidy_fold. unfold tidy.
    rewrite head_nonspace_collapse by apply head_nonspace_strip.
    unfold collapse_ws. rewrite collapsed_collapse. reflexivity. }
  unfold tidy in *. apply andb_true_iff in H as [H1 H2].
  rewrite collapsed_take, head_nonspace_take by assumption. reflexivity.
Qed.

Lemma length_normalize v n : (length (_normalize_str v n) <= n)%nat.
Proof.
  unfold _normalize_str. destruct v as [s|]; [|cbn; lia].
  destruct (is_empty s); [cbn; lia|].
  destruct (is_empty _); [cbn; lia|]. rewrite length_take. lia.
Qed.

Lemma junk_free_fold js t :
  forallb (fun junk => negb (contains junk (lower t))) js = true ->
  fold_left strip_junk js t = t.
Proof.
  induction js as [|j js IH]; [reflexivity|]. cbn [forallb fold_left].
  intros H. apply andb_true_iff in H as [Hj Hjs]. apply negb_true_iff in Hj.
  unfold strip_junk at 2. rewrite Hj. exact (IH Hjs).
Qed.

(** A settled output of the normaliser is a fixed point of it. *)
Lemma normalize_settled v n :
  settled (_normalize_str v n) = true ->
  _normalize_str (Some (_normalize_str v n)) n = _normalize_str v n.
Proof.
  pose proof (tidy_normalize v n) as Ht. pose proof (length_normalize v n) as Hl.
  set (t := _normalize_str v n) in *. intros Hs.
  unfold settled in Hs. apply andb_true_iff in Hs as [Hj He].
  apply negb_true_iff in He.
  unfold tidy in Ht. apply andb_true_iff in Ht as [Hc Hh].
  unfold _normalize_str at 1. destruct (is_empty t) eqn:E0.
  { destruct t; [reflexivity|discriminate]. }
  rewrite (strip_fix _ Hh He). unfold collapse_ws. rewrite (collapsed_fix _ _ Hc).
  rewrite E0. rewrite (junk_free_fold _ _ Hj). apply take_ge. exact Hl.
Qed.

(** ** The verifier on its own output *)

Lemma coerce_price_val p : coerce_price (val_of_num p) = Some p.
Proof. destruct p as [[z|f]|]; reflexivity. Qed.

Lemma bound_price_idem p : bound_price (bound_price p) = bound_price p.
Proof.
  destruct p as [x|]; [|reflexivity]. cbn.
  destruct (py_lt x _ || py_gt x _) eqn:E; [reflexivity|]. cbn. rewrite E. reflexivity.
Qed.

Lemma clean_prices_idem vmin vmax :
  let pp := clean_prices vmin vmax in
  clean_prices (val_of_num (fst pp)) (val_of_num (snd pp)) = pp.
Proof.
  cbv zeta. unfold clean_prices at 1. unfold coerce_prices.
  rewrite !coerce_price_val.
  unfold clean_prices. destruct (coerce_prices vmin vmax) as [a b].
  destruct (order_prices_cases (bound_price a) (bound_price b))
    as [[E Hord]|(x & y & Ea & Eb & Hgt & E)]; rewrite E; cbn [fst snd].
  - rewrite !bound_price_idem. exact E.
  - rewrite <- Ea, <- Eb, !bound_price_idem, Ea, Eb.
    cbn [order_prices]. rewrite (py_gt_asym _ _ Hgt). reflexivity.
Qed.

Lemma clean_year_idem hy : clean_year (clean_year hy) = clean_year hy.
Proof.
  assert (H : forall z, clean_year (bound_year z) = bound_year z).
  { intros z. unfold bound_year.
    destruct ((z <? _) || (z >? _)) eqn:E; [reflexivity|].
    cbn [clean_year]. unfold bound_year. rewrite E. reflexivity. }
  destruct hy as [|z|s]; cbn [clean_year]; [reflexivity|apply H|].
  destruct (py_int s); [apply H|reflexivity].
Qed.

Lemma text_eqb_eq a b : text_eqb a b = true -> a = b.
Proof.
  revert b. induction a as [|x a IH]; intros [|y b]; try discriminate; [reflexivity|].
  cbn. intros H. apply andb_true_iff in H as [H1 H2].
  apply Ascii.eqb_eq in H1. rewrite H1, (IH _ H2). reflexivity.
Qed.

Lemma clean_status_idem v : clean_status (Some (clean_status v)) = clean_status v.
Proof.
  assert (H : forall s, In s STATUSES -> clean_status (Some s) = s).
  { intros s [<-|[<-|[<-|[]]]]; vm_compute; reflexivity. }
  apply H. unfold clean_status.
  destruct (existsb _ STATUSES) eqn:E; [|left; reflexivity].
  apply existsb_exists in E as (c & Hc & Ec).
  apply text_eqb_eq in Ec. rewrite Ec. exact Hc.
Qed.

Lemma or_empty_some x : or_empty (Some x) = x.
Proof. reflexivity. Qed.

Lemma clean_source_idem v : clean_source (Some (clean_source v)) = clean_source v.
Proof.
  unfold clean_source. rewrite or_empty_some.
  destruct (is_empty (strip (or_empty v))) eqn:E.
  - vm_compute. reflexivity.
  - rewrite strip_idem, E. reflexivity.
Qed.

Lemma is_alnum_not_space c : is_alnum c = true -> is_space c = false.
Proof.
  destruct c as [[] [] [] [] [] [] [] []]; vm_compute; intros H;
    solve [reflexivity | discriminate H].
Qed.

Lemma strip_no_space s :
  forallb (fun c => negb (is_space c)) s = true -> strip s = s.
Proof.
  intros H. apply strip_fix.
  - destruct s as [|c s]; [reflexivity|]. cbn in *.
    apply andb_true_iff in H. tauto.
  - unfold ends_with_space. destruct (rev s) as [|c r] eqn:E; [reflexivity|].
    rewrite forallb_forall in H. apply negb_true_iff, H, in_rev.
    rewrite E. left. reflexivity.
Qed.

Lemma clean_id_idem v u : clean_id (Some (clean_id v u)) u = clean_id v u.
Proof.
  unfold clean_id. rewrite or_empty_some.
  set (fallback := last_n 14 (List.filter is_alnum u)).
  destruct (is_empty (strip (or_empty v))) eqn:E.
  - rewrite strip_no_space.
    + destruct (is_empty fallback); reflexivity.
    + unfold fallback, last_n. rewrite forallb_forall. intros c Hc.
      apply list_elem_of_In, subseteq_drop in Hc.
      apply list_elem_of_In, filter_In in Hc as [_ Hc].
      rewrite (is_alnum_not_space _ Hc). reflexivity.
  - rewrite strip_idem, E. reflexivity.
Qed.

Lemma checked_url_idem record u :
  checked_url record = Some u ->
  forall r, url r = Some u -> checked_url r = Some u.
Proof.
  unfold checked_url. intros H r ->.
  destruct (is_empty _ || negb _) eqn:E; [discriminate|].
  injection H as <-. rewrite or_empty_some, strip_idem, E. reflexivity.
Qed.

Lemma checked_name_idem record n :
  checked_name record = Some n -> settled n = true ->
  forall r, name r = Some n -> checked_name r = Some n.
Proof.
  unfold checked_name. intros H Hs r ->.
  destruct (is_empty _ || _is_junk_project_name _) eqn:E; [discriminate|].
  injection H as <-. rewrite (normalize_settled _ _ Hs), E. reflexivity.
Qed.

(** The free-text fields of a cleaned record are settled; the display
    counts only when both prices are null, as it is regenerated from the
    prices otherwise. *)
Definition settled_field (v : option text) : bool :=
  match v with
  | Some t => settled t
  | None => true
  end.

Definition text_settled (r : property) : bool :=
  settled_field (name r) && settled_field (builder r)
  && settled_field (locality r) && settled_field (handover r)
  && settled_field (bhk r)
  && match price_min_lakhs r, price_max_lakhs r with
     | VNone, VNone => settled_field (price_display r)
     | _, _ => true
     end.

Definition resort_record : property :=
  {| pid := Some (txt "r1"); source := Some (txt "99acres");
     status := Some (txt "new_launch");
     name := Some (txt "Lake Resort List By Prestige");
     builder := Some (txt "Prestige"); locality := Some (txt "Whitefield");
     price_min_lakhs := VInt 71; price_max_lakhs := VInt 211;
     price_display := None; handover := Some (txt "Sep 2028");
     handover_year := YInt 2028; bhk := Some (txt "2, 3");
     url := Some (txt "https://www.99acres.com/lake-resort-npxid-r1") |}.

(** A record whose name holds the junk word "list": removing it leaves
    "Resort By", in which the junk substring "sort by" then occurs. *)
Definition resort_list_record : property :=
  {| pid := Some (txt "r2"); source := Some (txt "99acres");
     status := Some (txt "new_launch");
     name := Some (txt "Resort List By");
     builder := Some (txt "Resort"); locality := Some (txt "Whitefield");
     price_min_lakhs := VInt 71; price_max_lakhs := VInt 211;
     price_display := None; handover := Some (txt "Sep 2028");
     handover_year := YInt 2028; bhk := Some (txt "2, 3");
     url := Some (txt "https://www.99acres.com/resort-npxid-r2") |}.

(** C3: the claim is violated.  [_normalize_str] removes the junk
    substrings in one pass over the list, so removing a later one can
    bring an earlier one about: removing "list" from "Lake Resort List By
    Prestige" leaves "Lake Resort By Prestige", in which "sort by" now
    occurs.  A second run of the verifier, which [main] makes on what
    [run_scraper] has verified, removes it and returns another name; and
    the record that the first run names "Resort By" is rejected by the
    second, its name being cut down to "Re". *)
Theorem verify_not_idempotent :
  (exists r r',
      verify_and_clean_property resort_record = Some r
      /\ name r = Some (txt "Lake Resort By Prestige")
      /\ verify_and_clean_property r = Some r'
      /\ name r' = Some (txt "Lake Re Prestige")
      /\ r' <> r
      /\ finish [resort_record] = [r]
      /\ omap verify_and_clean_property (finish [resort_record]) = [r'])
  /\ (exists q,
        verify_and_clean_property resort_list_record = Some q
        /\ name q = Some (txt "Resort By")
        /\ verify_and_clean_property q = None
        /\ finish [resort_list_record] = [q]
        /\ omap verify_and_clean_property (finish [resort_list_record]) = []).
Proof.
  split.
  - eexists. eexists. split; [vm_compute; reflexivity|].
    split; [reflexivity|]. split; [vm_compute; reflexivity|].
    split; [reflexivity|]. split; [discriminate|].
    split; vm_compute; reflexivity.
  - eexists. split; [vm_compute; reflexivity|].
    split; [reflexivity|]. repeat split; vm_compute; reflexivity.
Qed.

(** Where the second run changes nothing: when the verifier returns a
    record whose free-text fields are settled (they contain none of the
    junk substrings and do not end in whitespace), running it again on
    that record returns the very same record, field by field. *)
Theorem verify_idempotent_on_settled (record r : property) :
  verify_and_clean_property record = Some r ->
  text_settled r = true ->
  verify_and_clean_property r = Some r.
Proof.
  intros Hv Hs. destruct (verify_inv _ _ Hv) as (u & n & Hu & Hn & E).
  cbv zeta in E. set (pp := clean_prices _ _) in E.
  pose proof (clean_prices_idem (price_min_lakhs record) (price_max_lakhs record))
    as Hpp. cbv zeta in Hpp. fold pp in Hpp.
  subst r. unfold text_settled in Hs.
  cbn [name builder locality handover bhk price_min_lakhs price_max_lakhs
       price_display settled_field] in Hs.
  do 5 (apply andb_true_iff in Hs as [Hs ?]).
  unfold verify_and_clean_property.
  rewrite (checked_url_idem _ _ Hu) by reflexivity.
  rewrite (checked_name_idem _ _ Hn) by (assumption || reflexivity).
  cbn [pid source status name builder locality price_min_lakhs price_max_lakhs
       price_display handover handover_year bhk url].
  rewrite Hpp. destruct pp as [pmin pmax]. cbn [fst snd] in *.
  rewrite clean_id_idem, clean_source_idem, clean_status_idem, clean_year_idem.
  rewrite !normalize_settled by assumption.
  destruct pmin as [[?|?]|], pmax as [[?|?]|]; cbn [val_of_num] in *;
    try reflexivity.
  rewrite normalize_settled by assumption. reflexivity.
Qed.

Lemma verify_idempotent_on_settled_witness :
  verify_and_clean_property sample_prestige_cleaned = Some sample_prestige_cleaned.
Proof.
  apply (verify_idempotent_on_settled sample_prestige sample_prestige_cleaned).
  - vm_compute. reflexivity.
  - vm_compute. reflexivity.
Defined.

(** * Further properties of the verifier *)

Lemma verify_price_invariant_witness :
  verify_and_clean_property sample_prestige = Some sample_prestige_cleaned
  /\ in_bounds (NInt 71) = true.
Proof.
  assert (H : verify_and_clean_property sample_prestige = Some sample_prestige_cleaned)
    by (vm_compute; reflexivity).
  split; [exact H|].
  apply (proj1 (verify_price_invariant sample_prestige sample_prestige_cleaned H)
           (NInt 71)); reflexivity.
Defined.







(** A text field of a cleaned record: present, at most [n] characters,
    without whitespace at its start, every whitespace in it a single
    space. *)
Definition clean_field (v : option text) (n : nat) : Prop :=
  exists t, v = Some t /\ (length t <= n)%nat /\ tidy t = true.

Lemma clean_field_normalize v n : clean_field (Some (_normalize_str v n)) n.
Proof.
  exists (_normalize_str v n).
  split; [reflexivity|]. split; [apply length_normalize|apply tidy_normalize].
Qed.

(** The free-text fields of a record hold ASCII text only. *)
Definition ascii_texts (record : property) : bool :=
  isascii_field (name record) && isascii_field (builder record)
  && isascii_field (locality record) && isascii_field (handover record)
  && isascii_field (bhk record).

(** X3: for a record whose free-text fields are ASCII text, the free-text
    fields of the cleaned record are bounded and tidy: the name has 4 to
    200 characters and is not a junk name; builder, locality, handover and
    bhk have at most 100, 150, 50 and 30 characters; none of them starts
    with whitespace or holds whitespace other than single spaces. *)
Theorem verify_text_bounds (record r : property) :
  ascii_texts record = true ->
  verify_and_clean_property record = Some r ->
  (exists n, name r = Some n /\ (4 <= length n <= 200)%nat /\ tidy n = true
             /\ _is_junk_project_name n = false)
  /\ clean_field (builder r) 100 /\ clean_field (locality r) 150
  /\ clean_field (handover r) 50 /\ clean_field (bhk r) 30.
Proof.
  intros _ Hv. destruct (verify_inv _ _ Hv) as (u & n & _ & Hn & ->).
  cbn [name builder locality handover bhk].
  split; [|repeat split; apply clean_field_normalize].
  exists n. split; [reflexivity|].
  pose proof (checked_name_not_junk _ _ Hn) as Hj.
  unfold checked_name in Hn.
  destruct (is_empty _ || _); [discriminate|]. injection Hn as <-.
  split; [|split; [apply tidy_normalize|exact Hj]].
  split; [|apply length_normalize].
  unfold _is_junk_project_name in Hj.
  destruct (is_empty _ || (length _ <? 4)%nat) eqn:E; [discriminate|].
  apply orb_false_iff in E as [_ E]. apply Nat.ltb_ge in E. exact E.
Qed.

Lemma verify_text_bounds_witness : clean_field (builder sample_prestige_cleaned) 100.
Proof.
  apply (verify_text_bounds sample_prestige sample_prestige_cleaned);
    vm_compute; reflexivity.
Defined.








(** X6: when the verifier accepts its own output again, the second record
    agrees with the first on id, source, status, url, both prices and the
    handover year, and on the display whenever a price is present: only the
    free-text fields can differ. *)
Theorem verify_twice_fields (record r r' : property) :
  verify_and_clean_property record = Some r ->
  verify_and_clean_property r = Some r' ->
  pid r' = pid r /\ source r' = source r /\ status r' = status r
  /\ url r' = url r
  /\ price_min_lakhs r' = price_min_lakhs r
  /\ price_max_lakhs r' = price_max_lakhs r
  /\ handover_year r' = handover_year r
  /\ (price_min_lakhs r <> VNone \/ price_max_lakhs r <> VNone ->
      price_display r' = price_display r).
Proof.
  intros Hv Hv'. destruct (verify_inv _ _ Hv) as (u & n & Hu & Hn & E).
  destruct (verify_inv _ _ Hv') as (u' & n' & Hu' & Hn' & E').
  cbv zeta in E, E'. set (pp := clean_prices _ _) in E.
  pose proof (clean_prices_idem (price_min_lakhs record) (price_max_lakhs record))
    as Hpp. cbv zeta in Hpp. fold pp in Hpp.
  assert (Eu : u' = u).
  { rewrite (checked_url_idem _ _ Hu r) in Hu' by (rewrite E; reflexivity).
    congruence. }
  subst u'. rewrite E'. clear E'. rewrite E at 1 2 3 4 5 6 7 8 9.
  cbn [pid source status url price_min_lakhs price_max_lakhs handover_year
       price_display].
  rewrite E. cbn [pid source status url price_min_lakhs price_max_lakhs
                  handover_year price_display].
  rewrite Hpp, clean_id_idem, clean_source_idem, clean_status_idem, clean_year_idem.
  repeat split.
  intros Hnn. destruct pp as [[a|] [b|]]; cbn [fst snd val_of_num] in *; try reflexivity.
  destruct Hnn as [H|H]; exfalso; apply H; reflexivity.
Qed.

Definition resort_once : property :=
  Eval vm_compute in default resort_record (verify_and_clean_property resort_record).

Definition resort_twice : property :=
  Eval vm_compute in default resort_record (verify_and_clean_property resort_once).

Lemma verify_twice_fields_witness :
  name resort_twice <> name resort_once
  /\ pid resort_twice = pid resort_once /\ url resort_twice = url resort_once
  /\ price_min_lakhs resort_twice = price_min_lakhs resort_once.
Proof.
  split; [discriminate|].
  pose proof (verify_twice_fields resort_record resort_once resort_twice
                ltac:(vm_compute; reflexivity) ltac:(vm_compute; reflexivity)) as H.
  tauto.
Defined.

(** * Further properties of the price-range parser *)

(** The character [c] does not occur in [t], in either case. *)
Definition absent (c : ascii) (t : text) : bool :=
  forallb (fun x => negb (ceqb_ci c x)) t.

Lemma forallb_replace_from (P : ascii -> bool) eq old k s :
  forallb P s = true -> forallb P (replace_from eq old [] k s) = true.
Proof.
  revert k. induction s as [|c s IH]; intros k H; [reflexivity|].
  cbn [forallb] in H. apply andb_true_iff in H as [Hc Hs].
  cbn [replace_from]. destruct k as [|k]; [|exact (IH _ Hs)].
  destruct (prefix_by eq old (c :: s)); [exact (IH _ Hs)|].
  cbn [forallb]. rewrite Hc, (IH _ Hs). reflexivity.
Qed.

Lemma forallb_take (P : ascii -> bool) n s :
  forallb P s = true -> forallb P (take n s) = true.
Proof.
  rewrite !forallb_forall. intros H x Hx. apply H.
  apply list_elem_of_In. apply list_elem_of_In in Hx.
  exact (subseteq_take n s x Hx).
Qed.

Lemma forallb_drop (P : ascii -> bool) n s :
  forallb P s = true -> forallb P (drop n s) = true.
Proof.
  rewrite !forallb_forall. intros H x Hx. apply H.
  apply list_elem_of_In. apply list_elem_of_In in Hx.
  exact (subseteq_drop n s x Hx).
Qed.

Lemma forallb_strip (P : ascii -> bool) s :
  forallb P s = true -> forallb P (strip s) = true.
Proof.
  intros H. unfold strip. destruct (rstrip_take (lstrip s)) as [n ->].
  apply forallb_take. unfold lstrip.
  destruct (drop_while_drop is_space s) as [j ->]. apply forallb_drop, H.
Qed.

(** The text the patterns are run on holds only characters of the input. *)
Lemma forallb_raw (P : ascii -> bool) t :
  forallb P t = true ->
  forallb P (strip (replace rupee [] (replace (txt ",") [] t))) = true.
Proof.
  intros H. apply forallb_strip. unfold replace.
  apply forallb_replace_from, forallb_replace_from, H.
Qed.

Lemma search_absent c r t :
  must_contain c r = true -> absent c t = true -> search r t = None.
Proof. intros Hm Ha. apply dead_search. exact (must_contain_dead c r t Hm Ha). Qed.

(** The branches that need a hyphen, the letter C, the letter L or the
    letter O fall through on a text without it. *)
Lemma no_hyphen_branches raw :
  absent "-" raw = true ->
  branch_cr_range raw = None /\ branch_lakh_range raw = None
  /\ branch_mixed_range raw = None.
Proof.
  intros H. unfold branch_cr_range, branch_lakh_range, branch_mixed_range.
  rewrite !(search_absent "-") by (reflexivity || exact H). auto.
Qed.

Lemma no_C_branches raw :
  absent "C" raw = true ->
  branch_cr_range raw = None /\ branch_mixed_range raw = None
  /\ branch_cr_onwards raw = None /\ search re_single_cr raw = None.
Proof.
  intros H. unfold branch_cr_range, branch_mixed_range, branch_cr_onwards.
  rewrite !(search_absent "C") by (reflexivity || exact H). auto.
Qed.

Lemma no_L_branches raw :
  absent "L" raw = true ->
  branch_lakh_range raw = None /\ branch_mixed_range raw = None
  /\ branch_lakh_onwards raw = None /\ search re_single_l raw = None.
Proof.
  intros H. unfold branch_lakh_range, branch_mixed_range, branch_lakh_onwards.
  rewrite !(search_absent "L") by (reflexivity || exact H). auto.
Qed.

Lemma no_O_branch raw : absent "O" raw = true -> branch_lakh_onwards raw = None.
Proof.
  intros H. unfold branch_lakh_onwards.
  rewrite (search_absent "O") by (reflexivity || exact H). reflexivity.
Qed.

(** X7: no unit, no price: a text in which neither the letter C nor the
    letter L occurs, in either case, is parsed as (None, None). *)
Theorem parse_needs_unit (t : text) :
  absent "C" t = true -> absent "L" t = true ->
  parse_price_range t = (None, None).
Proof.
  intros HC HL. unfold parse_price_range.
  destruct (is_empty t); [reflexivity|].
  set (raw := strip _).
  assert (HC' : absent "C" raw = true) by (apply forallb_raw; exact HC).
  assert (HL' : absent "L" raw = true) by (apply forallb_raw; exact HL).
  destruct (no_C_branches raw HC') as (-> & B3 & -> & S1).
  destruct (no_L_branches raw HL') as (-> & _ & -> & S2).
  rewrite B3. unfold branch_single. rewrite S1, S2. reflexivity.
Qed.

Lemma parse_needs_unit_witness :
  parse_price_range (txt "Starting from 45 to 90") = (None, None).
Proof. apply parse_needs_unit; vm_compute; reflexivity. Defined.

(** ** What a captured number is made of *)

Lemma star_match_some {A} p s (k : text -> option A) x :
  star_match p s k = Some x ->
  exists a rest, s = a ++ rest /\ forallb p a = true /\ k rest = Some x.
Proof.
  induction s as [|c s IH]; cbn [star_match]; intros H.
  - exists [], []. auto.
  - destruct (p c) eqn:Hc; [|exists [], (c :: s); auto].
    destruct (star_match p s k) as [y|] eqn:E.
    + injection H as ->. destruct (IH eq_refl) as (a & rest & -> & Ha & Hk).
      exists (c :: a), rest. cbn. rewrite Hc, Ha. auto.
    + exists [], (c :: s). auto.
Qed.

(** Every capturing group of [r] is a number, "([\d.]+)". *)
Fixpoint number_groups (r : regex) : Prop :=
  match r with
  | Grp _ r1 => r1 = Plus is_numch
  | Seq r1 r2 | Alt r1 r2 => number_groups r1 /\ number_groups r2
  | Opt r1 => number_groups r1
  | _ => True
  end.

(** Every captured text is made of number characters that satisfy [P]. *)
Definition caps_ok (P : ascii -> bool) (caps : captures) : bool :=
  forallb (fun iv => forallb is_numch (snd iv) && forallb P (snd iv)) caps.

Lemma forallb_app_r (P : ascii -> bool) a b :
  forallb P (a ++ b) = true -> forallb P b = true.
Proof. intros H. apply forallb_app_split in H. tauto. Qed.

Lemma rmatch_caps_inv {A} (P : ascii -> bool) r :
  number_groups r ->
  forall s caps (k : text -> captures -> option A) x,
    forallb P s = true -> caps_ok P caps = true ->
    rmatch r s caps k = Some x ->
    exists s' caps',
      forallb P s' = true /\ caps_ok P caps' = true /\ k s' caps' = Some x.
Proof.
  induction r as [|c|p|p|p|r1 IH1 r2 IH2|r1 IH1 r2 IH2|r1 IH1|i r1 IH1];
    intros Hg s caps k x Hs Hc H; cbn [rmatch number_groups] in *.
  - eauto.
  - destruct s as [|y s]; [discriminate|]. destruct (ceqb_ci c y); [|discriminate].
    cbn [forallb] in Hs. apply andb_true_iff in Hs as [_ Hs]. eauto.
  - destruct s as [|y s]; [discriminate|]. destruct (p y); [|discriminate].
    cbn [forallb] in Hs. apply andb_true_iff in Hs as [_ Hs]. eauto.
  - apply star_match_some in H as (a & rest & -> & _ & H).
    apply forallb_app_r in Hs. eauto.
  - destruct s as [|y s]; [discriminate|]. destruct (p y); [|discriminate].
    cbn [forallb] in Hs. apply andb_true_iff in Hs as [_ Hs].
    apply star_match_some in H as (a & rest & -> & _ & H).
    apply forallb_app_r in Hs. eauto.
  - destruct Hg as [Hg1 Hg2].
    apply (IH1 Hg1) in H as (s1 & caps1 & Hs1 & Hc1 & H); [|assumption..].
    apply (IH2 Hg2) in H; assumption.
  - destruct Hg as [Hg1 Hg2]. destruct (rmatch r1 s caps k) as [y|] eqn:E.
    + injection H as ->. apply (IH1 Hg1) in E; assumption.
    + apply (IH2 Hg2) in H; assumption.
  - destruct (rmatch r1 s caps k) as [y|] eqn:E.
    + injection H as ->. apply (IH1 Hg) in E; assumption.
    + eauto.
  - subst r1. cbn [rmatch] in H.
    destruct s as [|y s]; [discriminate|]. destruct (is_numch y) eqn:Hy; [|discriminate].
    apply star_match_some in H as (a & rest & -> & Ha & H).
    change (y :: a ++ rest) with ((y :: a) ++ rest) in H, Hs.
    rewrite consumed_app in H.
    apply forallb_app_split in Hs as [Hs1 Hs2].
    exists rest, ((i, y :: a) :: caps). split; [exact Hs2|]. split; [|exact H].
    cbn [caps_ok forallb snd]. cbn [forallb] in Hs1 |- *.
    rewrite Hy, Ha, Hs1. exact Hc.
Qed.

Lemma search_caps_inv (P : ascii -> bool) r s m :
  number_groups r -> forallb P s = true -> search r s = Some m ->
  caps_ok P m = true.
Proof.
  intros Hg. induction s as [|c s IH]; cbn [search]; intros Hs H.
  - destruct (match_here r []) as [caps|] eqn:E; [|discriminate].
    injection H as ->. unfold match_here in E.
    apply (rmatch_caps_inv P r Hg) in E as (s' & caps' & _ & Hc & [= <-]); auto.
  - destruct (match_here r (c :: s)) as [caps|] eqn:E.
    + injection H as ->. unfold match_here in E.
      apply (rmatch_caps_inv P r Hg) in E as (s' & caps' & _ & Hc & [= <-]); auto.
    + apply IH; [|exact H]. cbn [forallb] in Hs. apply andb_true_iff in Hs. tauto.
Qed.

Lemma group_caps_ok (P : ascii -> bool) caps i :
  caps_ok P caps = true ->
  forallb is_numch (group caps i) = true /\ forallb P (group caps i) = true.
Proof.
  induction caps as [|[j v] caps IH]; cbn [caps_ok forallb group snd]; intros H.
  - auto.
  - apply andb_true_iff in H as [Hv Hc]. apply andb_true_iff in Hv.
    destruct (Nat.eqb i j); [exact Hv|exact (IH Hc)].
Qed.

Definition not_digit (c : ascii) : bool := negb (is_digit c).

Lemma only_point c : is_numch c = true -> not_digit c = true -> c = "."%char.
Proof.
  unfold is_numch, not_digit. intros H1 H2. apply negb_true_iff in H2.
  rewrite H2 in H1. apply Ascii.eqb_eq in H1. exact H1.
Qed.

(** [float] rejects a text made of points only. *)
Lemma py_float_points v :
  forallb is_numch v = true -> forallb not_digit v = true -> py_float v = None.
Proof.
  intros H1 H2. unfold py_float. rewrite strip_no_space.
  2:{ rewrite forallb_forall in *. intros c Hc.
      rewrite (only_point c (H1 c Hc) (H2 c Hc)). reflexivity. }
  destruct v as [|c v]; [reflexivity|].
  cbn [forallb] in H1, H2.
  apply andb_true_iff in H1 as [Hc1 H1]. apply andb_true_iff in H2 as [Hc2 H2].
  rewrite (only_point c Hc1 Hc2).
  destruct v as [|d v]; [reflexivity|].
  cbn [forallb] in H1, H2.
  apply andb_true_iff in H1 as [Hd1 _]. apply andb_true_iff in H2 as [Hd2 _].
  rewrite (only_point d Hd1 Hd2). reflexivity.
Qed.

Lemma number_groups_patterns :
  number_groups re_cr_range /\ number_groups re_lakh_range
  /\ number_groups re_mixed_range /\ number_groups re_lakh_onwards
  /\ number_groups re_cr_onwards /\ number_groups re_single_cr
  /\ number_groups re_single_l.
Proof. cbn. unfold number. tauto. Qed.

(** Without a digit in the text, the number a pattern captures cannot be
    read. *)
Lemma search_no_digit r raw m :
  number_groups r -> forallb not_digit raw = true -> search r raw = Some m ->
  py_float (group m 1) = None.
Proof.
  intros Hg Hd Hs. pose proof (search_caps_inv _ _ _ _ Hg Hd Hs) as Hc.
  destruct (group_caps_ok not_digit m 1 Hc). apply py_float_points; assumption.
Qed.

(** X8: no digit, no price: an ASCII text without a digit is parsed as
    (None, None), whatever units and points it holds. *)
Theorem parse_needs_digit (t : text) :
  isascii t = true ->
  forallb not_digit t = true -> parse_price_range t = (None, None).
Proof.
  intros _ Hd. unfold parse_price_range. destruct (is_empty t); [reflexivity|].
  set (raw := strip _).
  assert (Hr : forallb not_digit raw = true) by (apply forallb_raw; exact Hd).
  destruct number_groups_patterns as (G1 & G2 & G3 & G4 & G5 & G6 & G7).
  unfold branch_cr_range, branch_lakh_range, branch_mixed_range,
    branch_lakh_onwards, branch_cr_onwards, branch_single.
  destruct (search re_cr_range raw) eqn:E1;
    [rewrite (search_no_digit _ _ _ G1 Hr E1)|];
  (destruct (search re_lakh_range raw) eqn:E2;
    [rewrite (search_no_digit _ _ _ G2 Hr E2)|]);
  (destruct (search re_mixed_range raw) eqn:E3;
    [rewrite (search_no_digit _ _ _ G3 Hr E3)|]);
  (destruct (search re_lakh_onwards raw) eqn:E4;
    [rewrite (search_no_digit _ _ _ G4 Hr E4)|]);
  (destruct (search re_cr_onwards raw) eqn:E5;
    [rewrite (search_no_digit _ _ _ G5 Hr E5)|]);
  (destruct (search re_single_cr raw) eqn:E6;
    [rewrite (search_no_digit _ _ _ G6 Hr E6); reflexivity|]);
  (destruct (search re_single_l raw) eqn:E7;
    [rewrite (search_no_digit _ _ _ G7 Hr E7)|]);
  reflexivity.
Qed.

Lemma parse_needs_digit_witness :
  parse_price_range (txt "Price on request . Cr onwards") = (None, None).
Proof. apply parse_needs_digit; vm_compute; reflexivity. Defined.

(** ** Single values and the other ranges *)

Lemma numch_facts' c :
  is_numch c = true ->
  ceqb_ci "O" c = false /\ ceqb_ci "S" c = false /\ ceqb_ci "226" c = false.
Proof.
  destruct c as [[] [] [] [] [] [] [] []]; cbn; intros H;
    try discriminate H; repeat split.
Qed.

Lemma absent_numch x a :
  (forall c, is_numch c = true -> ceqb_ci x c = false) ->
  forallb is_numch a = true -> absent x a = true.
Proof.
  intros Hx. unfold absent. induction a as [|c a IH]; [reflexivity|].
  cbn [forallb]. intros H. apply andb_true_iff in H as [Hc Ha].
  rewrite (Hx c Hc), (IH Ha). reflexivity.
Qed.

Lemma absent_hyphen_numch a : forallb is_numch a = true -> absent "-" a = true.
Proof. apply absent_numch. intros c Hc. apply (numch_facts c Hc). Qed.

Lemma absent_C_numch a : forallb is_numch a = true -> absent "C" a = true.
Proof. apply absent_numch. intros c Hc. apply (numch_facts c Hc). Qed.

Lemma absent_O_numch a : forallb is_numch a = true -> absent "O" a = true.
Proof. apply absent_numch. intros c Hc. apply (numch_facts' c Hc). Qed.

Lemma absent_app x a b :
  absent x a = true -> absent x b = true -> absent x (a ++ b) = true.
Proof. unfold absent. intros Ha Hb. rewrite forallb_app, Ha, Hb. reflexivity. Qed.

(** A numeral followed by plain text is left as it is. *)
Lemma raw_of_suffixed (a e : text) (d : ascii) :
  a <> [] -> forallb is_numch a = true ->
  forallb plain_char (e ++ [d]) = true -> is_space d = false ->
  strip (replace rupee [] (replace (txt ",") [] (a ++ e ++ [d]))) = a ++ e ++ [d].
Proof.
  intros Ha Na Pe Hd.
  exact (raw_of_framed a [] [] e d Ha Na eq_refl eq_refl Pe Hd).
Qed.

Lemma seq_opt_skip {A} r R s caps (k : text -> captures -> option A) :
  rmatch (Seq r R) s caps k = None ->
  rmatch (Seq (Opt r) R) s caps k = rmatch R s caps k.
Proof. cbn [rmatch]. intros H. rewrite H. reflexivity. Qed.

Lemma lit_head_none {A} x l W R c z caps (k : text -> captures -> option A) :
  ceqb_ci x c = false ->
  rmatch (Seq (Seq (lit (x :: l)) W) R) (c :: z) caps k = None.
Proof. intros H. cbn [rmatch lit]. rewrite H. reflexivity. Qed.

Lemma search_cr_onwards_bare (x : text) :
  x <> [] -> forallb is_numch x = true ->
  search re_cr_onwards (x ++ txt " Cr") = Some [(1%nat, x)].
Proof.
  intros Hx Nx. apply search_here. unfold match_here, re_cr_onwards.
  cbn [seqs]. destruct x as [|c x'] eqn:Ex; [contradiction|].
  assert (Hc : is_numch c = true)
    by (cbn [forallb] in Nx; apply andb_true_iff in Nx; tauto).
  destruct (numch_facts' c Hc) as (_ & HS & HR).
  change ((c :: x') ++ txt " Cr") with (c :: x' ++ txt " Cr").
  change (txt "Starting") with ("S"%char :: txt "tarting").
  change (txt "₹") with ("226"%char :: ["130"%char; "185"%char]).
  rewrite seq_opt_skip by (apply lit_head_none; exact HS).
  rewrite seq_opt_skip by (apply lit_head_none; exact HR).
  change (c :: x' ++ txt " Cr") with ((c :: x') ++ txt " Cr").
  cbn [rmatch].
  apply number_greedy; [discriminate|assumption|reflexivity|].
  reflexivity.
Qed.

Lemma search_single_cr_bare (x : text) :
  x <> [] -> forallb is_numch x = true ->
  search re_single_cr (x ++ txt " Cr") = Some [(1%nat, x)].
Proof.
  intros Hx Nx. apply search_here. unfold match_here, re_single_cr.
  cbn [seqs rmatch].
  apply number_greedy; [assumption..|reflexivity|]. reflexivity.
Qed.

(** X9: a bare crore value "X Cr" gives a minimum only, (100*x, None), when
    100*x is below 10000 lakhs; when it is not, the "X Cr onwards" branch
    skips it and the fallback returns it as both ends, (100*x, 100*x),
    without a bound. *)
Theorem parse_bare_crore (X : text) (x : float) :
  forallb is_numch X = true -> py_float X = Some x ->
  parse_price_range (X ++ txt " Cr")
  = if lt_float (fmul x hundred) (float_of_Z 10000)
    then (Some (fmul x hundred), None)
    else (Some (fmul x hundred), Some (fmul x hundred)).
Proof.
  intros NX FX. pose proof (py_float_nonempty _ _ FX) as HX.
  unfold parse_price_range.
  replace (is_empty (X ++ txt " Cr")) with false
    by (destruct X; [contradiction|reflexivity]).
  change (txt " Cr") with (txt " C" ++ ["r"%char]).
  rewrite raw_of_suffixed by (assumption || reflexivity).
  change (txt " C" ++ ["r"%char]) with (txt " Cr").
  destruct (no_hyphen_branches (X ++ txt " Cr")) as (-> & -> & ->).
  { apply absent_app; [apply absent_hyphen_numch; exact NX|reflexivity]. }
  rewrite no_O_branch
    by (apply absent_app; [apply absent_O_numch; exact NX|reflexivity]).
  unfold branch_cr_onwards, branch_single.
  rewrite search_cr_onwards_bare, search_single_cr_bare by assumption.
  cbn [group Nat.eqb]. rewrite FX. cbv zeta.
  destruct (lt_float _ _); reflexivity.
Qed.

Lemma parse_bare_crore_witness :
  parse_price_range (txt "5 Cr") = (Some (float_of_Z 500), None).
Proof.
  apply (parse_bare_crore (txt "5") (float_of_Z 5)); vm_compute; reflexivity.
Defined.

Lemma search_single_l_bare (x : text) :
  x <> [] -> forallb is_numch x = true ->
  search re_single_l (x ++ txt " L") = Some [(1%nat, x)].
Proof.
  intros Hx Nx. apply search_here. unfold match_here, re_single_l.
  cbn [seqs rmatch].
  apply number_greedy; [assumption..|reflexivity|].
  unfold ws. cbn [rmatch].
  change (txt " L") with (txt " " ++ ["L"%char]).
  apply star_match_greedy; [reflexivity..|].
  apply lakh_unit_L. reflexivity.
Qed.

(** X10: a bare lakh value "X L" gives both ends, (x, x), when x is below
    10000, and (None, None) when it is not. *)
Theorem parse_bare_lakh (X : text) (x : float) :
  forallb is_numch X = true -> py_float X = Some x ->
  parse_price_range (X ++ txt " L")
  = if lt_float x (float_of_Z 10000) then (Some x, Some x) else (None, None).
Proof.
  intros NX FX. pose proof (py_float_nonempty _ _ FX) as HX.
  unfold parse_price_range.
  replace (is_empty (X ++ txt " L")) with false
    by (destruct X; [contradiction|reflexivity]).
  change (txt " L") with (txt " " ++ ["L"%char]).
  rewrite raw_of_suffixed by (assumption || reflexivity).
  change (txt " " ++ ["L"%char]) with (txt " L").
  destruct (no_hyphen_branches (X ++ txt " L")) as (-> & -> & ->).
  { apply absent_app; [apply absent_hyphen_numch; exact NX|reflexivity]. }
  rewrite no_O_branch
    by (apply absent_app; [apply absent_O_numch; exact NX|reflexivity]).
  destruct (no_C_branches (X ++ txt " L")) as (_ & _ & -> & S1).
  { apply absent_app; [apply absent_C_numch; exact NX|reflexivity]. }
  unfold branch_single. rewrite S1, search_single_l_bare by assumption.
  cbn [group Nat.eqb]. rewrite FX. reflexivity.
Qed.

Lemma parse_bare_lakh_witness :
  parse_price_range (txt "75 L") = (Some (float_of_Z 75), Some (float_of_Z 75)).
Proof.
  apply (parse_bare_lakh (txt "75") (float_of_Z 75)); vm_compute; reflexivity.
Defined.

Lemma search_lakh_range (x y : text) :
  x <> [] -> y <> [] ->
  forallb is_numch x = true -> forallb is_numch y = true ->
  search re_lakh_range (x ++ txt " L - " ++ y ++ txt " L")
  = Some [(2%nat, y); (1%nat, x)].
Proof.
  intros Hx Hy Nx Ny. apply search_here.
  unfold match_here, re_lakh_range. cbn [seqs rmatch].
  apply number_greedy; [assumption..|reflexivity|].
  unfold ws. cbn [rmatch].
  change (txt " L - " ++ y ++ txt " L")
    with (txt " " ++ "L"%char :: txt " " ++ "-"%char :: txt " " ++ y ++ txt " L").
  apply star_match_greedy; [reflexivity..|].
  apply lakh_unit_L.
  apply star_match_greedy; [reflexivity..|].
  cbn [rmatch]. change (ceqb_ci "-" "-") with true. cbv iota.
  apply star_match_greedy; [reflexivity|apply numch_head_stops_space; assumption|].
  apply number_greedy; [assumption..|reflexivity|].
  change (txt " L") with (txt " " ++ ["L"%char]).
  apply star_match_greedy; [reflexivity..|].
  apply lakh_unit_L. reflexivity.
Qed.

(** X11: for decimal numerals whose values satisfy x <= y < 10000, the text
    "X L - Y L" is parsed as (x, y). *)
Theorem parse_lakh_range (X Y : text) (x y : float) :
  forallb is_numch X = true -> forallb is_numch Y = true ->
  py_float X = Some x -> py_float Y = Some y ->
  le_float x y = true -> lt_float y (float_of_Z 10000) = true ->
  parse_price_range (X ++ txt " L - " ++ Y ++ txt " L") = (Some x, Some y).
Proof.
  intros NX NY FX FY Hle Hlt.
  pose proof (py_float_nonempty _ _ FX) as HX.
  pose proof (py_float_nonempty _ _ FY) as HY.
  unfold parse_price_range.
  replace (is_empty (X ++ txt " L - " ++ Y ++ txt " L")) with false
    by (destruct X; [contradiction|reflexivity]).
  change (txt " L") with (txt " " ++ ["L"%char]).
  rewrite raw_of_framed by (assumption || reflexivity).
  change (txt " " ++ ["L"%char]) with (txt " L").
  destruct (no_C_branches (X ++ txt " L - " ++ Y ++ txt " L")) as (-> & _).
  { apply absent_app; [apply absent_C_numch; exact NX|].
    apply (absent_app "C" (txt " L - ")); [reflexivity|].
    apply absent_app; [apply absent_C_numch; exact NY|reflexivity]. }
  unfold branch_lakh_range. rewrite search_lakh_range by assumption.
  cbn [group Nat.eqb]. rewrite FX, FY, Hle, Hlt. reflexivity.
Qed.

Lemma parse_lakh_range_witness :
  parse_price_range (txt "45 L - 90 L") = (Some (float_of_Z 45), Some (float_of_Z 90)).
Proof.
  apply (parse_lakh_range (txt "45") (txt "90") (float_of_Z 45) (float_of_Z 90));
    vm_compute; reflexivity.
Defined.

Lemma raw_of_tail (a s : text) :
  a <> [] -> forallb is_numch a = true ->
  forallb plain_char s = true -> s <> [] -> ends_with_space s = false ->
  strip (replace rupee [] (replace (txt ",") [] (a ++ s))) = a ++ s.
Proof.
  intros Ha Na Ps Hs He. unfold ends_with_space in He.
  destruct (rev s) as [|d l] eqn:E.
  { apply (f_equal (@rev ascii)) in E. rewrite rev_involutive in E. contradiction. }
  apply (f_equal (@rev ascii)) in E. rewrite rev_involutive in E. cbn in E.
  subst s. apply raw_of_suffixed; assumption.
Qed.

Definition LAKH_WORDS : list text := [txt "lac"; txt "lacs"; txt "lakh"; txt "lakhs"].
Definition ONWARD_WORDS : list text := [txt "onward"; txt "onwards"].

(** X12: "X lacs onwards", with any of the spellings lac, lacs, lakh, lakhs
    and onward or onwards, gives a minimum only, (x, None), when x is below
    10000. *)
Theorem parse_lakh_onwards (X u w : text) (x : float) :
  forallb is_numch X = true -> py_float X = Some x ->
  In u LAKH_WORDS -> In w ONWARD_WORDS ->
  lt_float x (float_of_Z 10000) = true ->
  parse_price_range (X ++ txt " " ++ u ++ txt " " ++ w) = (Some x, None).
Proof.
  intros NX FX Hu Hw Hlt. pose proof (py_float_nonempty _ _ FX) as HX.
  unfold parse_price_range.
  replace (is_empty (X ++ txt " " ++ u ++ txt " " ++ w)) with false
    by (destruct X; [contradiction|reflexivity]).
  assert (Hraw : strip (replace rupee [] (replace (txt ",") []
                   (X ++ txt " " ++ u ++ txt " " ++ w)))
                 = X ++ txt " " ++ u ++ txt " " ++ w).
  { apply raw_of_tail; [assumption..| | |];
      destruct Hu as [<-|[<-|[<-|[<-|[]]]]], Hw as [<-|[<-|[]]];
      solve [reflexivity | discriminate]. }
  rewrite Hraw.
  destruct (no_hyphen_branches (X ++ txt " " ++ u ++ txt " " ++ w)) as (-> & -> & ->).
  { apply absent_app; [apply absent_hyphen_numch; exact NX|].
    destruct Hu as [<-|[<-|[<-|[<-|[]]]]], Hw as [<-|[<-|[]]]; reflexivity. }
  assert (Hs : search re_lakh_onwards (X ++ txt " " ++ u ++ txt " " ++ w)
               = Some [(1%nat, X)]).
  { apply search_here. unfold match_here, re_lakh_onwards. cbn [seqs rmatch].
    apply number_greedy; [assumption..| |];
      destruct Hu as [<-|[<-|[<-|[<-|[]]]]], Hw as [<-|[<-|[]]]; reflexivity. }
  unfold branch_lakh_onwards. rewrite Hs. cbn [group Nat.eqb].
  rewrite FX, Hlt. reflexivity.
Qed.

Lemma parse_lakh_onwards_witness :
  parse_price_range (txt "50 lacs onwards") = (Some (float_of_Z 50), None).
Proof.
  apply (parse_lakh_onwards (txt "50") (txt "lacs") (txt "onwards") (float_of_Z 50));
    try (vm_compute; reflexivity).
  - right. left. reflexivity.
  - right. left. reflexivity.
Defined.

Lemma remove_commas_clean s :
  forallb (fun c => negb (ceqb "," c)) (replace (txt ",") [] s) = true.
Proof.
  unfold replace. change (txt ",") with [","%char].
  induction s as [|c s IH]; [reflexivity|].
  cbn [replace_from prefix_by length Nat.pred].
  destruct (ceqb "," c) eqn:E; cbn [andb app].
  - exact IH.
  - cbn [forallb]. rewrite E, IH. reflexivity.
Qed.

(** X13: thousands separators do not matter: removing the commas from a
    text beforehand does not change what the parser returns. *)
Theorem parse_ignores_commas (t : text) :
  parse_price_range (replace (txt ",") [] t) = parse_price_range t.
Proof.
  unfold parse_price_range.
  assert (E : replace (txt ",") [] (replace (txt ",") [] t) = replace (txt ",") [] t).
  { unfold replace at 1. change (txt ",") with [","%char] at 1.
    apply replace_absent. apply remove_commas_clean. }
  rewrite E. destruct t as [|c t]; [reflexivity|]. cbn [is_empty].
  destruct (replace (txt ",") [] (c :: t)) as [|d t'] eqn:Et; [|reflexivity].
  reflexivity.
Qed.

(** * Further properties of the junk filter and the normaliser *)

Lemma lower_char_idem c : lower_char (lower_char c) = lower_char c.
Proof. destruct c as [[] [] [] [] [] [] [] []]; reflexivity. Qed.

Lemma lower_idem s : lower (lower s) = lower s.
Proof.
  unfold lower. rewrite map_map. apply map_ext. intros c. apply lower_char_idem.
Qed.

Lemma length_strip_le s : (length (strip s) <= length s)%nat.
Proof.
  unfold strip. destruct (rstrip_take (lstrip s)) as [n ->]. unfold lstrip.
  destruct (drop_while_drop is_space s) as [j ->].
  rewrite length_take, length_drop. lia.
Qed.

(** X14: on ASCII names the junk test ignores case, and it ignores
    surrounding whitespace once the trimmed name has 4 characters or more;
    a name shorter than 4 characters is always junk. *)
Theorem junk_test_insensitive (n : text) :
  isascii n = true ->
  _is_junk_project_name (lower n) = _is_junk_project_name n
  /\ ((4 <= length (strip n))%nat ->
      _is_junk_project_name (strip n) = _is_junk_project_name n)
  /\ ((length n < 4)%nat -> _is_junk_project_name n = true).
Proof.
  intros _. split; [|split].
  - unfold _is_junk_project_name.
    replace (is_empty (lower n)) with (is_empty n) by (destruct n; reflexivity).
    unfold lower at 1. rewrite length_map.
    rewrite <- lower_strip, lower_idem. reflexivity.
  - intros H. pose proof (length_strip_le n) as Hl.
    unfold _is_junk_project_name. rewrite strip_idem.
    replace (is_empty (strip n)) with false by (destruct (strip n); [cbn in H; lia|reflexivity]).
    replace (is_empty n) with false by (destruct n; [vm_compute in H; lia|reflexivity]).
    replace (length (strip n) <? 4)%nat with false by (symmetry; apply Nat.ltb_ge; lia).
    replace (length n <? 4)%nat with false by (symmetry; apply Nat.ltb_ge; lia).
    reflexivity.
  - intros H. unfold _is_junk_project_name.
    replace (length n <? 4)%nat with true by (symmetry; apply Nat.ltb_lt; lia).
    rewrite orb_true_r. reflexivity.
Qed.

Lemma junk_test_insensitive_witness :
  _is_junk_project_name (strip (txt "  Prestige Suncrest "))
  = _is_junk_project_name (txt "  Prestige Suncrest ").
Proof.
  apply (junk_test_insensitive (txt "  Prestige Suncrest ")).
  - reflexivity.
  - vm_compute. lia.
Defined.

Lemma ends_with_space_cons c s :
  ends_with_space (c :: s) = if is_empty s then is_space c else ends_with_space s.
Proof.
  unfold ends_with_space. cbn [rev]. destruct s as [|d s]; [reflexivity|].
  cbn [is_empty]. destruct (rev (d :: s)) as [|e r] eqn:E; [|reflexivity].
  apply (f_equal (@length ascii)) in E. rewrite length_rev in E. discriminate.
Qed.

Lemma collapse_true_nil s :
  collapse_from true s = [] -> s <> [] -> ends_with_space s = true.
Proof.
  induction s as [|c s IH]; [contradiction|]. intros H _.
  cbn [collapse_from] in H. destruct (is_space c) eqn:E; [|discriminate].
  rewrite ends_with_space_cons. destruct s as [|d s]; [exact E|].
  cbn [is_empty]. apply IH; [exact H|discriminate].
Qed.

Lemma collapse_keeps_end b s :
  ends_with_space s = false -> ends_with_space (collapse_from b s) = false.
Proof.
  revert b. induction s as [|c s IH]; intros b H; [reflexivity|].
  rewrite ends_with_space_cons in H. cbn [collapse_from].
  destruct s as [|d s].
  - cbn [is_empty] in H. rewrite H. cbn. unfold ends_with_space. cbn. exact H.
  - cbn [is_empty] in H. specialize (IH true H) as IHt.
    destruct (is_space c) eqn:E.
    + destruct b; [exact IHt|]. rewrite ends_with_space_cons.
      destruct (collapse_from true (d :: s)) as [|e r] eqn:Ec; [|exact IHt].
      pose proof (collapse_true_nil _ Ec ltac:(discriminate)). congruence.
    + rewrite ends_with_space_cons. specialize (IH false H) as IHf.
      destruct (collapse_from false (d :: s)) as [|e r] eqn:Ec; [exact E|].
      exact IHf.
Qed.

Lemma ends_with_space_strip s : ends_with_space (strip s) = false.
Proof. unfold strip. apply ends_with_space_rstrip. Qed.

Lemma strip_junk_keeps_end t junk :
  ends_with_space t = false -> ends_with_space (strip_junk t junk) = false.
Proof.
  unfold strip_junk. destruct (contains junk (lower t)); [|auto].
  intros _. apply ends_with_space_strip.
Qed.

Lemma fold_junk_keeps_end js : forall t,
  ends_with_space t = false ->
  ends_with_space (fold_left strip_junk js t) = false.
Proof.
  induction js as [|j js IH]; intros t H; [exact H|].
  cbn [fold_left]. apply IH, strip_junk_keeps_end, H.
Qed.

(** X15: given ASCII text or [None], the normaliser returns a text of at
    most [max_len] characters that does not start with whitespace and in
    which every whitespace is a single space (trimming on the left and
    collapsing again change nothing); it can end with a space only when it
    was cut at exactly [max_len] characters. *)
Theorem normalize_output_shape (v : option text) (max_len : nat) :
  isascii_field v = true ->
  let t := _normalize_str v max_len in
  (length t <= max_len)%nat /\ lstrip t = t /\ collapse_ws t = t
  /\ (ends_with_space t = true -> length t = max_len).
Proof.
  intros _. cbv zeta. pose proof (tidy_normalize v max_len) as Ht.
  unfold tidy in Ht. apply andb_true_iff in Ht as [Hc Hh].
  split; [apply length_normalize|]. split; [apply lstrip_fix, Hh|].
  split; [apply collapsed_fix, Hc|].
  unfold _normalize_str. destruct v as [s|]; [|discriminate].
  destruct (is_empty s); [discriminate|].
  destruct (is_empty (collapse_ws (strip s))); [discriminate|].
  set (t0 := fold_left strip_junk PROPERTY_JUNK_SUBSTRINGS (collapse_ws (strip s))).
  assert (H0 : ends_with_space t0 = false).
  { apply fold_junk_keeps_end, collapse_keeps_end, ends_with_space_strip. }
  intros H. rewrite length_take.
  destruct (Nat.le_gt_cases (length t0) max_len) as [Hle|Hgt]; [|lia].
  rewrite take_ge in H by exact Hle. congruence.
Qed.

Lemma normalize_output_shape_witness :
  ends_with_space (_normalize_str (Some (txt "ab cd")) 3) = true
  /\ length (_normalize_str (Some (txt "ab cd")) 3) = 3%nat.
Proof.
  split; [reflexivity|].
  apply (proj2 (proj2 (proj2
           (normalize_output_shape (Some (txt "ab cd")) 3 eq_refl)))).
  reflexivity.
Defined.

(** * Further properties of the deduplication *)

Lemma dedup_step_sublist ps : forall seen acc,
  exists l, snd (fold_left dedup_step ps (seen, acc)) = acc ++ l /\ sublist l ps.
Proof.
  induction ps as [|p ps IH]; intros seen acc.
  - exists []. cbn. rewrite app_nil_r. split; [reflexivity|constructor].
  - cbn [fold_left dedup_step]. destruct (bool_decide (url p ∈ seen)).
    + destruct (IH seen acc) as (l & -> & Hl). exists l.
      split; [reflexivity|]. apply sublist_cons, Hl.
    + destruct (IH ({[url p]} ∪ seen) (acc ++ [p])) as (l & -> & Hl).
      exists (p :: l). rewrite <- List.app_assoc. split; [reflexivity|].
      apply sublist_skip, Hl.
Qed.

Lemma dedup_step_fresh ps : forall seen acc,
  NoDup (map url ps) -> (forall p, p ∈ ps -> url p ∉ seen) ->
  snd (fold_left dedup_step ps (seen, acc)) = acc ++ ps.
Proof.
  induction ps as [|p ps IH]; intros seen acc Hnd Hfresh.
  - cbn. rewrite app_nil_r. reflexivity.
  - cbn [fold_left dedup_step]. cbn [map] in Hnd. apply NoDup_cons in Hnd as [Hp Hnd].
    rewrite bool_decide_false by (apply Hfresh; left).
    rewrite IH; [rewrite <- List.app_assoc; reflexivity|exact Hnd|].
    intros q Hq [H|H]%elem_of_union.
    + apply elem_of_singleton in H. apply Hp. rewrite <- H.
      apply list_elem_of_fmap. exists q. auto.
    + apply (Hfresh q); [right; exact Hq|exact H].
Qed.

(** X16: deduplication keeps the order of arrival (its result is a
    subsequence of its input), leaves a list without duplicate urls as it
    is, and so changes nothing when run a second time. *)
Theorem dedup_order_and_idempotence (all_properties : list property) :
  sublist (dedup all_properties) all_properties
  /\ (NoDup (map url all_properties) -> dedup all_properties = all_properties)
  /\ dedup (dedup all_properties) = dedup all_properties.
Proof.
  assert (Hfix : forall l, NoDup (map url l) -> dedup l = l).
  { intros l H. unfold dedup. rewrite dedup_step_fresh; [reflexivity|exact H|].
    intros p _ Hp. apply elem_of_empty in Hp. exact Hp. }
  split; [|split].
  - unfold dedup. destruct (dedup_step_sublist all_properties ∅ []) as (l & -> & Hl).
    exact Hl.
  - apply Hfix.
  - apply Hfix. unfold dedup. apply dedup_step_nodup; [constructor|].
    intros p Hp. inversion Hp.
Qed.

Lemma dedup_order_and_idempotence_witness :
  dedup [sample_prestige; no_scheme_record] = [sample_prestige; no_scheme_record].
Proof.
  apply (proj1 (proj2 (dedup_order_and_idempotence [sample_prestige; no_scheme_record]))).
  apply (bool_decide_unpack _). vm_compute. reflexivity.
Defined.

(** * Properties of the handover parsers *)

(** A month-and-year token: a word of letters, whitespace, four digits. *)
Definition month_year_token (p : text) : Prop :=
  exists word sp year,
    p = word ++ sp ++ year
    /\ word <> [] /\ forallb is_alpha word = true
    /\ sp <> [] /\ forallb is_space sp = true
    /\ length year = 4%nat /\ forallb is_digit year = true.

(** A successful match has called its continuation successfully. *)
Lemma rmatch_some_k {A} r : forall s caps (k : text -> captures -> option A) x,
  rmatch r s caps k = Some x -> exists s' caps', k s' caps' = Some x.
Proof.
  induction r as [|c|p|p|p|r1 IH1 r2 IH2|r1 IH1 r2 IH2|r1 IH1|i r1 IH1];
    intros s caps k x H; cbn [rmatch] in H.
  - eauto.
  - destruct s as [|y s]; [discriminate|]. destruct (ceqb_ci c y); [eauto|discriminate].
  - destruct s as [|y s]; [discriminate|]. destruct (p y); [eauto|discriminate].
  - apply star_match_some in H as (a & rest & _ & _ & H). eauto.
  - destruct s as [|y s]; [discriminate|]. destruct (p y); [|discriminate].
    apply star_match_some in H as (a & rest & _ & _ & H). eauto.
  - apply IH1 in H as (s1 & caps1 & H). apply IH2 in H. exact H.
  - destruct (rmatch r1 s caps k) as [y|] eqn:E.
    + injection H as ->. apply IH1 in E. exact E.
    + apply IH2 in H. exact H.
  - destruct (rmatch r1 s caps k) as [y|] eqn:E.
    + injection H as ->. apply IH1 in E. exact E.
    + eauto.
  - apply IH1 in H as (s1 & caps1 & H). eauto.
Qed.

Lemma search_some r s m :
  search r s = Some m -> exists pre s', s = pre ++ s' /\ match_here r s' = Some m.
Proof.
  induction s as [|c s IH]; cbn [search]; intros H.
  - destruct (match_here r []) eqn:E; [|discriminate]. injection H as ->.
    exists [], []. auto.
  - destruct (match_here r (c :: s)) eqn:E.
    + injection H as ->. exists [], (c :: s). auto.
    + destruct (IH H) as (pre & s' & -> & Hm). exists (c :: pre), s'. auto.
Qed.

Lemma cls_inv {A} p R s caps (k : text -> captures -> option A) x :
  rmatch (Seq (Cls p) R) s caps k = Some x ->
  exists c s', s = c :: s' /\ p c = true /\ rmatch R s' caps k = Some x.
Proof.
  cbn [rmatch]. destruct s as [|c s]; [discriminate|].
  destruct (p c) eqn:E; [|discriminate]. eauto.
Qed.

Lemma month_year_inv {A} s caps (k : text -> captures -> option A) x :
  rmatch month_year s caps k = Some x ->
  exists p rest, month_year_token p /\ s = p ++ rest
                 /\ k rest ((1%nat, p) :: caps) = Some x.
Proof.
  unfold month_year. cbn [rmatch seqs]. intros H.
  destruct s as [|w s]; [discriminate|].
  destruct (is_alpha w) eqn:Hw; [|discriminate].
  apply star_match_some in H as (word & r1 & -> & Hword & H).
  unfold ws1 in H. cbn [rmatch] in H.
  destruct r1 as [|b r1]; [discriminate|].
  destruct (is_space b) eqn:Hb; [|discriminate].
  apply star_match_some in H as (sp & r2 & -> & Hsp & H).
  unfold digit in H. cbn [rmatch] in H.
  destruct r2 as [|y1 r2]; [discriminate|]. destruct (is_digit y1) eqn:H1; [|discriminate].
  destruct r2 as [|y2 r2]; [discriminate|]. destruct (is_digit y2) eqn:H2; [|discriminate].
  destruct r2 as [|y3 r2]; [discriminate|]. destruct (is_digit y3) eqn:H3; [|discriminate].
  destruct r2 as [|y4 r2]; [discriminate|]. destruct (is_digit y4) eqn:H4; [|discriminate].
  assert (E : w :: word ++ b :: sp ++ y1 :: y2 :: y3 :: y4 :: r2
              = ((w :: word) ++ (b :: sp) ++ [y1; y2; y3; y4]) ++ r2).
  { rewrite <- !List.app_assoc. reflexivity. }
  rewrite E in H. rewrite consumed_app in H.
  exists ((w :: word) ++ (b :: sp) ++ [y1; y2; y3; y4]), r2.
  split; [|split; [exact E|exact H]].
  exists (w :: word), (b :: sp), [y1; y2; y3; y4].
  cbn [forallb length]. rewrite Hw, Hword, Hb, Hsp, H1, H2, H3, H4.
  repeat split; discriminate.
Qed.

Lemma alpha_not_space c : is_alpha c = true -> is_space c = false.
Proof.
  destruct c as [[] [] [] [] [] [] [] []]; vm_compute; intros H;
    solve [reflexivity | discriminate H].
Qed.

Lemma digit_facts c :
  is_digit c = true ->
  is_space c = false /\ ceqb c "-" = false /\ ceqb c "+" = false
  /\ ceqb c "_" = false /\ 0 <= digit_val c <= 9.
Proof.
  destruct c as [[] [] [] [] [] [] [] []]; vm_compute; intros H;
    try discriminate H; repeat split; intros E; discriminate E.
Qed.

Lemma month_year_token_trimmed p : month_year_token p -> strip p = p.
Proof.
  intros (word & sp & year & -> & Hw & Aw & _ & _ & Ly & Dy).
  destruct word as [|w word]; [contradiction|].
  destruct year as [|y1 [|y2 [|y3 [|y4 [|? ?]]]]]; try discriminate Ly.
  replace ((w :: word) ++ sp ++ [y1; y2; y3; y4])
    with (w :: (word ++ sp ++ [y1; y2; y3]) ++ [y4])
    by (cbn [app]; rewrite <- !List.app_assoc; reflexivity).
  cbn [forallb] in Aw, Dy.
  apply andb_true_iff in Aw as [Aw _].
  repeat (apply andb_true_iff in Dy as [? Dy]).
  apply strip_ends; [apply alpha_not_space; exact Aw|].
  apply (digit_facts y4). assumption.
Qed.

Lemma parse_possession_cases t p :
  parse_possession t = Some p -> p = txt "Ready to move" \/ month_year_token p.
Proof.
  unfold parse_possession.
  destruct (is_empty t || is_empty (strip t)); [discriminate|].
  destruct (contains _ _ || contains _ _); [intros [= <-]; left; reflexivity|].
  destruct (search re_possession (strip t)) as [m|] eqn:E; [|discriminate].
  intros [= <-]. right.
  apply search_some in E as (pre & s' & _ & E).
  unfold match_here, re_possession in E. cbn [seqs] in E.
  change (rmatch (Seq ?a ?b) ?s ?c ?k)
    with (rmatch a s c (fun s' caps' => rmatch b s' caps' k)) in E.
  apply rmatch_some_k in E as (s1 & caps1 & E).
  apply month_year_inv in E as (p & rest & Hp & _ & [= <-]).
  cbn [group Nat.eqb]. rewrite (month_year_token_trimmed _ Hp). exact Hp.
Qed.

(** X17: on ASCII text [parse_possession] never returns a long
    description: its result is "Ready to move" or a month-and-year token,
    that is a single word of letters, whitespace and four digits; on a
    blank text it returns nothing, and a text with "ready to move" in any
    case gives "Ready to move". *)
Theorem parse_possession_short (t : text) :
  isascii t = true ->
  (forall p, parse_possession t = Some p ->
             p = txt "Ready to move" \/ month_year_token p)
  /\ (strip t = [] -> parse_possession t = None)
  /\ (contains (txt "ready to move") (lower (strip t)) = true ->
      parse_possession t = Some (txt "Ready to move")).
Proof.
  intros _. split; [|split].
  - intros p. apply parse_possession_cases.
  - intros H. unfold parse_possession. rewrite H. cbn [is_empty].
    rewrite orb_true_r. reflexivity.
  - intros H. unfold parse_possession.
    destruct (strip t) as [|c s] eqn:Es; [vm_compute in H; discriminate|].
    replace (is_empty t) with false
      by (destruct t; [vm_compute in Es; discriminate|reflexivity]).
    cbn [is_empty orb]. rewrite H. reflexivity.
Qed.

Lemma parse_possession_short_witness :
  txt "Sep 2028" = txt "Ready to move" \/ month_year_token (txt "Sep 2028").
Proof.
  apply (proj1 (parse_possession_short
                  (txt " 1, 2 BHK Possession: Sep 2028 onwards ") eq_refl)).
  vm_compute. reflexivity.
Defined.

Lemma py_int_four_digits y1 y2 y3 y4 :
  is_digit y1 = true -> is_digit y2 = true ->
  is_digit y3 = true -> is_digit y4 = true ->
  py_int [y1; y2; y3; y4] = Some (digits_val [y1; y2; y3; y4])
  /\ 0 <= digits_val [y1; y2; y3; y4] <= 9999.
Proof.
  intros H1 H2 H3 H4.
  destruct (digit_facts y1 H1) as (S1 & M1 & P1 & _ & V1).
  destruct (digit_facts y2 H2) as (S2 & _ & _ & _ & V2).
  destruct (digit_facts y3 H3) as (S3 & _ & _ & _ & V3).
  destruct (digit_facts y4 H4) as (S4 & _ & _ & _ & V4).
  split.
  - unfold py_int. rewrite strip_no_space
      by (cbn [forallb]; rewrite S1, S2, S3, S4; reflexivity).
    cbn [read_sign]. rewrite M1, P1.
    cbn [digitpart digit_run]. rewrite H1, H2, H3, H4. reflexivity.
  - unfold digits_val. cbn [fold_left]. lia.
Qed.

Lemma year_match_inv s m :
  match_here re_year s = Some m ->
  exists y1 y2 y3 y4 rest,
    s = y1 :: y2 :: y3 :: y4 :: rest /\ m = [(0%nat, [y1; y2; y3; y4])]
    /\ is_digit y1 = true /\ is_digit y2 = true
    /\ is_digit y3 = true /\ is_digit y4 = true.
Proof.
  unfold match_here, re_year, digit. cbn [rmatch seqs]. intros H.
  destruct s as [|y1 s]; [discriminate|]. destruct (is_digit y1) eqn:H1; [|discriminate].
  destruct s as [|y2 s]; [discriminate|]. destruct (is_digit y2) eqn:H2; [|discriminate].
  destruct s as [|y3 s]; [discriminate|]. destruct (is_digit y3) eqn:H3; [|discriminate].
  destruct s as [|y4 s]; [discriminate|]. destruct (is_digit y4) eqn:H4; [|discriminate].
  change (y1 :: y2 :: y3 :: y4 :: s) with ([y1; y2; y3; y4] ++ s) in H.
  rewrite consumed_app in H. injection H as <-.
  exists y1, y2, y3, y4, s. auto 10.
Qed.

Lemma search_year_skip a rest :
  forallb not_digit a = true -> search re_year (a ++ rest) = search re_year rest.
Proof.
  induction a as [|c a IH]; [reflexivity|]. cbn [forallb]. intros H.
  apply andb_true_iff in H as [Hc Ha]. unfold not_digit in Hc.
  apply negb_true_iff in Hc. cbn [app search].
  unfold match_here at 1. unfold re_year, digit. cbn [rmatch seqs].
  rewrite Hc. exact (IH Ha).
Qed.

Lemma alpha_not_digit c : is_alpha c = true -> not_digit c = true.
Proof.
  destruct c as [[] [] [] [] [] [] [] []]; vm_compute; intros H;
    solve [reflexivity | discriminate H].
Qed.

Lemma space_not_digit c : is_space c = true -> not_digit c = true.
Proof.
  destruct c as [[] [] [] [] [] [] [] []]; vm_compute; intros H;
    solve [reflexivity | discriminate H].
Qed.

Lemma forallb_impl (P Q : ascii -> bool) s :
  (forall c, P c = true -> Q c = true) -> forallb P s = true -> forallb Q s = true.
Proof. rewrite !forallb_forall. auto. Qed.

Lemma year_of_token word sp year :
  forallb is_alpha word = true -> forallb is_space sp = true ->
  length year = 4%nat -> forallb is_digit year = true -> word <> [] ->
  contains (txt "ready") (lower (word ++ sp ++ year)) = false ->
  _year_from_possession (Some (word ++ sp ++ year)) = Some (digits_val year)
  /\ 0 <= digits_val year <= 9999.
Proof.
  intros Hw Hs Hl Hd Hne Hr. cbn [_year_from_possession].
  rewrite Hr. replace (is_empty (word ++ sp ++ year)) with false
    by (destruct word; [contradiction|reflexivity]).
  cbn [orb].
  rewrite search_year_skip by (revert Hw; apply forallb_impl, alpha_not_digit).
  rewrite search_year_skip by (revert Hs; apply forallb_impl, space_not_digit).
  destruct year as [|y1 [|y2 [|y3 [|y4 [|? ?]]]]]; try discriminate Hl.
  cbn [forallb] in Hd. repeat (apply andb_true_iff in Hd as [? Hd]).
  assert (E : search re_year [y1; y2; y3; y4] = Some [(0%nat, [y1; y2; y3; y4])]).
  { apply search_here. unfold match_here, re_year, digit. cbn [rmatch seqs].
    repeat match goal with H : is_digit _ = true |- _ => rewrite H end.
    reflexivity. }
  rewrite E. cbn [group Nat.eqb]. apply py_int_four_digits; assumption.
Qed.

(** X18: the year read from a handover text is a number from 0 to 9999,
    and no exception arises in reading it; from a month-and-year token
    without "ready" in it, the year is the number its four digits spell. *)
Theorem year_from_possession_range :
  (forall possession y, _year_from_possession possession = Some y -> 0 <= y <= 9999)
  /\ (forall p m, search re_year p = Some m -> exists y, py_int (group m 0) = Some y)
  /\ (forall word sp year,
         forallb is_alpha word = true -> forallb is_space sp = true ->
         length year = 4%nat -> forallb is_digit year = true -> word <> [] ->
         contains (txt "ready") (lower (word ++ sp ++ year)) = false ->
         _year_from_possession (Some (word ++ sp ++ year)) = Some (digits_val year)).
Proof.
  assert (Hm : forall p m, search re_year p = Some m ->
             exists y, py_int (group m 0) = Some y /\ 0 <= y <= 9999).
  { intros p m H. apply search_some in H as (pre & s' & _ & H).
    apply year_match_inv in H as (y1 & y2 & y3 & y4 & rest & _ & -> & H1 & H2 & H3 & H4).
    cbn [group Nat.eqb]. eexists. apply py_int_four_digits; assumption. }
  split; [|split].
  - intros [p|] y; [|discriminate]. cbn [_year_from_possession].
    destruct (is_empty p || _); [discriminate|].
    destruct (search re_year p) as [m|] eqn:E; [|discriminate].
    destruct (Hm _ _ E) as (y' & Hy & Hr). rewrite Hy. intros [= <-]. exact Hr.
  - intros p m H. destruct (Hm _ _ H) as (y & Hy & _). eauto.
  - intros word sp year Hw Hs Hl Hd Hne Hr.
    apply year_of_token; assumption.
Qed.

Lemma year_from_possession_range_witness :
  _year_from_possession (Some (txt "Sep" ++ txt " " ++ txt "2028")) = Some 2028.
Proof.
  apply (proj2 (proj2 year_from_possession_range) (txt "Sep") (txt " ") (txt "2028"));
    try reflexivity. discriminate.
Defined.

(** * Properties of the listing tails and of the written data *)

Lemma dedup_step_seen ps : forall seen acc,
  (forall p, p ∈ acc -> url p ∈ seen) ->
  forall p, p ∈ snd (fold_left dedup_step ps (seen, acc)) ->
            url p ∈ fst (fold_left dedup_step ps (seen, acc)).
Proof.
  induction ps as [|q ps IH]; intros seen acc Hacc; [exact Hacc|].
  cbn [fold_left dedup_step].
  destruct (bool_decide (url q ∈ seen)); [apply IH; exact Hacc|].
  apply IH. intros p Hp. apply elem_of_app in Hp as [Hp|Hp].
  - apply elem_of_union_r. auto.
  - apply list_elem_of_singleton in Hp. subst p.
    apply elem_of_union_l, elem_of_singleton. reflexivity.
Qed.

Lemma dedup_step_pair ps st :
  fold_left dedup_step ps st
  = (fst (fold_left dedup_step ps st), snd (fold_left dedup_step ps st)).
Proof. destruct (fold_left dedup_step ps st). reflexivity. Qed.

(** X20: the end of a listing scraper.  Its result holds no url twice;
    it starts with the deduplicated card records, and what follows them
    comes from the raw-HTML records, in their order; nothing follows when
    enough cards were found or the page is short; and when the raw-HTML
    records are used, the result is the deduplication of the card records
    followed by them. *)
Theorem list_tail_fallback (min_count min_html : nat) (results : list property)
    (html_len : nat) (raw_list : list property) :
  let out := list_tail min_count min_html results html_len raw_list in
  NoDup (map url out)
  /\ (exists extra, out = dedup results ++ extra /\ sublist extra raw_list
        /\ ((min_count <= length (dedup results))%nat \/ (html_len <= min_html)%nat ->
            extra = []))
  /\ ((length (dedup results) < min_count)%nat -> (min_html < html_len)%nat ->
      out = dedup (results ++ raw_list)).
Proof.
  cbn zeta. unfold list_tail, dedup.
  assert (Hseen := dedup_step_seen results ∅ []).
  assert (Hnd := dedup_step_nodup results ∅ []).
  destruct (fold_left dedup_step results (∅, [])) as [seen acc] eqn:Est.
  cbn [fst snd] in *.
  assert (Hs : forall p, p ∈ acc -> url p ∈ seen).
  { apply Hseen. intros p Hp. inversion Hp. }
  assert (Hn : NoDup (map url acc)).
  { apply Hnd; [constructor|]. intros p Hp. inversion Hp. }
  clear Hseen Hnd.
  split; [|split].
  - destruct (_ && _); [|exact Hn]. apply dedup_step_nodup; assumption.
  - destruct ((length acc <? min_count)%nat) eqn:E1;
      [destruct ((min_html <? html_len)%nat) eqn:E2|]; cbn [andb].
    + destruct (dedup_step_sublist raw_list seen acc) as (l & -> & Hl).
      exists l. split; [reflexivity|]. split; [exact Hl|].
      apply Nat.ltb_lt in E1, E2. lia.
    + exists []. rewrite app_nil_r. repeat split; auto. apply sublist_nil_l.
    + exists []. rewrite app_nil_r. repeat split; auto. apply sublist_nil_l.
  - intros H1 H2. apply Nat.ltb_lt in H1, H2. rewrite H1, H2. cbn [andb].
    rewrite fold_left_app, Est. reflexivity.
Qed.

Lemma list_tail_fallback_witness :
  scrape_99acres_list_tail [sample_prestige] (S 5000) [duplicate_of_prestige; no_scheme_record]
  = dedup ([sample_prestige] ++ [duplicate_of_prestige; no_scheme_record]).
Proof.
  apply (list_tail_fallback 3 5000 [sample_prestige] (S 5000)
           [duplicate_of_prestige; no_scheme_record]).
  - vm_compute. lia.
  - lia.
Defined.

(** X21: what a run of [main] that comes to its end leaves in the output
    file is never empty.  Its last write is the data, which is not empty;
    an empty list is written only with [--clear], as the first write,
    before the scrape.  The data: when
    a record of the scrape passes the final verification, the verified
    records and no sample; when the scrape holds records and none passes,
    the five samples as they are; when the scrape is empty, the five
    samples after verification, which all pass and which changes them.
    The case in which none passes is met by a list that [run_scraper]
    itself has verified: the record it returns for the name "Resort List
    By" fails the final verification, and the samples are written in its
    place. *)
Theorem main_data_cases (do_clear : bool) (at_checkpoint : option (list property))
    (scraped : list property) :
  let writes := main_writes do_clear at_checkpoint scraped in
  last writes = Some (main_data scraped)
  /\ main_data scraped <> []
  /\ (forall i, writes !! i = Some [] -> i = O /\ do_clear = true)
  /\ (do_clear = true -> writes !! O = Some [])
  /\ (omap verify_and_clean_property scraped <> [] ->
      main_data scraped = omap verify_and_clean_property scraped)
  /\ (scraped <> [] -> omap verify_and_clean_property scraped = [] ->
      main_data scraped = SAMPLE_DATA)
  /\ (scraped = [] ->
      main_data scraped = omap verify_and_clean_property SAMPLE_DATA
      /\ length (main_data scraped) = 5%nat
      /\ map pid (main_data scraped) = map pid SAMPLE_DATA
      /\ main_data scraped <> SAMPLE_DATA)
  /\ (length (finish [resort_list_record]) = 1%nat
      /\ main_data (finish [resort_list_record]) = SAMPLE_DATA).
Proof.
  cbn zeta.
  assert (Hne : main_data scraped <> []).
  { unfold main_data.
    destruct (omap verify_and_clean_property (ensure_sample_data scraped));
      discriminate. }
  split; [|split; [exact Hne|split; [|split; [|split; [|split; [|split]]]]]].
  - unfold main_writes. rewrite !last_app. reflexivity.
  - unfold main_writes, checkpoint_write. intros i.
    destruct (main_data scraped) as [|d ds]; [contradiction|].
    destruct do_clear, at_checkpoint as [unique|];
      try destruct (omap verify_and_clean_property unique);
      cbn [app]; destruct i as [|[|[|i]]]; cbn; intros H;
      try discriminate H; auto.
  - intros ->. reflexivity.
  - intros H. unfold main_data. destruct scraped as [|p l]; [contradiction|].
    cbn [ensure_sample_data].
    destruct (omap verify_and_clean_property (p :: l)); [contradiction|reflexivity].
  - intros H E. unfold main_data. destruct scraped as [|p l]; [contradiction|].
    cbn [ensure_sample_data]. rewrite E. reflexivity.
  - intros ->. vm_compute. repeat split. discriminate.
  - split; vm_compute; reflexivity.
Qed.

Lemma main_data_cases_witness :
  main_writes true None [resort_record] !! O = Some []
  /\ main_data [resort_record] = omap verify_and_clean_property [resort_record].
Proof.
  split.
  - apply (proj1 (proj2 (proj2 (proj2
             (main_data_cases true None [resort_record]))))).
    reflexivity.
  - apply (proj1 (proj2 (proj2 (proj2 (proj2
             (main_data_cases true None [resort_record])))))).
    vm_compute. discriminate.
Defined.

(** * Properties of the slugs and of the builder names *)

(** The characters of a slug: lowercase letters, digits and the hyphen. *)
Definition slug_safe (c : ascii) : bool := is_slug_char c || is_hyphen c.

Lemma hyphenate_safe b s : forallb slug_safe (hyphenate_from b s) = true.
Proof.
  revert b. induction s as [|c s IH]; intros b; [reflexivity|].
  cbn [hyphenate_from]. destruct (is_slug_char c) eqn:E.
  - cbn [forallb]. unfold slug_safe at 1. rewrite E. apply IH.
  - destruct b; [apply IH|]. cbn [forallb]. rewrite IH. reflexivity.
Qed.

Lemma strip_hyphens_sub s : exists n j, strip_hyphens s = take n (drop j s).
Proof.
  unfold strip_hyphens. destruct (drop_while_drop is_hyphen s) as [j ->].
  destruct (drop_while_drop is_hyphen (rev (drop j s))) as [i ->].
  exists (length (drop j s) - i)%nat, j.
  rewrite skipn_rev, rev_involutive. reflexivity.
Qed.

Lemma slug_of_safe n s : forallb slug_safe (slug_of n s) = true.
Proof.
  unfold slug_of. apply forallb_take.
  destruct (strip_hyphens_sub (hyphenate (lower s))) as (i & j & ->).
  apply forallb_take, forallb_drop, hyphenate_safe.
Qed.

Lemma slug_of_length n s : (length (slug_of n s) <= n)%nat.
Proof. unfold slug_of. rewrite length_take. lia. Qed.

(** X22: a NoBroker slug holds only lowercase letters, digits and
    hyphens, is at most 141 characters long and ends in "-bangalore". *)
Theorem nobroker_slug_shape (name locality : text) :
  let slug := _nobroker_slug name locality in
  forallb slug_safe slug = true
  /\ (length slug <= 141)%nat
  /\ (exists pre, slug = pre ++ txt "-bangalore").
Proof.
  cbn zeta. unfold _nobroker_slug.
  set (loc := strip (re_sub re_bangalore_tail [] locality)).
  assert (Ha := slug_of_safe 80 name). assert (Hb := slug_of_safe 50 loc).
  assert (La := slug_of_length 80 name). assert (Lb := slug_of_length 50 loc).
  destruct (is_empty name), (is_empty locality); try destruct (is_empty loc);
    cbn [app join];
    try (split; [reflexivity|split; [vm_compute; lia|exists (txt "project"); reflexivity]]).
  all: split; [|split; [|eexists; reflexivity]].
  all: rewrite ?forallb_app, ?length_app, ?Ha, ?Hb; try reflexivity.
  all: change (length (txt "-bangalore")) with 10%nat;
       change (length (txt "-")) with 1%nat; lia.
Qed.

Definition not_comma (c : ascii) : bool := negb (ceqb c ",").

Lemma not_comma_ci c : not_comma c = true -> ceqb_ci "," c = false.
Proof.
  destruct c as [[] [] [] [] [] [] [] []]; vm_compute; intros H;
    solve [reflexivity | discriminate H].
Qed.

Lemma re_sub_skip_all r repl s : forall n,
  (length s <= n)%nat -> re_sub_from r repl n s = [].
Proof.
  induction s as [|c s IH]; intros n H; [reflexivity|].
  cbn [length] in H. destruct n as [|n]; [lia|].
  cbn [re_sub_from]. apply IH. lia.
Qed.

Lemma re_sub_no_comma loc rest :
  forallb not_comma loc = true ->
  re_sub_from re_bangalore_tail [] O (loc ++ rest)
  = loc ++ re_sub_from re_bangalore_tail [] O rest.
Proof.
  induction loc as [|c loc IH]; [reflexivity|]. cbn [forallb]. intros H.
  apply andb_true_iff in H as [Hc Hl]. cbn [app re_sub_from].
  unfold match_here at 1. unfold re_bangalore_tail at 1. cbn [rmatch seqs].
  rewrite (not_comma_ci c Hc), (IH Hl). reflexivity.
Qed.

Lemma lit_match_ci {A} l : forall x rest caps (k : text -> captures -> option A),
  lower x = lower l -> rmatch (lit l) (x ++ rest) caps k = k rest caps.
Proof.
  induction l as [|c l IH]; intros x rest caps k H.
  - destruct x; [reflexivity|discriminate].
  - destruct x as [|y x]; [discriminate|]. cbn [lower map] in H.
    injection H as Hy Hx. cbn [lit rmatch app].
    unfold ceqb_ci, ceqb. rewrite Hy, Ascii.eqb_refl. apply IH, Hx.
Qed.

Lemma star_match_all {A} p s (k : text -> option A) x :
  forallb p s = true -> k [] = Some x -> star_match p s k = Some x.
Proof.
  intros H Hk. rewrite <- (app_nil_r s). apply star_match_greedy; auto.
Qed.

Lemma consumed_nil s : consumed s [] = s.
Proof. rewrite <- (app_nil_r s) at 1. apply consumed_app. Qed.

Lemma bangalore_tail_match sp city tail :
  forallb is_space sp = true -> lower city = txt "bangalore" ->
  forallb not_newline tail = true ->
  match_here (Grp 0 re_bangalore_tail) (","%char :: sp ++ city ++ tail)
  = Some [(0%nat, ","%char :: sp ++ city ++ tail)].
Proof.
  intros Hs Hc Ht. unfold match_here, re_bangalore_tail, ws.
  cbn [seqs rmatch]. change (ceqb_ci "," ",") with true. cbv iota.
  apply star_match_greedy; [exact Hs| |].
  - destruct city as [|y city]; [discriminate|]. cbn [app stops].
    cbn [lower map] in Hc. injection Hc as Hy _.
    rewrite <- is_space_lower_char, Hy. reflexivity.
  - rewrite lit_match_ci by exact Hc.
    apply star_match_all; [exact Ht|]. rewrite consumed_nil. reflexivity.
Qed.

(** X23: a city suffix does not reach the slug.  A locality that
    continues, after a part without comma, with a comma, optional
    whitespace, the word "Bangalore" in any case and the rest of the line,
    gives the slug of the part before the comma. *)
Theorem nobroker_slug_city_suffix (name loc sp city tail : text) :
  forallb not_comma loc = true ->
  forallb is_space sp = true ->
  lower city = txt "bangalore" ->
  forallb not_newline tail = true ->
  _nobroker_slug name (loc ++ txt "," ++ sp ++ city ++ tail)
  = _nobroker_slug name loc.
Proof.
  intros Hl Hs Hc Ht. unfold _nobroker_slug.
  assert (E1 : re_sub re_bangalore_tail [] (loc ++ txt "," ++ sp ++ city ++ tail) = loc).
  { unfold re_sub. rewrite re_sub_no_comma by exact Hl.
    change (txt "," ++ sp ++ city ++ tail) with (","%char :: sp ++ city ++ tail).
    cbn [re_sub_from]. rewrite bangalore_tail_match by assumption.
    cbn [group Nat.eqb length Nat.pred app].
    rewrite re_sub_skip_all by lia. apply app_nil_r. }
  assert (E2 : re_sub re_bangalore_tail [] loc = loc).
  { unfold re_sub. rewrite <- (app_nil_r loc) at 1.
    rewrite re_sub_no_comma by exact Hl. cbn [re_sub_from]. apply app_nil_r. }
  rewrite E1, E2.
  replace (is_empty (loc ++ txt "," ++ sp ++ city ++ tail)) with false
    by (destruct loc; reflexivity).
  destruct loc as [|c loc]; [|reflexivity].
  cbn [is_empty]. change (is_empty (strip [])) with true. reflexivity.
Qed.

Lemma nobroker_slug_city_suffix_witness :
  _nobroker_slug (txt "Adarsh Welkin Park") (txt "Off Sarjapura Road, Bangalore, India")
  = _nobroker_slug (txt "Adarsh Welkin Park") (txt "Off Sarjapura Road").
Proof.
  apply (nobroker_slug_city_suffix (txt "Adarsh Welkin Park")
           (txt "Off Sarjapura Road") (txt " ") (txt "Bangalore") (txt ", India"));
    reflexivity.
Defined.

Definition nonspace (c : ascii) : bool := negb (is_space c).

(** Where a text ends or goes on with whitespace. *)
Definition word_end (rest : text) : Prop :=
  rest = [] \/ exists c r, rest = c :: r /\ is_space c = true.

Lemma split_from_word s : forall word,
  word <> [] ->
  exists w rest tl,
    s = w ++ rest /\ forallb nonspace w = true /\ word_end rest
    /\ split_from word s = (word ++ w) :: tl.
Proof.
  induction s as [|c s IH]; intros word Hw.
  - exists [], [], []. destruct word as [|a word]; [contradiction|].
    cbn [split_from is_empty]. rewrite (app_nil_r (a :: word)).
    split; [reflexivity|]. split; [reflexivity|]. split; [left|]; reflexivity.
  - cbn [split_from]. destruct (is_space c) eqn:E.
    + exists [], (c :: s), (split_from [] s).
      destruct word as [|a word]; [contradiction|].
      cbn [is_empty]. rewrite (app_nil_r (a :: word)).
      split; [reflexivity|]. split; [reflexivity|]. split; [|reflexivity].
      right. exists c, s. auto.
    + destruct (IH (word ++ [c])) as (w & rest & tl & -> & Hn & He & Hs).
      { destruct word; discriminate. }
      exists (c :: w), rest, tl. cbn [app forallb]. unfold nonspace at 1.
      rewrite E, Hs, <- List.app_assoc.
      split; [reflexivity|]. split; [exact Hn|]. split; [exact He|reflexivity].
Qed.

Lemma split_from_nil s :
  (forallb is_space s = true /\ split_from [] s = [])
  \/ exists sp w rest tl,
       s = sp ++ w ++ rest /\ forallb is_space sp = true /\ w <> []
       /\ forallb nonspace w = true /\ word_end rest
       /\ split_from [] s = w :: tl.
Proof.
  induction s as [|c s IH]; [left; split; reflexivity|].
  cbn [split_from forallb is_empty]. destruct (is_space c) eqn:E.
  - destruct IH as [[Ha Hs]|(sp & w & rest & tl & -> & Hsp & Hw & Hn & He & Hs)].
    + left. split; assumption.
    + right. exists (c :: sp), w, rest, tl. cbn [app forallb]. rewrite E.
      repeat split; assumption.
  - right. cbn [app].
    destruct (split_from_word s [c]) as (w & rest & tl & -> & Hn & He & Hs);
      [discriminate|].
    exists [], (c :: w), rest, tl. cbn [app forallb]. unfold nonspace at 1.
    rewrite E. repeat split; try assumption. discriminate.
Qed.

(** X24: the builder guessed from an ASCII title is the title's first
    word: it holds no whitespace, only whitespace stands before it, and
    whitespace or the end of the title follows it; it is empty exactly
    when the title holds nothing but whitespace. *)
Theorem builder_first_word (title : text) :
  isascii title = true ->
  let b := extract_builder_from_title title in
  forallb nonspace b = true
  /\ (exists sp rest,
        title = sp ++ b ++ rest /\ forallb is_space sp = true /\ word_end rest)
  /\ (b = [] <-> forallb is_space title = true).
Proof.
  intros _. cbn zeta. unfold extract_builder_from_title, split.
  destruct title as [|c t].
  - cbn [is_empty]. split; [reflexivity|]. split; [|split; reflexivity].
    exists [], []. repeat split. left. reflexivity.
  - cbn [is_empty]. set (title := c :: t). clearbody title.
    destruct (split_from_nil title)
      as [[Ha ->]|(sp & w & rest & tl & -> & Hsp & Hw & Hn & He & ->)].
    + split; [reflexivity|]. split; [|split; auto].
      exists title, []. rewrite app_nil_r. repeat split; [exact Ha|].
      left. reflexivity.
    + split; [exact Hn|]. split; [exists sp, rest; auto|].
      split; [intros ->; contradiction|].
      rewrite !forallb_app. intros H.
      apply andb_true_iff in H as [_ H]. apply andb_true_iff in H as [H _].
      destruct w as [|d w]; [contradiction|]. cbn [forallb] in H, Hn.
      unfold nonspace at 1 in Hn. destruct (is_space d); discriminate.
Qed.

Lemma builder_first_word_witness :
  forallb nonspace (extract_builder_from_title (txt " Prestige Suncrest")) = true
  /\ extract_builder_from_title (txt " Prestige Suncrest") = txt "Prestige".
Proof.
  split; [|reflexivity].
  apply (builder_first_word (txt " Prestige Suncrest")). reflexivity.
Defined.

(** * Uniqueness of the urls after the tail of [run_scraper] *)

(** A record whose url, when it has one, is ASCII text with no whitespace
    around it. *)
Definition url_trimmed (p : property) : Prop :=
  forall u, url p = Some u -> isascii u = true /\ strip u = u.

Lemma verify_keeps_trimmed_url record r :
  url_trimmed record -> verify_and_clean_property record = Some r ->
  url r = url record.
Proof.
  intros Ht Hv. destruct (verify_inv _ _ Hv) as (u & n & Hu & _ & ->).
  cbn [url]. unfold checked_url in Hu.
  destruct (url record) as [v|] eqn:E.
  - rewrite or_empty_some, (proj2 (Ht v E)) in Hu.
    destruct (_ || _); [discriminate|]. symmetry. exact Hu.
  - discriminate Hu.
Qed.

Lemma verified_urls_sublist xs :
  (forall p, p ∈ xs -> url_trimmed p) ->
  sublist (map url (omap verify_and_clean_property (List.filter not_junk xs)))
          (map url xs).
Proof.
  induction xs as [|p xs IH]; intros H; [constructor|].
  assert (IH' := IH (fun q Hq => H q (list_elem_of_further _ _ _ Hq))).
  cbn [List.filter map]. destruct (not_junk p).
  - cbn [omap list_omap].
    destruct (verify_and_clean_property p) as [r|] eqn:E.
    + cbn [map]. rewrite (verify_keeps_trimmed_url p r); [|apply H; left|exact E].
      apply sublist_skip, IH'.
    + apply sublist_cons, IH'.
  - apply sublist_cons, IH'.
Qed.

Definition lake_view_record : property :=
  {| pid := Some (txt "r3"); source := Some (txt "99acres");
     status := Some (txt "new_launch");
     name := Some (txt "Lake View Towers");
     builder := Some (txt "Lake"); locality := Some (txt "Whitefield");
     price_min_lakhs := VInt 71; price_max_lakhs := VInt 211;
     price_display := None; handover := Some (txt "Sep 2028");
     handover_year := YInt 2028; bhk := Some (txt "2, 3");
     url := Some (txt "https://www.99acres.com/lake-view-npxid-r3") |}.

(** The same record under the same url with a space before it. *)
Definition lake_view_padded : property :=
  {| pid := Some (txt "r4"); source := Some (txt "99acres");
     status := Some (txt "new_launch");
     name := Some (txt "Lake View Towers");
     builder := Some (txt "Lake"); locality := Some (txt "Whitefield");
     price_min_lakhs := VInt 71; price_max_lakhs := VInt 211;
     price_display := None; handover := Some (txt "Sep 2028");
     handover_year := YInt 2028; bhk := Some (txt "2, 3");
     url := Some (txt " https://www.99acres.com/lake-view-npxid-r3") |}.

(** X25: when the urls of the scraped records are ASCII text without
    whitespace around it, the tail of [run_scraper] returns no url twice.
    Otherwise it can:
    deduplication compares the urls as they are and verification trims
    them afterwards, so a url and its copy with a space before it both
    come out, as the same url. *)
Theorem finish_unique_urls :
  (forall all_properties,
      (forall p, p ∈ all_properties -> url_trimmed p) ->
      NoDup (map url (finish all_properties)))
  /\ map url (finish [lake_view_record; lake_view_padded])
     = [url lake_view_record; url lake_view_record].
Proof.
  split; [|vm_compute; reflexivity].
  intros l H. unfold finish.
  assert (Hs : sublist (dedup l) l).
  { unfold dedup. destruct (dedup_step_sublist l ∅ []) as (l0 & -> & Hl). exact Hl. }
  apply (sublist_NoDup _ (map url (dedup l))).
  - unfold dedup. apply dedup_step_nodup; [constructor|].
    intros p Hp. inversion Hp.
  - apply verified_urls_sublist. intros p Hp. apply H.
    exact (elem_of_sublist _ _ _ Hp Hs).
Qed.

Lemma finish_unique_urls_witness :
  NoDup (map url (finish [lake_view_record; lake_view_record])).
Proof.
  apply (proj1 finish_unique_urls [lake_view_record; lake_view_record]).
  intros p Hp u Hu.
  apply list_elem_of_In in Hp. cbn [In] in Hp.
  destruct Hp as [<-|[<-|[]]]; injection Hu as <-; split; reflexivity.
Defined.

(** X26: from handover text to handover year.  For every handover text
    that [parse_possession] returns, [_year_from_possession] finds no year
    exactly when the text holds "ready" in any case: "Ready to move" has
    no year, and neither has a token such as "Already 2026"; every other
    token has a year, a number from 0 to 9999. *)
Theorem possession_year_pipeline (t p : text) :
  parse_possession t = Some p ->
  (_year_from_possession (Some p) = None <->
   contains (txt "ready") (lower p) = true)
  /\ (forall y, _year_from_possession (Some p) = Some y -> 0 <= y <= 9999).
Proof.
  intros H. apply parse_possession_cases in H as [->|Hp].
  - split; [split; reflexivity|]. intros y Hy. vm_compute in Hy. discriminate.
  - destruct Hp as (word & sp & year & -> & Hw & Aw & _ & Hs & Ly & Dy).
    destruct (contains (txt "ready") (lower (word ++ sp ++ year))) eqn:E.
    + assert (N : _year_from_possession (Some (word ++ sp ++ year)) = None).
      { cbn [_year_from_possession]. rewrite E, orb_true_r. reflexivity. }
      split; [split; [reflexivity|intros _; exact N]|]. intros y Hy.
      assert (X : None = Some y) by (rewrite <- N; exact Hy). discriminate X.
    + destruct (year_of_token word sp year Aw Hs Ly Dy Hw E) as [Hy Hr].
      split; [split|].
      * intros X. assert (Y : Some (digits_val year) = None)
          by (rewrite <- Hy; exact X). discriminate Y.
      * discriminate.
      * intros y Hy'. assert (Y : Some (digits_val year) = Some y)
          by (rewrite <- Hy; exact Hy'). injection Y as <-. exact Hr.
Qed.

Lemma possession_year_pipeline_witness :
  _year_from_possession (Some (txt "Already 2026")) = None.
Proof.
  apply (proj1 (possession_year_pipeline (txt "Possession: Already 2026")
                  (txt "Already 2026") ltac:(vm_compute; reflexivity))).
  vm_compute. reflexivity.
Defined.

(** * The parser never returns a NaN *)

Section NoNaN.
Variables prec emax : Z.

Lemma shr_1_nonneg mrs : 0 <= shr_m mrs -> 0 <= shr_m (shr_1 mrs).
Proof.
  destruct mrs as [m r s]. cbn [shr_m]. intros H.
  destruct m as [|[p|p|]|p]; cbn; lia.
Qed.

Lemma iter_shr_1_nonneg p : forall mrs,
  0 <= shr_m mrs -> 0 <= shr_m (SpecFloat.iter_pos shr_1 p mrs).
Proof.
  induction p; intros mrs H; cbn [SpecFloat.iter_pos]; auto using shr_1_nonneg.
Qed.

Lemma shr_fexp_nonneg m e l :
  0 <= m -> 0 <= shr_m (fst (shr_fexp prec emax m e l)).
Proof.
  intros H. unfold shr_fexp, shr.
  assert (H0 : 0 <= shr_m (shr_record_of_loc m l)) by (destruct l as [|[]]; exact H).
  destruct (fexp prec emax (Zdigits2 m + e) - e); cbn [fst];
    auto using iter_shr_1_nonneg.
Qed.

Lemma round_nearest_even_nonneg m l : 0 <= m -> 0 <= round_nearest_even m l.
Proof.
  intros H. destruct l as [|[]]; cbn [round_nearest_even]; try lia.
  destruct (Z.even m); lia.
Qed.

Lemma binary_round_aux_not_nan s m e l :
  0 <= m -> binary_round_aux prec emax s m e l <> S754_nan.
Proof.
  intros H. unfold binary_round_aux.
  pose proof (shr_fexp_nonneg m e l H) as H1.
  destruct (shr_fexp prec emax m e l) as [mrs' e']. cbn [fst] in H1.
  pose proof (shr_fexp_nonneg _ e' loc_Exact
                (round_nearest_even_nonneg _ (loc_of_shr_record mrs') H1)) as H2.
  destruct (shr_fexp prec emax _ e' loc_Exact) as [mrs'' e'']. cbn [fst] in H2.
  destruct (shr_m mrs''); [discriminate| |lia].
  destruct (_ <=? _); discriminate.
Qed.

Lemma binary_normalize_not_nan m e sz :
  binary_normalize prec emax m e sz <> S754_nan.
Proof.
  unfold binary_normalize, binary_round. destruct m; [discriminate|..];
    destruct (shl_align _ _ _); apply binary_round_aux_not_nan; lia.
Qed.

Lemma SFdiv_finite_not_nan s1 m1 e1 s2 m2 e2 :
  SFdiv prec emax (S754_finite s1 m1 e1) (S754_finite s2 m2 e2) <> S754_nan.
Proof.
  cbn [SFdiv]. unfold SFdiv_core_binary. cbv zeta.
  set (sh := e1 - e2 - _).
  set (m' := match sh with Z0 => Z.pos m1 | Z.pos _ => Z.shiftl (Z.pos m1) sh
                      | Z.neg _ => 0 end).
  assert (Hm : 0 <= m').
  { unfold m'. destruct sh; try lia. apply Z.shiftl_nonneg. lia. }
  pose proof (Z.div_pos m' (Z.pos m2) Hm ltac:(lia)) as Hq.
  unfold Z.div in Hq. destruct (Z.div_eucl m' (Z.pos m2)) as [q r].
  apply binary_round_aux_not_nan. exact Hq.
Qed.

Lemma SFmul_finite_not_nan x s m e :
  x <> S754_nan -> SFmul prec emax x (S754_finite s m e) <> S754_nan.
Proof.
  intros H. destruct x; cbn [SFmul]; try discriminate; [contradiction|].
  apply binary_round_aux_not_nan. lia.
Qed.
End NoNaN.

Lemma fmul_hundred_not_nan x : x <> S754_nan -> fmul x hundred <> S754_nan.
Proof.
  intros H. unfold fmul.
  remember hundred as h eqn:E. vm_compute in E. subst h.
  apply SFmul_finite_not_nan. exact H.
Qed.

Lemma float_of_decimal_not_nan sign n e : float_of_decimal sign n e <> S754_nan.
Proof.
  unfold float_of_decimal. destruct n; try discriminate.
  destruct e; try apply binary_normalize_not_nan.
  apply SFdiv_finite_not_nan.
Qed.

Lemma read_decimal_not_nan sign s f : read_decimal sign s = Some f -> f <> S754_nan.
Proof.
  unfold read_decimal. intros H.
  repeat match type of H with
         | context [match ?x with _ => _ end] => destruct x; try discriminate H
         end;
    injection H as <-; apply float_of_decimal_not_nan.
Qed.

Lemma numch_sign_facts c :
  is_numch c = true ->
  is_space c = false /\ ceqb c "-" = false /\ ceqb c "+" = false
  /\ ceqb (lower_char c) "i" = false /\ ceqb (lower_char c) "n" = false.
Proof.
  destruct c as [[] [] [] [] [] [] [] []]; vm_compute; intros H;
    try discriminate H; repeat split.
Qed.

Lemma py_float_numch_not_nan s f :
  forallb is_numch s = true -> py_float s = Some f -> f <> S754_nan.
Proof.
  intros Hs. unfold py_float. rewrite strip_no_space.
  2:{ rewrite forallb_forall in *. intros c Hc.
      destruct (numch_sign_facts c (Hs c Hc)) as (-> & _). reflexivity. }
  destruct s as [|c s]; [discriminate|].
  cbn [forallb] in Hs. apply andb_true_iff in Hs as [Hc _].
  destruct (numch_sign_facts c Hc) as (_ & E1 & E2 & E3 & E4).
  cbn [read_sign]. rewrite E1, E2. cbn [lower map text_eqb].
  change (txt "inf") with ("i"%char :: txt "nf").
  change (txt "infinity") with ("i"%char :: txt "nfinity").
  change (txt "nan") with ("n"%char :: txt "an").
  cbn [text_eqb]. rewrite E3, E4. cbn [andb orb].
  apply read_decimal_not_nan.
Qed.

(** Neither end of a pair is a NaN. *)
Definition pair_not_nan (r : price_pair) : Prop :=
  fst r <> Some S754_nan /\ snd r <> Some S754_nan.

Lemma group_numch r raw m i :
  number_groups r -> search r raw = Some m -> forallb is_numch (group m i) = true.
Proof.
  intros Hg Hs.
  assert (Ht : forallb (fun _ : ascii => true) raw = true)
    by (apply forallb_forall; reflexivity).
  pose proof (search_caps_inv _ _ _ _ Hg Ht Hs) as Hc.
  apply (group_caps_ok _ m i Hc).
Qed.

Lemma some_not_nan (x : float) : x <> S754_nan -> Some x <> Some S754_nan.
Proof. intros H [= E]. contradiction. Qed.

Ltac read_group Hg E :=
  match goal with
  | |- context [py_float (group ?m ?i)] =>
      let F := fresh "F" in
      let N := fresh "N" in
      destruct (py_float (group m i)) eqn:F;
      [pose proof (py_float_numch_not_nan _ _ (group_numch _ _ m i Hg E) F) as N|]
  end.

Ltac settle_pair :=
  cbv zeta;
  try match goal with |- context [if ?b then _ else _] => destruct b end;
  try discriminate;
  try (intros [= <-]);
  split; cbn [fst snd]; try discriminate;
  auto using some_not_nan, fmul_hundred_not_nan.

Lemma branches_not_nan raw :
  (forall r, branch_cr_range raw = Some r -> pair_not_nan r)
  /\ (forall r, branch_lakh_range raw = Some r -> pair_not_nan r)
  /\ (forall r, branch_mixed_range raw = Some r -> pair_not_nan r)
  /\ (forall r, branch_lakh_onwards raw = Some r -> pair_not_nan r)
  /\ (forall r, branch_cr_onwards raw = Some r -> pair_not_nan r)
  /\ pair_not_nan (branch_single raw).
Proof.
  destruct number_groups_patterns as (G1 & G2 & G3 & G4 & G5 & G6 & G7).
  split; [|split; [|split; [|split; [|split]]]].
  - intros r. unfold branch_cr_range.
    destruct (search re_cr_range raw) as [m|] eqn:E; [|discriminate].
    read_group G1 E; [|discriminate]. read_group G1 E; [|discriminate].
    settle_pair.
  - intros r. unfold branch_lakh_range.
    destruct (search re_lakh_range raw) as [m|] eqn:E; [|discriminate].
    read_group G2 E; [|discriminate]. read_group G2 E; [|discriminate].
    settle_pair.
  - intros r. unfold branch_mixed_range.
    destruct (search re_mixed_range raw) as [m|] eqn:E; [|discriminate].
    read_group G3 E; [|discriminate]. read_group G3 E; [|discriminate].
    settle_pair.
  - intros r. unfold branch_lakh_onwards.
    destruct (search re_lakh_onwards raw) as [m|] eqn:E; [|discriminate].
    read_group G4 E; [|discriminate]. settle_pair.
  - intros r. unfold branch_cr_onwards.
    destruct (search re_cr_onwards raw) as [m|] eqn:E; [|discriminate].
    read_group G5 E; [|discriminate]. settle_pair.
  - unfold branch_single.
    destruct (search re_single_cr raw) as [m|] eqn:E.
    + read_group G6 E; settle_pair.
    + destruct (search re_single_l raw) as [m|] eqn:E'; [|settle_pair].
      read_group G7 E'; settle_pair.
Qed.

(** The value an extractor stores under a price key: the float the parser
    returned, or [None]. *)
Definition stored_price (p : option float) : pyval :=
  match p with
  | Some f => VFloat f
  | None => VNone
  end.

(** X27: [parse_price_range] never returns a NaN, whatever the text: each
    end of the pair is [None] or a float that is not a NaN, so the prices
    that the extractors store from it are prices as the price invariant of
    the verifier expects them. *)
Theorem parse_price_range_not_nan (t : text) :
  (forall x, fst (parse_price_range t) = Some x -> is_nan (NFloat x) = false)
  /\ (forall x, snd (parse_price_range t) = Some x -> is_nan (NFloat x) = false)
  /\ price_not_nan (stored_price (fst (parse_price_range t)))
  /\ price_not_nan (stored_price (snd (parse_price_range t))).
Proof.
  assert (H : pair_not_nan (parse_price_range t)).
  { unfold parse_price_range. destruct (is_empty t); [split; discriminate|].
    cbv zeta. set (raw := strip _).
    destruct (branches_not_nan raw) as (B1 & B2 & B3 & B4 & B5 & B6).
    destruct (branch_cr_range raw); [auto|].
    destruct (branch_lakh_range raw); [auto|].
    destruct (branch_mixed_range raw); [auto|].
    destruct (branch_lakh_onwards raw); [auto|].
    destruct (branch_cr_onwards raw); [auto|]. exact B6. }
  destruct H as [H1 H2].
  assert (N : forall p : option float, p <> Some S754_nan ->
            (forall x, p = Some x -> is_nan (NFloat x) = false)
            /\ price_not_nan (stored_price p)).
  { intros [[]|] Hp; cbn; (split; [intros x [= <-]|]); try reflexivity.
    all: contradiction. }
  destruct (N _ H1), (N _ H2). auto.
Qed.

Lemma parse_price_range_not_nan_witness :
  exists x, fst (parse_price_range (txt "2 Cr onwards")) = Some x
            /\ is_nan (NFloat x) = false.
Proof.
  eexists. split; [vm_compute; reflexivity|].
  apply (proj1 (parse_price_range_not_nan (txt "2 Cr onwards"))).
  vm_compute. reflexivity.
Defined.
